(** * ai-marketing: a shallow embedding of the validators, the generation
    adapter's JSON extraction and keyword fallback, and the Google Ads
    tool server.

    Python values are modelled as they are at run time: a [str] is a list
    of Unicode code points, a [dict] is an insertion-ordered association
    list, a call either returns a value or raises an exception that
    carries a class and a message. *)

From Stdlib Require Import String Ascii DecimalString.
From Stdlib Require Import List ZArith NArith Bool Lia.
Import ListNotations.

Set Warnings "-register-all".

(* ===================================================================== *)
(** ** Python runtime: strings, exceptions, values                        *)
(* ===================================================================== *)

Module Py.

(** A Python [str]: a sequence of code points. [len] is [length]. *)
Abbreviation char := N (only parsing).
Abbreviation str := (list N) (only parsing).

Definition bytes_of_string (s : string) : list N :=
  map N_of_ascii (list_ascii_of_string s).

(** UTF-8 decoding of the bytes of a literal of this file, so that the
    Cyrillic messages of the source are the same code points here. *)
Fixpoint utf8_decode (bs : list N) : str :=
  match bs with
  | [] => []
  | b0 :: t =>
    if (b0 <? 128)%N then b0 :: utf8_decode t
    else if (b0 <? 224)%N then
      match t with
      | b1 :: t1 =>
        N.lor (N.shiftl (N.land b0 31) 6) (N.land b1 63) :: utf8_decode t1
      | _ => []
      end
    else if (b0 <? 240)%N then
      match t with
      | b1 :: b2 :: t2 =>
        N.lor (N.shiftl (N.land b0 15) 12)
          (N.lor (N.shiftl (N.land b1 63) 6) (N.land b2 63)) :: utf8_decode t2
      | _ => []
      end
    else
      match t with
      | b1 :: b2 :: b3 :: t3 =>
        N.lor (N.shiftl (N.land b0 7) 18)
          (N.lor (N.shiftl (N.land b1 63) 12)
             (N.lor (N.shiftl (N.land b2 63) 6) (N.land b3 63))) :: utf8_decode t3
      | _ => []
      end
  end.

Definition of_literal (s : string) : str := utf8_decode (bytes_of_string s).

(** [u "text"] is the Python literal ["text"], as its code points. *)
Notation "'u' s" :=
  (ltac:(let v := eval vm_compute in (of_literal s) in exact v))
  (at level 1, s at level 0, only parsing).

Fixpoint str_eqb (a b : str) : bool :=
  match a, b with
  | [], [] => true
  | c :: a', d :: b' => (c =? d)%N && str_eqb a' b'
  | _, _ => false
  end.

(** [s.startswith(p)] *)
Fixpoint startswith (s p : str) {struct p} : bool :=
  match p with
  | [] => true
  | c :: p' =>
    match s with
    | [] => false
    | d :: s' => (c =? d)%N && startswith s' p'
    end
  end.

(** [s.endswith(p)] *)
Definition endswith (s p : str) : bool := startswith (rev s) (rev p).

(** [x in s] for strings: [x] occurs in [s] as a contiguous run. *)
Fixpoint contains (s x : str) : bool :=
  startswith s x ||
  match s with
  | [] => false
  | _ :: t => contains t x
  end.

(** Slices [s[:n]], [s[n:]] and [s[:-n]]. *)
Definition slice_to (n : nat) (s : str) : str := firstn n s.
Definition slice_from (n : nat) (s : str) : str := skipn n s.
Definition slice_drop_last (n : nat) (s : str) : str := firstn (length s - n) s.

(** The code points [str.isspace] accepts; [strip()] and [split()] with no
    argument work on exactly these. *)
Definition isspace (c : char) : bool :=
  ((9 <=? c) && (c <=? 13) || (28 <=? c) && (c <=? 32) || (c =? 133) || (c =? 160)
   || (c =? 5760) || (8192 <=? c) && (c <=? 8202) || (c =? 8232) || (c =? 8233)
   || (c =? 8239) || (c =? 8287) || (c =? 12288))%N.

Fixpoint lstrip (s : str) : str :=
  match s with
  | c :: t => if isspace c then lstrip t else s
  | [] => []
  end.

Definition rstrip (s : str) : str := rev (lstrip (rev s)).

(** [s.strip()] *)
Definition strip (s : str) : str := rstrip (lstrip s).

(** [s.split()]: the maximal runs of non-space characters, in order.
    [cur] holds the run being read, reversed. *)
Fixpoint split_go (cur : str) (s : str) : list str :=
  match s with
  | [] => match cur with [] => [] | _ => [rev cur] end
  | c :: t =>
    if isspace c
    then match cur with [] => split_go [] t | _ => rev cur :: split_go [] t end
    else split_go (c :: cur) t
  end.

Definition split (s : str) : list str := split_go [] s.

(** [s.replace(c, '')] for a one-character [c]. *)
Definition remove_char (c : char) (s : str) : str :=
  filter (fun d => negb (d =? c)%N) s.

Definition is_ascii (c : char) : bool := (c <? 128)%N.

Definition ascii_lower (c : char) : char :=
  if ((65 <=? c) && (c <=? 90))%N then (c + 32)%N else c.

Definition ascii_isalnum (c : char) : bool :=
  ((48 <=? c) && (c <=? 57) || (65 <=? c) && (c <=? 90) || (97 <=? c) && (c <=? 122))%N.

(** [str(n)] for an [int]. *)
Definition str_of_Z (z : Z) : str := of_literal (NilZero.string_of_int (Z.to_int z)).
Definition str_of_nat (n : nat) : str := str_of_Z (Z.of_nat n).

(** An optional string that passes [if x:]: neither [None] nor empty. *)
Definition given (o : option str) : option str :=
  match o with
  | Some (_ :: _) => o
  | _ => None
  end.

(** Exceptions: the class and [str(e)]. The classes are those the code
    names or meets; [OtherException] is any other class derived from
    [Exception] and from none of them, [Subclass] a class derived from
    one of these classes, and [BaseOnly] a class derived from
    [BaseException] and not from [Exception], such as
    [KeyboardInterrupt], [SystemExit] and [GeneratorExit]. *)
Inductive exn_class :=
| ValueError | ImportError | AttributeError | TypeError | KeyError | IndexError
| JSONDecodeError
| ModuleNotFoundError | RecursionError
| OtherException (name : str)
| Subclass (name : str) (parent : exn_class)
| BaseOnly (name : str).

(** [issubclass(c, Exception)] and [issubclass(c, ImportError)] *)
Fixpoint is_exception (c : exn_class) : bool :=
  match c with
  | BaseOnly _ => false
  | Subclass _ parent => is_exception parent
  | _ => true
  end.

Fixpoint is_import_error (c : exn_class) : bool :=
  match c with
  | ImportError | ModuleNotFoundError => true
  | Subclass _ parent => is_import_error parent
  | _ => false
  end.

Record exn := Exn { exn_cls : exn_class; exn_msg : str }.

(** The outcome of a call. *)
Inductive result (A : Type) :=
| Ok (a : A)
| Raise (e : exn).
Arguments Ok {A} a.
Arguments Raise {A} e.

Definition bind {A B} (r : result A) (k : A -> result B) : result B :=
  match r with
  | Ok a => k a
  | Raise e => Raise e
  end.

(** [try: r  except Exception as e: h e]: an exception that is no
    [Exception] is not caught. *)
Definition try_except {A} (r : result A) (h : exn -> result A) : result A :=
  match r with
  | Ok a => Ok a
  | Raise e => if is_exception (exn_cls e) then h e else Raise e
  end.

Definition raises {A} (r : result A) : bool :=
  match r with Ok _ => false | Raise _ => true end.

(** A call fails when it raises an [Exception]. *)
Definition fails {A} (r : result A) : bool :=
  match r with Ok _ => false | Raise e => is_exception (exn_cls e) end.

(** Python values as JSON-shaped data: what [json.loads] builds and what
    the tool envelopes hold. A float is kept as the literal it was read
    from. A [dict] keeps its keys in insertion order. *)
Inductive value :=
| VNone
| VBool (b : bool)
| VInt (z : Z)
| VFloat (literal : str)
| VStr (s : str)
| VList (l : list value)
| VDict (d : list (str * value)).

Definition dict := list (str * value).

(** [d.get(k)] as an option; [d[k] = v] keeps the place of a key already
    there and appends a new one. *)
Fixpoint dict_lookup (k : str) (d : dict) : option value :=
  match d with
  | [] => None
  | (k', v) :: t => if str_eqb k k' then Some v else dict_lookup k t
  end.

Fixpoint dict_set (k : str) (v : value) (d : dict) : dict :=
  match d with
  | [] => [(k, v)]
  | (k', v') :: t => if str_eqb k k' then (k, v) :: t else (k', v') :: dict_set k v t
  end.

(** [dict(pairs)] *)
Definition dict_of_pairs (ps : list (str * value)) : dict :=
  fold_left (fun d kv => dict_set (fst kv) (snd kv) d) ps [].

(** [d.get(k, default)] *)
Definition dict_get (k : str) (default : value) (d : dict) : value :=
  match dict_lookup k d with
  | Some v => v
  | None => default
  end.

(** What is taken from the interpreter as given: the Unicode case and
    category tables beyond ASCII, the floating-point reading of a float
    literal (its truth value, and its [str], together with the [str] of
    a container), and its limits: how many arrays and objects, one in
    the other, the JSON decoder can enter before the recursion limit is
    reached, and the longest integer literal [int] converts
    ([sys.get_int_max_str_digits()], [None] for no limit). *)
Record runtime := Runtime {
  unicode_lower : str -> str;
  unicode_isalnum : char -> bool;
  float_truthy : str -> bool;
  str_of_other : value -> str;
  json_depth : nat;
  int_max_str_digits : option nat
}.

(** [s.lower()]: on an all-ASCII string, A-Z go to a-z. *)
Definition lower (rt : runtime) (s : str) : str :=
  if forallb is_ascii s then map ascii_lower s else unicode_lower rt s.

(** [s.isalnum()]: non-empty and every character a letter or a digit. *)
Definition isalnum (rt : runtime) (s : str) : bool :=
  match s with
  | [] => false
  | _ => forallb (fun c => if is_ascii c then ascii_isalnum c else unicode_isalnum rt c) s
  end.

(** Truth value of an object in a condition. *)
Definition truthy (rt : runtime) (v : value) : bool :=
  match v with
  | VNone => false
  | VBool b => b
  | VInt z => negb (z =? 0)%Z
  | VFloat lit => float_truthy rt lit
  | VStr s => match s with [] => false | _ => true end
  | VList l => match l with [] => false | _ => true end
  | VDict d => match d with [] => false | _ => true end
  end.

Definition type_name (v : value) : str :=
  match v with
  | VNone => u "NoneType"
  | VBool _ => u "bool"
  | VInt _ => u "int"
  | VFloat _ => u "float"
  | VStr _ => u "str"
  | VList _ => u "list"
  | VDict _ => u "dict"
  end.

(** [str(v)] *)
Definition py_str (rt : runtime) (v : value) : str :=
  match v with
  | VNone => u "None"
  | VBool true => u "True"
  | VBool false => u "False"
  | VInt z => str_of_Z z
  | VStr s => s
  | _ => str_of_other rt v
  end.

(** The message of the [AttributeError] raised by [v.attr] when the type
    of [v] has no such attribute. *)
Definition no_attribute (v : value) (attr : str) : exn :=
  Exn AttributeError
    (u "'" ++ type_name v ++ u "' object has no attribute '" ++ attr ++ u "'").

(** A runtime to evaluate closed examples with: every example below is
    ASCII text without floats, so none of its tables is ever consulted;
    its limits are those of an interpreter as it starts. *)
Definition ascii_runtime : runtime :=
  Runtime (fun s => s) (fun _ => false) (fun _ => true) (fun _ => []) 1000 (Some 4300).

End Py.

(* ===================================================================== *)
(** ** The [json] decoder the generation adapter calls                     *)
(* ===================================================================== *)

(** [json.loads] on a [str], after the standard library's decoder
    ([json.decoder] and the C scanner it uses by default: four hex
    digits after [\u], ASCII digits in a number): loops run on a fuel
    that twice the length of the text always covers. The decoder ends in one
    of three ways: with the value, with [json.JSONDecodeError] on a text
    that is no JSON, or with another exception where the text meets a
    limit of the interpreter: [RecursionError] on entering an array or
    an object nested deeper than the recursion limit allows, and the
    [ValueError] of [int] on an integer literal longer than
    [int_max_str_digits]. *)
Module Json.
Import Py.

(** [WHITESPACE]: space, tab, line feed, carriage return. *)
Definition is_ws (c : char) : bool :=
  ((c =? 32) || (c =? 9) || (c =? 10) || (c =? 13))%N.

Fixpoint skip_ws (s : str) : str :=
  match s with
  | c :: t => if is_ws c then skip_ws t else s
  | [] => []
  end.

Definition is_digit (c : char) : bool := ((48 <=? c) && (c <=? 57))%N.

Definition hex_value (c : char) : option N :=
  if is_digit c then Some (c - 48)%N
  else if ((97 <=? c) && (c <=? 102))%N then Some (c - 87)%N
  else if ((65 <=? c) && (c <=? 70))%N then Some (c - 55)%N
  else None.

(** [_decode_uXXXX]: the four hex digits after [\u]. *)
Definition decode_uXXXX (s : str) : option (N * str) :=
  match s with
  | a :: b :: c :: d :: rest =>
    match hex_value a, hex_value b, hex_value c, hex_value d with
    | Some x, Some y, Some z, Some w => Some ((((x * 16 + y) * 16 + z) * 16 + w)%N, rest)
    | _, _, _, _ => None
    end
  | _ => None
  end.

(** The table [BACKSLASH] of one-letter escapes. *)
Definition BACKSLASH (esc : char) : option char :=
  if (esc =? 34)%N then Some 34%N
  else if (esc =? 92)%N then Some 92%N
  else if (esc =? 47)%N then Some 47%N
  else if (esc =? 98)%N then Some 8%N
  else if (esc =? 102)%N then Some 12%N
  else if (esc =? 110)%N then Some 10%N
  else if (esc =? 114)%N then Some 13%N
  else if (esc =? 116)%N then Some 9%N
  else None.

Definition add_char (c : char) (r : option (str * str)) : option (str * str) :=
  match r with
  | Some (k, rest) => Some (c :: k, rest)
  | None => None
  end.

(** [scanstring], strict: [s] starts right after the opening quote; the
    result is the decoded text and what follows the closing quote. *)
Fixpoint scanstring (fuel : nat) (s : str) : option (str * str) :=
  match fuel with
  | O => None
  | S f =>
    match s with
    | [] => None
    | c :: t =>
      if (c =? 34)%N then Some ([], t)
      else if (c =? 92)%N then
        match t with
        | [] => None
        | esc :: t1 =>
          if (esc =? 117)%N then
            match decode_uXXXX t1 with
            | None => None
            | Some (uni, t2) =>
              if ((55296 <=? uni) && (uni <=? 56319) && startswith t2 [92; 117])%N then
                match decode_uXXXX (skipn 2 t2) with
                | None => None
                | Some (uni2, t3) =>
                  if ((56320 <=? uni2) && (uni2 <=? 57343))%N
                  then add_char (65536 + N.lor (N.shiftl (uni - 55296) 10) (uni2 - 56320))%N
                         (scanstring f t3)
                  else add_char uni (scanstring f t2)
                end
              else add_char uni (scanstring f t2)
            end
          else
            match BACKSLASH esc with
            | Some ch => add_char ch (scanstring f t1)
            | None => None
            end
        end
      else if (c <? 32)%N then None
      else add_char c (scanstring f t)
    end
  end.

(** Numbers: [NUMBER_RE], group by group. *)
Fixpoint span_digits (s : str) : str * str :=
  match s with
  | c :: t =>
    if is_digit c then let (ds, r) := span_digits t in (c :: ds, r) else ([], s)
  | [] => ([], [])
  end.

(** The integer part: an optional minus, then 0 or a digit 1-9 and any
    digits. *)
Definition match_integer (s : str) : option (str * str) :=
  let (sign, s1) :=
    match s with
    | c :: t => if (c =? 45)%N then ([c], t) else ([], s)
    | [] => ([], s)
    end in
  match s1 with
  | c :: t =>
    if (c =? 48)%N then Some (sign ++ [c], t)
    else if is_digit c then let (ds, r) := span_digits t in Some (sign ++ c :: ds, r)
    else None
  | [] => None
  end.

(** The optional fraction: a dot and at least one digit. *)
Definition match_frac (s : str) : str * str :=
  match s with
  | c :: t =>
    if (c =? 46)%N then
      match span_digits t with
      | ([], _) => ([], s)
      | (ds, r) => (c :: ds, r)
      end
    else ([], s)
  | [] => ([], s)
  end.

(** The optional exponent: e or E, an optional sign, at least one digit. *)
Definition match_exp (s : str) : str * str :=
  match s with
  | e :: t =>
    if ((e =? 101) || (e =? 69))%N then
      let (sign, t1) :=
        match t with
        | c :: t' => if ((c =? 45) || (c =? 43))%N then ([c], t') else ([], t)
        | [] => ([], t)
        end in
      match span_digits t1 with
      | ([], _) => ([], s)
      | (ds, r) => (e :: sign ++ ds, r)
      end
    else ([], s)
  | [] => ([], s)
  end.

(** [int(literal)] for a literal matched by [match_integer]. *)
Definition digits_value (ds : str) : Z :=
  fold_left (fun acc c => (acc * 10 + (Z.of_N c - 48))%Z) ds 0%Z.

Definition int_of_literal (lit : str) : Z :=
  match lit with
  | c :: t => if (c =? 45)%N then (- digits_value t)%Z else digits_value lit
  | [] => 0%Z
  end.

Definition match_number (s : str) : option (value * str) :=
  match match_integer s with
  | None => None
  | Some (integer, r1) =>
    let (frac, r2) := match_frac r1 in
    let (exp, r3) := match_exp r2 in
    match frac, exp with
    | [], [] => Some (VInt (int_of_literal integer), r3)
    | _, _ => Some (VFloat (integer ++ frac ++ exp), r3)
    end
  end.

(** A constant spelled [word] at the head of [s]. *)
Definition literal (word : str) (v : value) (s : str) : option (value * str) :=
  if startswith s word then Some (v, skipn (length word) s) else None.

Definition first_of {A} (a b : option A) : option A :=
  match a with
  | Some _ => a
  | None => b
  end.

(** The three ways the decoder ends; the message of a
    [JSONDecodeError], which [generate_json] only logs, is left out. *)
Inductive parse (A : Type) :=
| Parsed (a : A)
| Malformed
| Failed (e : exn).
Arguments Parsed {A} a.
Arguments Malformed {A}.
Arguments Failed {A} e.

Definition of_option {A} (o : option A) : parse A :=
  match o with
  | Some a => Parsed a
  | None => Malformed
  end.

(** What [Py_EnterRecursiveCall] raises in the scanner, for an
    ["object"] and for an ["array"]. *)
Definition recursion_error (kind : str) : exn :=
  Exn RecursionError
    (u "maximum recursion depth exceeded while decoding a JSON " ++ kind
     ++ u " from a unicode string").

(** The number of digits of an integer literal of JSON, which has no
    leading zero: those of the decimal writing of its absolute value. *)
Definition int_digits (z : Z) : nat := length (str_of_Z (Z.abs z)).

(** What [int] raises on a literal of [digits] digits over the limit. *)
Definition digits_error (limit digits : nat) : exn :=
  Exn ValueError
    (u "Exceeds the limit (" ++ str_of_nat limit
     ++ u " digits) for integer string conversion: value has " ++ str_of_nat digits
     ++ u " digits; use sys.set_int_max_str_digits() to increase the limit").

(** A number, once matched, is converted: an integer by [int]. *)
Definition converted (rt : runtime) (x : value * str) : parse (value * str) :=
  match fst x, int_max_str_digits rt with
  | VInt z, Some limit =>
    if limit <? int_digits z then Failed (digits_error limit (int_digits z)) else Parsed x
  | _, _ => Parsed x
  end.

(** [scan_once], with the loops of [JSONArray] ([array_items], from the
    first item on) and [JSONObject] ([object_members], from right after
    the opening quote of a key on). [depth] counts the arrays and
    objects that can still be entered. *)
Fixpoint scan_once (rt : runtime) (fuel depth : nat) (s : str) : parse (value * str) :=
  match fuel with
  | O => Malformed
  | S f =>
    match s with
    | [] => Malformed
    | c :: t =>
      if (c =? 34)%N then
        match scanstring f t with
        | Some (k, r) => Parsed (VStr k, r)
        | None => Malformed
        end
      else if (c =? 123)%N then
        match depth with
        | O => Failed (recursion_error (u "object"))
        | S deeper =>
          match skip_ws t with
          | d :: t1 =>
            if (d =? 125)%N then Parsed (VDict [], t1)
            else if (d =? 34)%N then
              match object_members rt f deeper t1 with
              | Parsed (pairs, r) => Parsed (VDict (dict_of_pairs pairs), r)
              | Malformed => Malformed
              | Failed e => Failed e
              end
            else Malformed
          | [] => Malformed
          end
        end
      else if (c =? 91)%N then
        match depth with
        | O => Failed (recursion_error (u "array"))
        | S deeper =>
          match skip_ws t with
          | d :: t1 =>
            if (d =? 93)%N then Parsed (VList [], t1)
            else
              match array_items rt f deeper (d :: t1) with
              | Parsed (values, r) => Parsed (VList values, r)
              | Malformed => Malformed
              | Failed e => Failed e
              end
          | [] => Malformed
          end
        end
      else
        match first_of (literal (u "null") VNone s)
             (first_of (literal (u "true") (VBool true) s)
                       (literal (u "false") (VBool false) s)) with
        | Some constant => Parsed constant
        | None =>
          match match_number s with
          | Some number => converted rt number
          | None =>
            of_option
              (first_of (literal (u "NaN") (VFloat (u "NaN")) s)
              (first_of (literal (u "Infinity") (VFloat (u "Infinity")) s)
                        (literal (u "-Infinity") (VFloat (u "-Infinity")) s)))
          end
        end
    end
  end

with array_items (rt : runtime) (fuel depth : nat) (s : str) : parse (list value * str) :=
  match fuel with
  | O => Malformed
  | S f =>
    match scan_once rt f depth s with
    | Malformed => Malformed
    | Failed e => Failed e
    | Parsed (v, r) =>
      match skip_ws r with
      | d :: r1 =>
        if (d =? 93)%N then Parsed ([v], r1)
        else if (d =? 44)%N then
          match array_items rt f depth (skip_ws r1) with
          | Parsed (values, r2) => Parsed (v :: values, r2)
          | Malformed => Malformed
          | Failed e => Failed e
          end
        else Malformed
      | [] => Malformed
      end
    end
  end

with object_members (rt : runtime) (fuel depth : nat) (s : str)
  : parse (list (str * value) * str) :=
  match fuel with
  | O => Malformed
  | S f =>
    match scanstring f s with
    | None => Malformed
    | Some (key, r) =>
      match skip_ws r with
      | colon :: r1 =>
        if (colon =? 58)%N then
          match scan_once rt f depth (skip_ws r1) with
          | Malformed => Malformed
          | Failed e => Failed e
          | Parsed (v, r2) =>
            match skip_ws r2 with
            | d :: r3 =>
              if (d =? 125)%N then Parsed ([(key, v)], r3)
              else if (d =? 44)%N then
                match skip_ws r3 with
                | q :: r4 =>
                  if (q =? 34)%N then
                    match object_members rt f depth r4 with
                    | Parsed (pairs, r5) => Parsed ((key, v) :: pairs, r5)
                    | Malformed => Malformed
                    | Failed e => Failed e
                    end
                  else Malformed
                | [] => Malformed
                end
              else Malformed
            | [] => Malformed
            end
          end
        else Malformed
      | [] => Malformed
      end
    end
  end.

(** [json.loads(s)]: one value between optional whitespace, and nothing
    else. Entering an array or an object takes two units of fuel, and
    every other step takes one and reads a character at least. *)
Definition loads (rt : runtime) (s : str) : parse value :=
  let s1 := skip_ws s in
  match scan_once rt (2 * length s1) (json_depth rt) s1 with
  | Parsed (v, r) => match skip_ws r with [] => Parsed v | _ :: _ => Malformed end
  | Malformed => Malformed
  | Failed e => Failed e
  end.


(** *** Notions used to state what the decoder accepts *)

(** A character a JSON text can start or end with, once whitespace is
    set aside: no space of any kind, no backtick, no letter j. *)
Definition edge (ch : char) : bool :=
  negb (isspace ch) && negb (ch =? 96)%N && negb (ch =? 106)%N.

(** What a scanner consumed stays what it consumes when the text after
    it is replaced, given enough fuel and a harmless first character
    after it. *)
Definition stable {A} (g : nat -> str -> option (A * str)) (follow : str -> Prop)
    (c : str) (out : A) : Prop :=
  forall f r, length c <= f -> follow r -> g f (c ++ r) = Some (out, r).

Definition steady {A} (g : nat -> str -> parse (A * str)) (follow : str -> Prop)
    (c : str) (out : A) : Prop :=
  forall f r, length c <= f -> follow r -> g f (c ++ r) = Parsed (out, r).

Definition anything (r : str) : Prop := True.


(** After a number: no digit, dot or exponent mark. *)
Definition number_follow (r : str) : Prop :=
  match r with
  | [] => True
  | x :: _ => is_digit x = false /\ x <> 46%N /\ x <> 101%N /\ x <> 69%N
  end.

(** After the integer part, after the fraction, after the exponent. *)
Definition no_digit (r : str) : Prop :=
  match r with [] => True | x :: _ => is_digit x = false end.

Definition frac_follow (r : str) : Prop :=
  match r with [] => True | x :: _ => is_digit x = false /\ x <> 46%N end.

Definition exp_follow (r : str) : Prop :=
  match r with [] => True | x :: _ => is_digit x = false /\ x <> 101%N /\ x <> 69%N end.

(** A matched group: empty, or starting with [h] and ending in a digit. *)
Definition group (first : char -> Prop) (lit : str) : Prop :=
  lit = [] \/ exists h m, lit = h :: m /\ first h /\ is_digit (last lit 0%N) = true.

(** A consumed value: not empty, with edge characters at both ends. *)
Definition value_ok (c : str) : Prop :=
  exists h m, c = h :: m /\ edge h = true /\ edge (last c 0%N) = true.

(** What each scanner guarantees with fuel [f]. *)
Definition scan_spec (rt : runtime) (f : nat) : Prop :=
  forall depth s v r, scan_once rt f depth s = Parsed (v, r) ->
  exists c, s = c ++ r /\ value_ok c /\
            steady (fun f => scan_once rt f depth) number_follow c v.

Definition items_spec (rt : runtime) (f : nat) : Prop :=
  forall depth s vs r, array_items rt f depth s = Parsed (vs, r) ->
  exists c, s = c ++ r /\ c <> [] /\ last c 0%N = 93%N /\
            steady (fun f => array_items rt f depth) anything c vs.

Definition members_spec (rt : runtime) (f : nat) : Prop :=
  forall depth s ps r, object_members rt f depth s = Parsed (ps, r) ->
  exists c, s = c ++ r /\ c <> [] /\ last c 0%N = 125%N /\
            steady (fun f => object_members rt f depth) anything c ps.

End Json.

(* ===================================================================== *)
(** ** utils/validators.py                                                *)
(* ===================================================================== *)

Module GoogleAdsValidator.
Import Py.

Definition HEADLINE_MAX_LENGTH : nat := 30.
Definition DESCRIPTION_MAX_LENGTH : nat := 90.
Definition PATH_MAX_LENGTH : nat := 15.

Definition validate_headline (headline : str) : bool * str :=
  match headline with
  | [] => (false, u "Заголовок не может быть пустым")
  | _ =>
    if HEADLINE_MAX_LENGTH <? length headline
    then (false, u "Заголовок слишком длинный: " ++ str_of_nat (length headline)
                 ++ u " символов (макс. " ++ str_of_nat HEADLINE_MAX_LENGTH ++ u ")")
    else (true, u "OK")
  end.

Definition validate_description (description : str) : bool * str :=
  match description with
  | [] => (false, u "Описание не может быть пустым")
  | _ =>
    if DESCRIPTION_MAX_LENGTH <? length description
    then (false, u "Описание слишком длинное: " ++ str_of_nat (length description)
                 ++ u " символов (макс. " ++ str_of_nat DESCRIPTION_MAX_LENGTH ++ u ")")
    else (true, u "OK")
  end.

Definition validate_path (rt : runtime) (path : str) : bool * str :=
  match path with
  | [] => (true, u "OK")
  | _ =>
    if PATH_MAX_LENGTH <? length path
    then (false, u "Путь слишком длинный: " ++ str_of_nat (length path)
                 ++ u " символов (макс. " ++ str_of_nat PATH_MAX_LENGTH ++ u ")")
    else if negb (isalnum rt (remove_char 95%N (remove_char 45%N path)))
    then (false, u "Путь может содержать только буквы, цифры, дефисы и подчеркивания")
    else (true, u "OK")
  end.

(** One step of [validate_ad]: [errors.append(label + msg)] when the
    check did not pass. *)
Definition report (label : str) (check : bool * str) : list str :=
  if fst check then [] else [label ++ snd check].

Definition validate_ad (rt : runtime) (headline description path1 path2 : str) : list str :=
  report (u "Заголовок: ") (validate_headline headline)
  ++ report (u "Описание: ") (validate_description description)
  ++ (match path1 with
      | [] => []
      | _ => report (u "Путь 1: ") (validate_path rt path1)
      end)
  ++ (match path2 with
      | [] => []
      | _ => report (u "Путь 2: ") (validate_path rt path2)
      end).

Definition truncate_headline (headline : str) : str :=
  if length headline <=? HEADLINE_MAX_LENGTH then headline
  else slice_to (HEADLINE_MAX_LENGTH - 3) headline ++ u "...".

Definition truncate_description (description : str) : str :=
  if length description <=? DESCRIPTION_MAX_LENGTH then description
  else slice_to (DESCRIPTION_MAX_LENGTH - 3) description ++ u "...".

(** Truncation to a limit [n >= 3]: the shape both functions share. *)
Definition truncate_to (n : nat) (s : str) : str :=
  if length s <=? n then s else slice_to (n - 3) s ++ u "...".

(** The characters a path may hold, and those among them that are only
    separators. *)
Definition path_char (c : char) : bool :=
  ascii_isalnum c || (c =? 45)%N || (c =? 95)%N.

Definition separator (c : char) : bool := ((c =? 45) || (c =? 95))%N.

End GoogleAdsValidator.

(* ===================================================================== *)
(** ** config.py                                                          *)
(* ===================================================================== *)

Module Config.
Import Py.

(** [Literal["openai", "anthropic", "google", "ollama", "groq"]] *)
Inductive provider_tag := openai | anthropic | google | ollama | groq.

Definition provider_name (p : provider_tag) : str :=
  match p with
  | openai => u "openai"
  | anthropic => u "anthropic"
  | google => u "google"
  | ollama => u "ollama"
  | groq => u "groq"
  end.

(** The fields of [Settings] the generation adapter reads. *)
Record Settings := {
  openai_api_key : str;
  anthropic_api_key : str;
  google_api_key : str;
  groq_api_key : str;
  ai_provider : provider_tag;
  ai_model : str
}.

(** [Settings()] with nothing set in the environment. *)
Definition default_settings : Settings :=
  {| openai_api_key := [];
     anthropic_api_key := [];
     google_api_key := [];
     groq_api_key := [];
     ai_provider := google;
     ai_model := u "gemini-2.0-flash" |}.

End Config.

(* ===================================================================== *)
(** ** fab/fab_methodology.py                                             *)
(* ===================================================================== *)

Module FABMethodology.
Import Py.

Definition create_keyword_generation_prompt (rt : runtime) (fab_analysis : dict) : str :=
  u "
Based on the FAB analysis of the product/service, generate keywords for Google Ads.

**Product data:**
Name: "
  ++ py_str rt (dict_get (u "product_name") (VStr []) fab_analysis)
  ++ u "
Target audience: "
  ++ py_str rt (dict_get (u "target_audience") (VStr []) fab_analysis)
  ++ u "
Unique value proposition: "
  ++ py_str rt (dict_get (u "unique_value_proposition") (VStr []) fab_analysis)
  ++ u "

**FAB statements:**
"
  ++ py_str rt (dict_get (u "fab_statements") (VList []) fab_analysis)
  ++ u "

**Requirements:**
1. Create keywords for 4 match types:
   - Broad match
   - Phrase match  
   - Exact match
   - Modified broad match

2. Include:
   - Informational queries (how, what, why)
   - Transactional queries (buy, order, price)
   - Brand queries
   - Competitor queries (if applicable)
   - Long-tail keywords

3. For each keyword specify:
   - Match type
   - Approximate search volume (high/medium/low)
   - Commercial intent (high/medium/low)

IMPORTANT: Generate keywords in the same language as the website content. If the website is in Ukrainian, generate Ukrainian keywords. If in English, generate English keywords. If in Russian, generate Russian keywords.

Return result in JSON format:
{
    " ++ [34%N] ++ u "keywords" ++ [34%N] ++ u ": [
        {
            " ++ [34%N] ++ u "keyword" ++ [34%N] ++ u ": " ++ [34%N] ++ u "keyword" ++ [34%N] ++ u ",
            " ++ [34%N] ++ u "match_type" ++ [34%N] ++ u ": " ++ [34%N] ++ u "broad|phrase|exact|modified_broad" ++ [34%N] ++ u ",
            " ++ [34%N] ++ u "search_volume" ++ [34%N] ++ u ": " ++ [34%N] ++ u "high|medium|low" ++ [34%N] ++ u ",
            " ++ [34%N] ++ u "commercial_intent" ++ [34%N] ++ u ": " ++ [34%N] ++ u "high|medium|low" ++ [34%N] ++ u ",
            " ++ [34%N] ++ u "category" ++ [34%N] ++ u ": " ++ [34%N] ++ u "informational|transactional|navigational" ++ [34%N] ++ u "
        }
    ]
}
".

End FABMethodology.

(* ===================================================================== *)
(** ** ai/ai_generator.py                                                 *)
(* ===================================================================== *)

Module AIGenerator.
Import Py Config.

Definition dq : str := [34%N].
Definition nl : str := [10%N].

Record message := { role : str; content : str }.

(** The provider SDKs, as the adapter calls them. A float argument is
    passed as its literal. Each call returns the reply text or raises. *)

(** [client.chat.completions.create(model, messages, temperature,
    response_format)] followed by [.choices[0].message.content]; the
    flag says whether [response_format] asks for a JSON object. *)
Definition chat_completions := str -> list message -> str -> bool -> result str.

(** [client.messages.create(model, max_tokens, temperature, messages,
    system)] followed by [.content[0].text]. *)
Definition anthropic_messages :=
  str -> Z -> str -> list message -> option str -> result str.

Record generation_config := {
  temperature : str;
  top_p : str;
  top_k : Z;
  max_output_tokens : Z
}.

(** A Gemini reply: its [text], a property whose reading can raise, and
    for each candidate the texts of the parts of its content, if it has
    a content. *)
Record gemini_response := {
  text : result str;
  candidates : list (option (list str))
}.

(** [model.generate_content(prompt, generation_config)] *)
Definition generative_model := str -> option generation_config -> result gemini_response.

(** The module [google.generativeai], by its [GenerativeModel(model_name)]. *)
Definition genai_module := str -> result generative_model.

(** [ollama.chat(model, messages, options)] followed by
    [['message']['content']]; the option is the temperature. *)
Definition ollama_chat := str -> list message -> str -> result str.

Inductive sdk_client :=
| OpenAIClient (create : chat_completions)
| AnthropicClient (create : anthropic_messages)
| GenaiModule (GenerativeModel : genai_module)
| OllamaModule (chat : ollama_chat)
| GroqClient (create : chat_completions).

(** The installed packages: whether each imports, and what its client
    constructor does with an API key. *)
Record sdk := {
  importable : provider_tag -> bool;
  OpenAI : str -> result chat_completions;
  Anthropic : str -> result anthropic_messages;
  genai_configure : str -> result unit;
  genai : genai_module;
  ollama_module : ollama_chat;
  Groq : str -> result chat_completions
}.

(** The state [__init__] leaves in [self]. The selected branch and the
    kind of [client] always agree, so [generate] dispatches on [client]. *)
Record t := {
  provider : str;
  model : str;
  client : sdk_client
}.

(** [try: import; build the client  except ImportError: raise
    ImportError(hint)]: a failed import, and an [ImportError] out of the
    constructor, of a subclass such as [ModuleNotFoundError] as well,
    are replaced by the hint; any other exception passes. *)
Definition importing (env : sdk) (p : provider_tag) (hint : str) (build : result sdk_client)
  : result sdk_client :=
  if importable env p then
    match build with
    | Ok c => Ok c
    | Raise e => if is_import_error (exn_cls e) then Raise (Exn ImportError hint) else Raise e
    end
  else Raise (Exn ImportError hint).

Definition __init__ (env : sdk) (settings : Settings)
    (provider' model' : option str) : result t :=
  let provider_ :=
    match given provider' with
    | Some p => p
    | None => provider_name (ai_provider settings)
    end in
  let model_ :=
    match given model' with
    | Some m => m
    | None => ai_model settings
    end in
  let built (c : result sdk_client) : result t :=
    bind c (fun c => Ok {| provider := provider_; model := model_; client := c |}) in
  if str_eqb provider_ (u "openai") then
    built (importing env openai (u "Установите openai: pip install openai")
             (bind (OpenAI env (openai_api_key settings)) (fun c => Ok (OpenAIClient c))))
  else if str_eqb provider_ (u "anthropic") then
    built (importing env anthropic (u "Установите anthropic: pip install anthropic")
             (bind (Anthropic env (anthropic_api_key settings))
                (fun c => Ok (AnthropicClient c))))
  else if str_eqb provider_ (u "google") then
    built (importing env google
             (u "Установите google-generativeai: pip install google-generativeai")
             (bind (genai_configure env (google_api_key settings))
                (fun _ => Ok (GenaiModule (genai env)))))
  else if str_eqb provider_ (u "ollama") then
    built (importing env ollama (u "Установите ollama: pip install ollama")
             (Ok (OllamaModule (ollama_module env))))
  else if str_eqb provider_ (u "groq") then
    built (importing env groq (u "Установите groq: pip install groq")
             (bind (Groq env (groq_api_key settings)) (fun c => Ok (GroqClient c))))
  else Raise (Exn ValueError (u "Неизвестный провайдер: " ++ provider_)).

(** [[system message if system_prompt] + [user message]] *)
Definition chat_messages (prompt : str) (system_prompt : option str) : list message :=
  match given system_prompt with
  | Some sp => [{| role := u "system"; content := sp |}]
  | None => []
  end ++ [{| role := u "user"; content := prompt |}].

Definition _generate_openai (create : chat_completions) (model : str)
    (prompt : str) (system_prompt : option str) (temperature : str) (json_mode : bool)
  : result str :=
  create model (chat_messages prompt system_prompt) temperature json_mode.

Definition _generate_anthropic (create : anthropic_messages) (model : str)
    (prompt : str) (system_prompt : option str) (temperature : str) (json_mode : bool)
  : result str :=
  create model 4096%Z temperature [{| role := u "user"; content := prompt |}]
    (given system_prompt).

Definition no_response : str := u "No response generated".

Definition _generate_google (rt : runtime) (GenerativeModel : genai_module) (model : str)
    (prompt : str) (system_prompt : option str) (temperature : str) (json_mode : bool)
  : result str :=
  let model_name :=
    if contains (lower rt model) (u "flash") then u "gemini-2.0-flash"
    else if contains (lower rt model) (u "pro") then u "gemini-2.5-pro"
    else u "gemini-2.0-flash" in
  bind (GenerativeModel model_name) (fun model =>
  let full_prompt :=
    match given system_prompt with
    | Some sp => sp ++ nl ++ nl ++ prompt
    | None => prompt
    end in
  let full_prompt :=
    if json_mode
    then full_prompt ++ nl ++ nl
         ++ u "Важно: Ответь ТОЛЬКО в формате JSON, без дополнительного текста."
    else full_prompt in
  try_except
    (bind (model full_prompt
             (Some {| temperature := temperature; top_p := u "0.95"; top_k := 40%Z;
                      max_output_tokens := 8192%Z |}))
       (fun response =>
        bind (text response) (fun text =>
          match text with
          | _ :: _ => Ok text
          | [] =>
            match candidates response with
            | Some parts :: _ => Ok (match parts with p :: _ => p | [] => [] end)
            | _ => Ok no_response
            end
          end)))
    (fun e =>
       try_except
         (bind (GenerativeModel (u "gemini-1.5-pro")) (fun model =>
          bind (model full_prompt None) (fun response =>
          bind (text response) (fun text =>
            Ok (match text with _ :: _ => text | [] => no_response end)))))
         (fun _ =>
            Raise (Exn (OtherException (u "Exception"))
                     (u "Google Gemini API error: " ++ exn_msg e))))).

Definition _generate_ollama (chat : ollama_chat) (model : str)
    (prompt : str) (system_prompt : option str) (temperature : str) (json_mode : bool)
  : result str :=
  chat model (chat_messages prompt system_prompt) temperature.

Definition _generate_groq (create : chat_completions) (model : str)
    (prompt : str) (system_prompt : option str) (temperature : str) (json_mode : bool)
  : result str :=
  create model (chat_messages prompt system_prompt) temperature json_mode.

(** [generate]: the error is logged and raised again unchanged. *)
Definition generate (rt : runtime) (self : t)
    (prompt : str) (system_prompt : option str) (temperature : str) (json_mode : bool)
  : result str :=
  match client self with
  | OpenAIClient create =>
    _generate_openai create (model self) prompt system_prompt temperature json_mode
  | AnthropicClient create =>
    _generate_anthropic create (model self) prompt system_prompt temperature json_mode
  | GenaiModule GenerativeModel =>
    _generate_google rt GenerativeModel (model self) prompt system_prompt temperature
      json_mode
  | OllamaModule chat =>
    _generate_ollama chat (model self) prompt system_prompt temperature json_mode
  | GroqClient create =>
    _generate_groq create (model self) prompt system_prompt temperature json_mode
  end.

(** The response as [generate_json] has it when parsing: stripped, then
    without a leading [```json], a leading [```] and a trailing [```]. *)
Definition strip_fences (response : str) : str :=
  let response := strip response in
  let response :=
    if startswith response (u "```json") then slice_from 7 response else response in
  let response :=
    if startswith response (u "```") then slice_from 3 response else response in
  if endswith response (u "```") then slice_drop_last 3 response else response.

(** The longest prefix of [t] that ends with a closing brace. *)
Fixpoint through_last_close (t : str) : option str :=
  match t with
  | [] => None
  | c :: t' =>
    match through_last_close t' with
    | Some p => Some (c :: p)
    | None => if (c =? 125)%N then Some [c] else None
    end
  end.

(** The pattern [\{.*\}] with [re.DOTALL] matched at the head of [s]:
    greedy, so as long as it can be. *)
Definition match_braces (s : str) : option str :=
  match s with
  | c :: t =>
    if (c =? 123)%N then
      match through_last_close t with
      | Some p => Some (c :: p)
      | None => None
      end
    else None
  | [] => None
  end.

(** [re.search(r'\{.*\}', s, re.DOTALL)]: the match at the leftmost
    position that has one; [.group()] of it. *)
Fixpoint search_braces (s : str) : option str :=
  match match_braces s with
  | Some m => Some m
  | None =>
    match s with
    | [] => None
    | _ :: t => search_braces t
    end
  end.

Definition unparsable (response : str) : exn :=
  Exn ValueError (u "Не удалось распарсить JSON из ответа: " ++ slice_to 200 response).

(** The parsing part of [generate_json], from the reply text on. The
    handler is for [json.JSONDecodeError]: what else the first
    [json.loads] raises leaves the function. The second [json.loads] is
    under a bare [except], which lets nothing through. *)
Definition extract_json (rt : runtime) (response : str) : result value :=
  let response := strip_fences response in
  match Json.loads rt (strip response) with
  | Json.Parsed v => Ok v
  | Json.Failed e => Raise e
  | Json.Malformed =>
    match search_braces response with
    | Some group =>
      match Json.loads rt group with
      | Json.Parsed v => Ok v
      | _ => Raise (unparsable response)
      end
    | None => Raise (unparsable response)
    end
  end.

Definition json_instruction : str :=
  nl ++ nl ++ u "Верни результат ТОЛЬКО в формате JSON, без дополнительного текста.".

(** The reply [generate_json] parses: asked for in JSON mode, and once
    more without it when that call raises. *)
Definition json_reply (rt : runtime) (self : t) (prompt : str) (system_prompt : option str)
  : result str :=
  let full_prompt := prompt ++ json_instruction in
  try_except
    (generate rt self full_prompt system_prompt (u "0.7") true)
    (fun _ => generate rt self full_prompt system_prompt (u "0.7") false).

Definition generate_json (rt : runtime) (self : t) (prompt : str) (system_prompt : option str)
  : result value :=
  bind (json_reply rt self prompt system_prompt) (extract_json rt).

Definition keyword_record (keyword match_type search_volume commercial_intent category : str)
  : value :=
  VDict [(u "keyword", VStr keyword);
         (u "match_type", VStr match_type);
         (u "search_volume", VStr search_volume);
         (u "commercial_intent", VStr commercial_intent);
         (u "category", VStr category)].

(** The record appended for one word of the product name. *)
Definition word_keyword (word : str) : value :=
  keyword_record word (u "broad") (u "medium") (u "high") (u "transactional").

Definition generic_keywords : list value :=
  [keyword_record (u "buy") (u "phrase") (u "high") (u "high") (u "transactional");
   keyword_record (u "price") (u "phrase") (u "high") (u "high") (u "transactional");
   keyword_record (u "order") (u "phrase") (u "medium") (u "high") (u "transactional");
   keyword_record (u "services") (u "broad") (u "high") (u "medium") (u "informational")].

(** The words of a product name that become keywords. *)
Definition product_words (rt : runtime) (product_name : str) : list str :=
  filter (fun word => 3 <? length word) (split (lower rt product_name)).

Definition _generate_fallback_keywords (rt : runtime) (fab_analysis : dict) : result value :=
  let product_name := dict_get (u "product_name") (VStr []) fab_analysis in
  bind
    (if truthy rt product_name then
       match product_name with
       | VStr name => Ok (map word_keyword (product_words rt name))
       | other => Raise (no_attribute other (u "lower"))
       end
     else Ok [])
    (fun keywords =>
       Ok (VDict [(u "keywords", VList (keywords ++ generic_keywords))])).

Definition keywords_system_prompt : str :=
  u "
You are an expert in SEO and Google Ads contextual advertising.
Your task is to generate high-quality keywords for advertising campaigns.
Consider commercial intent, relevance, and search volume.

IMPORTANT: Generate keywords in the same language as the website content. If the website is in Ukrainian, generate Ukrainian keywords. If in English, generate English keywords. If in Russian, generate Russian keywords.

Return result in JSON format:
{
    " ++ dq ++ u "keywords" ++ dq ++ u ": [
        {
            " ++ dq ++ u "keyword" ++ dq ++ u ": " ++ dq ++ u "keyword" ++ dq ++ u ",
            " ++ dq ++ u "match_type" ++ dq ++ u ": " ++ dq ++ u "broad|phrase|exact|modified_broad" ++ dq ++ u ",
            " ++ dq ++ u "search_volume" ++ dq ++ u ": " ++ dq ++ u "high|medium|low" ++ dq ++ u ",
            " ++ dq ++ u "commercial_intent" ++ dq ++ u ": " ++ dq ++ u "high|medium|low" ++ dq ++ u ",
            " ++ dq ++ u "category" ++ dq ++ u ": " ++ dq ++ u "informational|transactional|navigational" ++ dq ++ u "
        }
    ]
}
".

(** The prompt [generate_keywords] sends. *)
Definition keywords_prompt (rt : runtime) (fab_analysis : dict)
    (additional_context : option str) : str :=
  let prompt := FABMethodology.create_keyword_generation_prompt rt fab_analysis in
  match given additional_context with
  | Some context => prompt ++ nl ++ nl ++ u "**Дополнительный контекст:**" ++ nl ++ context
  | None => prompt
  end.

Definition generate_keywords (rt : runtime) (self : t) (fab_analysis : dict)
    (additional_context : option str) : result value :=
  let prompt := keywords_prompt rt fab_analysis additional_context in
  try_except
    (generate_json rt self prompt (Some keywords_system_prompt))
    (fun _ => _generate_fallback_keywords rt fab_analysis).

(** The product name of an analysis that follows the data model: text
    under ['product_name'], or no such key (then the default ['']). *)
Definition product_name_of (fab_analysis : dict) : option str :=
  match dict_lookup (u "product_name") fab_analysis with
  | None => Some []
  | Some (VStr name) => Some name
  | Some _ => None
  end.

(** Environments to run examples in. [permissive_sdk]: every package is
    installed and every constructor accepts whatever key it is given;
    its backends answer with an empty text. [unreachable]: a generator
    whose backend refuses every call. *)
Definition permissive_sdk : sdk :=
  {| importable := fun _ => true;
     OpenAI := fun _ => Ok (fun _ _ _ _ => Ok []);
     Anthropic := fun _ => Ok (fun _ _ _ _ _ => Ok []);
     genai_configure := fun _ => Ok tt;
     genai := fun _ => Ok (fun _ _ => Ok {| text := Ok []; candidates := [] |});
     ollama_module := fun _ _ _ => Ok [];
     Groq := fun _ => Ok (fun _ _ _ _ => Ok []) |}.

(** [permissive_sdk], but the Groq client misses a module of its own
    when it is constructed. *)
Definition missing_module : exn := Exn ModuleNotFoundError (u "No module named 'httpx'").

Definition broken_groq_sdk : sdk :=
  {| importable := fun _ => true;
     OpenAI := fun _ => Ok (fun _ _ _ _ => Ok []);
     Anthropic := fun _ => Ok (fun _ _ _ _ _ => Ok []);
     genai_configure := fun _ => Ok tt;
     genai := fun _ => Ok (fun _ _ => Ok {| text := Ok []; candidates := [] |});
     ollama_module := fun _ _ _ => Ok [];
     Groq := fun _ => Raise missing_module |}.

Definition connection_refused : exn :=
  Exn (OtherException (u "ConnectionError")) (u "connection refused").

Definition unreachable : t :=
  {| provider := u "ollama";
     model := u "llama3";
     client := OllamaModule (fun _ _ _ => Raise connection_refused) |}.

(** A generator whose backend always answers [reply]. *)
Definition answering (reply : str) : t :=
  {| provider := u "ollama";
     model := u "llama3";
     client := OllamaModule (fun _ _ _ => Ok reply) |}.

(** [s] with each apostrophe turned into a double quote: JSON examples
    are written with apostrophes. *)
Definition quoted (s : str) : str :=
  map (fun c => if (c =? 39)%N then 34%N else c) s.

Definition example_json : str :=
  quoted (u "{'keywords': [{'keyword': 'buy', 'rank': 1}, 2.5e3, true, null]}").

Definition example_value : value :=
  VDict [(u "keywords",
          VList [VDict [(u "keyword", VStr (u "buy")); (u "rank", VInt 1)];
                 VFloat (u "2.5e3"); VBool true; VNone])].



(** Every constructor of the SDK accepts every key. *)
Definition accepts_every_key (env : sdk) : Prop :=
  forall key,
    raises (OpenAI env key) = false /\ raises (Anthropic env key) = false /\
    raises (genai_configure env key) = false /\ raises (Groq env key) = false.

(** The text under ['keyword'] in a keyword record. *)
Definition keyword_of (record : value) : value :=
  match record with
  | VDict d => dict_get (u "keyword") VNone d
  | _ => VNone
  end.

Definition match_type_of (record : value) : value :=
  match record with
  | VDict d => dict_get (u "match_type") VNone d
  | _ => VNone
  end.


(** The provider a client belongs to. *)
Definition client_kind (c : sdk_client) : provider_tag :=
  match c with
  | OpenAIClient _ => openai
  | AnthropicClient _ => anthropic
  | GenaiModule _ => google
  | OllamaModule _ => ollama
  | GroqClient _ => groq
  end.

(** The parts of [_generate_google], by name: the model it asks for,
    the prompt it sends, the configuration of its first attempt. *)
Definition gemini_model_name (rt : runtime) (model : str) : str :=
  if contains (lower rt model) (u "flash") then u "gemini-2.0-flash"
  else if contains (lower rt model) (u "pro") then u "gemini-2.5-pro"
  else u "gemini-2.0-flash".

Definition gemini_full_prompt (prompt : str) (system_prompt : option str) (json_mode : bool)
  : str :=
  let full_prompt :=
    match given system_prompt with
    | Some sp => sp ++ nl ++ nl ++ prompt
    | None => prompt
    end in
  if json_mode
  then full_prompt ++ nl ++ nl
       ++ u "Важно: Ответь ТОЛЬКО в формате JSON, без дополнительного текста."
  else full_prompt.

Definition gemini_config (temperature : str) : generation_config :=
  {| temperature := temperature; top_p := u "0.95"; top_k := 40%Z;
     max_output_tokens := 8192%Z |}.

(** The models [_generate_google] can ask for. *)
Definition gemini_models : list str :=
  [u "gemini-2.0-flash"; u "gemini-2.5-pro"; u "gemini-1.5-pro"].

(** Gemini modules to run examples with: one that knows the three models
    above only, one that answers under any name, both with [reply];
    one whose models answer with no text and no candidate. *)
Definition gemini_answering (reply : str) : generative_model :=
  fun _ _ => Ok {| text := Ok reply; candidates := [] |}.

Definition strict_genai (reply : str) : genai_module :=
  fun name =>
    if existsb (str_eqb name) gemini_models then Ok (gemini_answering reply)
    else Raise (Exn (OtherException (u "NotFound")) (u "unknown model")).

Definition lenient_genai (reply : str) : genai_module :=
  fun _ => Ok (gemini_answering reply).

Definition silent_gemini : t :=
  {| provider := u "google";
     model := u "gemini-2.0-flash";
     client := GenaiModule (lenient_genai []) |}.

(** A Gemini module whose models fail with [first], except the model of
    the second attempt, which fails with [second]. *)
Definition failing_genai (first second : exn) : genai_module :=
  fun name =>
    Ok (fun _ _ => if str_eqb name (u "gemini-1.5-pro") then Raise second else Raise first).

End AIGenerator.

(* ===================================================================== *)
(** ** google_ads/ads_queries.py                                          *)
(* ===================================================================== *)

Module GoogleAdsQueries.
Import Py.

Definition get_campaigns_overview (date_range : str) (status_filter : option str) : str :=
  u "
            SELECT
                campaign.id,
                campaign.name,
                campaign.status,
                campaign.advertising_channel_type,
                campaign.bidding_strategy_type,
                metrics.impressions,
                metrics.clicks,
                metrics.ctr,
                metrics.average_cpc,
                metrics.cost_micros,
                metrics.conversions,
                metrics.cost_per_conversion
            FROM campaign
            WHERE segments.date DURING " ++ date_range ++ u "
        "
  ++ (match given status_filter with
     | Some status_filter' => u " AND campaign.status = " ++ status_filter'
     | None => []
     end)
  ++ u " ORDER BY metrics.impressions DESC".

Definition get_ad_groups_performance (campaign_id : option str) (date_range : str) : str :=
  u "
            SELECT
                campaign.id,
                campaign.name,
                ad_group.id,
                ad_group.name,
                ad_group.status,
                metrics.impressions,
                metrics.clicks,
                metrics.ctr,
                metrics.average_cpc,
                metrics.cost_micros,
                metrics.conversions
            FROM ad_group
            WHERE segments.date DURING " ++ date_range ++ u "
        "
  ++ (match given campaign_id with
     | Some campaign_id' => u " AND campaign.id = " ++ campaign_id'
     | None => []
     end)
  ++ u " ORDER BY metrics.cost_micros DESC".

Definition get_keywords_performance (campaign_id : option str) (date_range : str) (min_impressions : Z) : str :=
  u "
            SELECT
                campaign.id,
                campaign.name,
                ad_group.id,
                ad_group.name,
                ad_group_criterion.keyword.text,
                ad_group_criterion.keyword.match_type,
                ad_group_criterion.status,
                metrics.impressions,
                metrics.clicks,
                metrics.ctr,
                metrics.average_cpc,
                metrics.cost_micros,
                metrics.conversions,
                metrics.quality_score
            FROM keyword_view
            WHERE segments.date DURING " ++ date_range ++ u "
                AND metrics.impressions >= " ++ str_of_Z min_impressions ++ u "
        "
  ++ (match given campaign_id with
     | Some campaign_id' => u " AND campaign.id = " ++ campaign_id'
     | None => []
     end)
  ++ u " ORDER BY metrics.impressions DESC".

Definition get_search_terms_report (campaign_id : option str) (date_range : str) : str :=
  u "
            SELECT
                campaign.id,
                campaign.name,
                ad_group.id,
                ad_group.name,
                search_term_view.search_term,
                search_term_view.status,
                metrics.impressions,
                metrics.clicks,
                metrics.ctr,
                metrics.cost_micros,
                metrics.conversions
            FROM search_term_view
            WHERE segments.date DURING " ++ date_range ++ u "
        "
  ++ (match given campaign_id with
     | Some campaign_id' => u " AND campaign.id = " ++ campaign_id'
     | None => []
     end)
  ++ u " ORDER BY metrics.impressions DESC".

Definition get_ads_performance (campaign_id : option str) (ad_group_id : option str) (date_range : str) : str :=
  u "
            SELECT
                campaign.id,
                campaign.name,
                ad_group.id,
                ad_group.name,
                ad_group_ad.ad.id,
                ad_group_ad.ad.type,
                ad_group_ad.status,
                ad_group_ad.ad.responsive_search_ad.headlines,
                ad_group_ad.ad.responsive_search_ad.descriptions,
                metrics.impressions,
                metrics.clicks,
                metrics.ctr,
                metrics.average_cpc,
                metrics.cost_micros,
                metrics.conversions
            FROM ad_group_ad
            WHERE segments.date DURING " ++ date_range ++ u "
        "
  ++ (match given campaign_id with
     | Some campaign_id' => u " AND campaign.id = " ++ campaign_id'
     | None => []
     end)
  ++ (match given ad_group_id with
     | Some ad_group_id' => u " AND ad_group.id = " ++ ad_group_id'
     | None => []
     end)
  ++ u " ORDER BY metrics.impressions DESC".

Definition get_campaign_budget_info (campaign_id : option str) : str :=
  u "
            SELECT
                campaign.id,
                campaign.name,
                campaign.status,
                campaign_budget.amount_micros,
                campaign_budget.delivery_method,
                campaign.target_spend.cpc_bid_ceiling_micros,
                campaign.target_spend.target_spend_micros
            FROM campaign
        "
  ++ (match given campaign_id with
     | Some campaign_id' => u " WHERE campaign.id = " ++ campaign_id'
     | None => []
     end).

Definition get_negative_keywords (campaign_id : option str) : str :=
  u "
            SELECT
                campaign.id,
                campaign.name,
                campaign_criterion.criterion_id,
                campaign_criterion.keyword.text,
                campaign_criterion.keyword.match_type,
                campaign_criterion.negative
            FROM campaign_criterion
            WHERE campaign_criterion.negative = TRUE
        "
  ++ (match given campaign_id with
     | Some campaign_id' => u " AND campaign.id = " ++ campaign_id'
     | None => []
     end).

Definition get_geographic_performance (campaign_id : option str) (date_range : str) : str :=
  u "
            SELECT
                campaign.id,
                campaign.name,
                geographic_view.country_criterion_id,
                geographic_view.location_type,
                metrics.impressions,
                metrics.clicks,
                metrics.ctr,
                metrics.cost_micros,
                metrics.conversions
            FROM geographic_view
            WHERE segments.date DURING " ++ date_range ++ u "
        "
  ++ (match given campaign_id with
     | Some campaign_id' => u " AND campaign.id = " ++ campaign_id'
     | None => []
     end)
  ++ u " ORDER BY metrics.impressions DESC".

Definition get_device_performance (campaign_id : option str) (date_range : str) : str :=
  u "
            SELECT
                campaign.id,
                campaign.name,
                segments.device,
                metrics.impressions,
                metrics.clicks,
                metrics.ctr,
                metrics.average_cpc,
                metrics.cost_micros,
                metrics.conversions
            FROM campaign
            WHERE segments.date DURING " ++ date_range ++ u "
        "
  ++ (match given campaign_id with
     | Some campaign_id' => u " AND campaign.id = " ++ campaign_id'
     | None => []
     end)
  ++ u " ORDER BY segments.device, metrics.impressions DESC".

Definition get_account_summary (date_range : str) : str :=
  u "
            SELECT
                customer.id,
                customer.descriptive_name,
                metrics.impressions,
                metrics.clicks,
                metrics.ctr,
                metrics.average_cpc,
                metrics.cost_micros,
                metrics.conversions,
                metrics.cost_per_conversion
            FROM customer
            WHERE segments.date DURING " ++ date_range ++ u "
        ".

Definition diagnose_low_quality_score (min_impressions : Z) : str :=
  u "
            SELECT
                campaign.id,
                campaign.name,
                ad_group.id,
                ad_group.name,
                ad_group_criterion.keyword.text,
                ad_group_criterion.keyword.match_type,
                metrics.quality_score,
                metrics.impressions,
                metrics.clicks,
                metrics.ctr
            FROM keyword_view
            WHERE segments.date DURING LAST_30_DAYS
                AND metrics.impressions >= " ++ str_of_Z min_impressions ++ u "
                AND metrics.quality_score < 5
            ORDER BY metrics.impressions DESC
        ".

Definition diagnose_high_cost_low_conversion  : str :=
  u "
            SELECT
                campaign.id,
                campaign.name,
                campaign.status,
                metrics.cost_micros,
                metrics.conversions,
                metrics.cost_per_conversion
            FROM campaign
            WHERE segments.date DURING LAST_30_DAYS
                AND metrics.cost_micros > 100000000
                AND metrics.conversions < 10
            ORDER BY metrics.cost_micros DESC
        ".

Definition find_disapproved_ads  : str :=
  u "
            SELECT
                campaign.id,
                campaign.name,
                ad_group.id,
                ad_group.name,
                ad_group_ad.ad.id,
                ad_group_ad.policy_summary.approval_status,
                ad_group_ad.policy_summary.review_status
            FROM ad_group_ad
            WHERE ad_group_ad.policy_summary.approval_status = 'DISAPPROVED'
        ".


End GoogleAdsQueries.

(* ===================================================================== *)
(** ** google_ads/mcp_server.py                                           *)
(* ===================================================================== *)

Module GoogleAdsMCPServer.
Import Py.

(** The query-execution client the server holds ([ads_client.py]): each
    method answers with rows or raises. How it answers is not fixed. *)
Record GoogleAdsClient := {
  list_accessible_customers : result (list dict);
  get_customer_info : str -> result dict;
  search : option str -> str -> result (list dict)
}.

Record server := {
  client : GoogleAdsClient;
  customer_id : option str
}.

(** [a or b] on optional strings. *)
Definition or_else (a b : option str) : option str :=
  match given a with
  | Some _ => a
  | None => b
  end.

Definition vlen {A} (l : list A) : value := VInt (Z.of_nat (length l)).
Definition rows (l : list dict) : value := VList (map VDict l).

(** [except Exception as e: return {'success': False, 'error': str(e)}] *)
Definition failure (e : exn) : result value :=
  Ok (VDict [(u "success", VBool false); (u "error", VStr (exn_msg e))]).

Definition list_accounts (self : server) : result value :=
  try_except
    (bind (list_accessible_customers (client self)) (fun customers =>
     Ok (VDict [(u "success", VBool true);
                (u "count", vlen customers);
                (u "accounts", rows customers)])))
    failure.

Definition get_account_info (self : server) (customer_id' : option str) : result value :=
  try_except
    (match given (or_else customer_id' (customer_id self)) with
     | None =>
       Ok (VDict [(u "success", VBool false);
                  (u "error", VStr (u "No customer ID provided"))])
     | Some cid =>
       bind (get_customer_info (client self) cid) (fun info =>
       Ok (VDict [(u "success", VBool true); (u "account", VDict info)]))
     end)
    failure.

Definition get_account_summary (self : server) (date_range : str) : result value :=
  try_except
    (let query := GoogleAdsQueries.get_account_summary date_range in
     bind (search (client self) (customer_id self) query) (fun results =>
     Ok (VDict [(u "success", VBool true);
                (u "summary", match results with r :: _ => VDict r | [] => VDict [] end);
                (u "date_range", VStr date_range)])))
    failure.

Definition get_campaigns (self : server) (date_range : str) (status_filter : option str)
  : result value :=
  try_except
    (let query := GoogleAdsQueries.get_campaigns_overview date_range status_filter in
     bind (search (client self) (customer_id self) query) (fun results =>
     Ok (VDict [(u "success", VBool true);
                (u "count", vlen results);
                (u "campaigns", rows results);
                (u "date_range", VStr date_range)])))
    failure.

(** [str(r.get('campaign', {}).get('id')) == str(campaign_id)] for one
    row; the inner [.get] needs a dict. *)
Definition row_has_campaign (rt : runtime) (campaign_id : str) (r : dict) : result bool :=
  match dict_get (u "campaign") (VDict []) r with
  | VDict c => Ok (str_eqb (py_str rt (dict_get (u "id") VNone c)) campaign_id)
  | other => Raise (no_attribute other (u "get"))
  end.

(** [[r for r in results if keep r]] *)
Fixpoint filter_rows (keep : dict -> result bool) (results : list dict) : result (list dict) :=
  match results with
  | [] => Ok []
  | r :: rest =>
    bind (keep r) (fun b =>
    bind (filter_rows keep rest) (fun kept =>
    Ok (if b then r :: kept else kept)))
  end.

Definition get_campaign_performance (rt : runtime) (self : server)
    (campaign_id : str) (date_range : str) : result value :=
  try_except
    (let query := GoogleAdsQueries.get_campaigns_overview date_range None in
     bind (search (client self) (customer_id self) query) (fun results =>
     bind (filter_rows (row_has_campaign rt campaign_id) results) (fun campaign_data =>
     Ok (VDict [(u "success", VBool true);
                (u "campaign", match campaign_data with r :: _ => VDict r | [] => VNone end);
                (u "date_range", VStr date_range)]))))
    failure.

Definition get_campaign_budget (self : server) (campaign_id : option str) : result value :=
  try_except
    (let query := GoogleAdsQueries.get_campaign_budget_info campaign_id in
     bind (search (client self) (customer_id self) query) (fun results =>
     Ok (VDict [(u "success", VBool true);
                (u "count", vlen results);
                (u "budgets", rows results)])))
    failure.

Definition get_ad_groups (self : server) (campaign_id : option str) (date_range : str)
  : result value :=
  try_except
    (let query := GoogleAdsQueries.get_ad_groups_performance campaign_id date_range in
     bind (search (client self) (customer_id self) query) (fun results =>
     Ok (VDict [(u "success", VBool true);
                (u "count", vlen results);
                (u "ad_groups", rows results);
                (u "date_range", VStr date_range)])))
    failure.

Definition get_keywords (self : server) (campaign_id : option str) (date_range : str)
    (min_impressions : Z) : result value :=
  try_except
    (let query :=
       GoogleAdsQueries.get_keywords_performance campaign_id date_range min_impressions in
     bind (search (client self) (customer_id self) query) (fun results =>
     Ok (VDict [(u "success", VBool true);
                (u "count", vlen results);
                (u "keywords", rows results);
                (u "date_range", VStr date_range)])))
    failure.

Definition get_search_terms (self : server) (campaign_id : option str) (date_range : str)
  : result value :=
  try_except
    (let query := GoogleAdsQueries.get_search_terms_report campaign_id date_range in
     bind (search (client self) (customer_id self) query) (fun results =>
     Ok (VDict [(u "success", VBool true);
                (u "count", vlen results);
                (u "search_terms", rows results);
                (u "date_range", VStr date_range)])))
    failure.

Definition get_negative_keywords (self : server) (campaign_id : option str) : result value :=
  try_except
    (let query := GoogleAdsQueries.get_negative_keywords campaign_id in
     bind (search (client self) (customer_id self) query) (fun results =>
     Ok (VDict [(u "success", VBool true);
                (u "count", vlen results);
                (u "negative_keywords", rows results)])))
    failure.

Definition get_ads (self : server) (campaign_id ad_group_id : option str) (date_range : str)
  : result value :=
  try_except
    (let query := GoogleAdsQueries.get_ads_performance campaign_id ad_group_id date_range in
     bind (search (client self) (customer_id self) query) (fun results =>
     Ok (VDict [(u "success", VBool true);
                (u "count", vlen results);
                (u "ads", rows results);
                (u "date_range", VStr date_range)])))
    failure.

Definition get_geographic_performance (self : server) (campaign_id : option str)
    (date_range : str) : result value :=
  try_except
    (let query := GoogleAdsQueries.get_geographic_performance campaign_id date_range in
     bind (search (client self) (customer_id self) query) (fun results =>
     Ok (VDict [(u "success", VBool true);
                (u "count", vlen results);
                (u "geographic_data", rows results);
                (u "date_range", VStr date_range)])))
    failure.

Definition get_device_performance (self : server) (campaign_id : option str)
    (date_range : str) : result value :=
  try_except
    (let query := GoogleAdsQueries.get_device_performance campaign_id date_range in
     bind (search (client self) (customer_id self) query) (fun results =>
     Ok (VDict [(u "success", VBool true);
                (u "count", vlen results);
                (u "device_data", rows results);
                (u "date_range", VStr date_range)])))
    failure.

Definition diagnose_low_quality_scores (self : server) (min_impressions : Z) : result value :=
  try_except
    (let query := GoogleAdsQueries.diagnose_low_quality_score min_impressions in
     bind (search (client self) (customer_id self) query) (fun results =>
     Ok (VDict [(u "success", VBool true);
                (u "count", vlen results);
                (u "low_quality_keywords", rows results);
                (u "recommendation",
                 VStr (u "Review ad relevance, landing pages, and expected CTR"))])))
    failure.

Definition diagnose_high_cost_campaigns (self : server) : result value :=
  try_except
    (let query := GoogleAdsQueries.diagnose_high_cost_low_conversion in
     bind (search (client self) (customer_id self) query) (fun results =>
     Ok (VDict [(u "success", VBool true);
                (u "count", vlen results);
                (u "campaigns", rows results);
                (u "recommendation",
                 VStr (u "Review targeting, ad copy, and landing page conversion rate"))])))
    failure.

Definition find_disapproved_ads (self : server) : result value :=
  try_except
    (let query := GoogleAdsQueries.find_disapproved_ads in
     bind (search (client self) (customer_id self) query) (fun results =>
     Ok (VDict [(u "success", VBool true);
                (u "count", vlen results);
                (u "disapproved_ads", rows results);
                (u "recommendation",
                 VStr (u "Review policy violations and update ad copy"))])))
    failure.

Definition run_custom_query (self : server) (query : str) (customer_id' : option str)
  : result value :=
  try_except
    (let cid := or_else customer_id' (customer_id self) in
     bind (search (client self) cid query) (fun results =>
     Ok (VDict [(u "success", VBool true);
                (u "count", vlen results);
                (u "results", rows results)])))
    failure.

(** A call of one entry of the registry [_register_tools], with the
    arguments of its signature. *)
Inductive tool_call :=
| Call_list_accounts
| Call_get_account_info (customer_id : option str)
| Call_get_account_summary (date_range : str)
| Call_get_campaigns (date_range : str) (status_filter : option str)
| Call_get_campaign_performance (campaign_id : str) (date_range : str)
| Call_get_campaign_budget (campaign_id : option str)
| Call_get_ad_groups (campaign_id : option str) (date_range : str)
| Call_get_keywords (campaign_id : option str) (date_range : str) (min_impressions : Z)
| Call_get_search_terms (campaign_id : option str) (date_range : str)
| Call_get_negative_keywords (campaign_id : option str)
| Call_get_ads (campaign_id ad_group_id : option str) (date_range : str)
| Call_get_geographic_performance (campaign_id : option str) (date_range : str)
| Call_get_device_performance (campaign_id : option str) (date_range : str)
| Call_diagnose_low_quality_scores (min_impressions : Z)
| Call_diagnose_high_cost_campaigns
| Call_find_disapproved_ads
| Call_run_custom_query (query : str) (customer_id : option str).

(** The key of the registry entry a call goes through. *)
Definition tool_name (c : tool_call) : str :=
  match c with
  | Call_list_accounts => u "list_accounts"
  | Call_get_account_info _ => u "get_account_info"
  | Call_get_account_summary _ => u "get_account_summary"
  | Call_get_campaigns _ _ => u "get_campaigns"
  | Call_get_campaign_performance _ _ => u "get_campaign_performance"
  | Call_get_campaign_budget _ => u "get_campaign_budget"
  | Call_get_ad_groups _ _ => u "get_ad_groups"
  | Call_get_keywords _ _ _ => u "get_keywords"
  | Call_get_search_terms _ _ => u "get_search_terms"
  | Call_get_negative_keywords _ => u "get_negative_keywords"
  | Call_get_ads _ _ _ => u "get_ads"
  | Call_get_geographic_performance _ _ => u "get_geographic_performance"
  | Call_get_device_performance _ _ => u "get_device_performance"
  | Call_diagnose_low_quality_scores _ => u "diagnose_low_quality_scores"
  | Call_diagnose_high_cost_campaigns => u "diagnose_high_cost_campaigns"
  | Call_find_disapproved_ads => u "find_disapproved_ads"
  | Call_run_custom_query _ _ => u "run_custom_query"
  end.

(** The keys of [_register_tools], in order. *)
Definition _register_tools : list str :=
  [u "list_accounts"; u "get_account_info"; u "get_account_summary";
   u "get_campaigns"; u "get_campaign_performance"; u "get_campaign_budget";
   u "get_ad_groups";
   u "get_keywords"; u "get_search_terms"; u "get_negative_keywords";
   u "get_ads";
   u "get_geographic_performance"; u "get_device_performance";
   u "diagnose_low_quality_scores"; u "diagnose_high_cost_campaigns";
   u "find_disapproved_ads";
   u "run_custom_query"].

(** [self.tools[name](args)] *)
Definition call_tool (rt : runtime) (self : server) (c : tool_call) : result value :=
  match c with
  | Call_list_accounts => list_accounts self
  | Call_get_account_info cid => get_account_info self cid
  | Call_get_account_summary dr => get_account_summary self dr
  | Call_get_campaigns dr sf => get_campaigns self dr sf
  | Call_get_campaign_performance cid dr => get_campaign_performance rt self cid dr
  | Call_get_campaign_budget cid => get_campaign_budget self cid
  | Call_get_ad_groups cid dr => get_ad_groups self cid dr
  | Call_get_keywords cid dr mi => get_keywords self cid dr mi
  | Call_get_search_terms cid dr => get_search_terms self cid dr
  | Call_get_negative_keywords cid => get_negative_keywords self cid
  | Call_get_ads cid ag dr => get_ads self cid ag dr
  | Call_get_geographic_performance cid dr => get_geographic_performance self cid dr
  | Call_get_device_performance cid dr => get_device_performance self cid dr
  | Call_diagnose_low_quality_scores mi => diagnose_low_quality_scores self mi
  | Call_diagnose_high_cost_campaigns => diagnose_high_cost_campaigns self
  | Call_find_disapproved_ads => find_disapproved_ads self
  | Call_run_custom_query q cid => run_custom_query self q cid
  end.

(** The one request a call sends to the client, and the client's answer
    to it with the rows forgotten; [None] when the call returns before
    reaching the client. *)
Definition client_answer (self : server) (c : tool_call) : option (result unit) :=
  let forget {A} (r : result A) : option (result unit) :=
    Some (bind r (fun _ => Ok tt)) in
  let q (query : str) := forget (search (client self) (customer_id self) query) in
  match c with
  | Call_list_accounts => forget (list_accessible_customers (client self))
  | Call_get_account_info cid =>
    match given (or_else cid (customer_id self)) with
    | None => None
    | Some cid' => forget (get_customer_info (client self) cid')
    end
  | Call_get_account_summary dr => q (GoogleAdsQueries.get_account_summary dr)
  | Call_get_campaigns dr sf => q (GoogleAdsQueries.get_campaigns_overview dr sf)
  | Call_get_campaign_performance _ dr => q (GoogleAdsQueries.get_campaigns_overview dr None)
  | Call_get_campaign_budget cid => q (GoogleAdsQueries.get_campaign_budget_info cid)
  | Call_get_ad_groups cid dr => q (GoogleAdsQueries.get_ad_groups_performance cid dr)
  | Call_get_keywords cid dr mi => q (GoogleAdsQueries.get_keywords_performance cid dr mi)
  | Call_get_search_terms cid dr => q (GoogleAdsQueries.get_search_terms_report cid dr)
  | Call_get_negative_keywords cid => q (GoogleAdsQueries.get_negative_keywords cid)
  | Call_get_ads cid ag dr => q (GoogleAdsQueries.get_ads_performance cid ag dr)
  | Call_get_geographic_performance cid dr =>
    q (GoogleAdsQueries.get_geographic_performance cid dr)
  | Call_get_device_performance cid dr => q (GoogleAdsQueries.get_device_performance cid dr)
  | Call_diagnose_low_quality_scores mi => q (GoogleAdsQueries.diagnose_low_quality_score mi)
  | Call_diagnose_high_cost_campaigns => q GoogleAdsQueries.diagnose_high_cost_low_conversion
  | Call_find_disapproved_ads => q GoogleAdsQueries.find_disapproved_ads
  | Call_run_custom_query query cid =>
    forget (search (client self) (or_else cid (customer_id self)) query)
  end.

Definition get_available_tools : value :=
  VList [
    VDict [
      (u "name", VStr (u "list_accounts"));
      (u "description", VStr (u "List all accessible Google Ads accounts"));
      (u "parameters", VDict [])];
    VDict [
      (u "name", VStr (u "get_account_info"));
      (u "description", VStr (u "Get detailed information about a specific account"));
      (u "parameters", VDict [
        (u "customer_id", VStr (u "string (optional)"))])];
    VDict [
      (u "name", VStr (u "get_account_summary"));
      (u "description", VStr (u "Get high-level performance summary for the account"));
      (u "parameters", VDict [
        (u "date_range", VStr (u "string (default: LAST_30_DAYS)"))])];
    VDict [
      (u "name", VStr (u "get_campaigns"));
      (u "description", VStr (u "Get all campaigns with performance metrics"));
      (u "parameters", VDict [
        (u "date_range", VStr (u "string (default: LAST_30_DAYS)"));
        (u "status_filter", VStr (u "string (optional: ENABLED, PAUSED, REMOVED)"))])];
    VDict [
      (u "name", VStr (u "get_campaign_performance"));
      (u "description", VStr (u "Get detailed performance for a specific campaign"));
      (u "parameters", VDict [
        (u "campaign_id", VStr (u "string (required)"));
        (u "date_range", VStr (u "string (default: LAST_30_DAYS)"))])];
    VDict [
      (u "name", VStr (u "get_keywords"));
      (u "description", VStr (u "Get keyword performance data"));
      (u "parameters", VDict [
        (u "campaign_id", VStr (u "string (optional)"));
        (u "date_range", VStr (u "string (default: LAST_30_DAYS)"));
        (u "min_impressions", VStr (u "int (default: 0)"))])];
    VDict [
      (u "name", VStr (u "get_search_terms"));
      (u "description", VStr (u "Get search terms report (actual searches)"));
      (u "parameters", VDict [
        (u "campaign_id", VStr (u "string (optional)"));
        (u "date_range", VStr (u "string (default: LAST_7_DAYS)"))])];
    VDict [
      (u "name", VStr (u "diagnose_low_quality_scores"));
      (u "description", VStr (u "Find keywords with quality scores below 5"));
      (u "parameters", VDict [
        (u "min_impressions", VStr (u "int (default: 100)"))])];
    VDict [
      (u "name", VStr (u "diagnose_high_cost_campaigns"));
      (u "description", VStr (u "Find campaigns with high spend but low conversions"));
      (u "parameters", VDict [])];
    VDict [
      (u "name", VStr (u "run_custom_query"));
      (u "description", VStr (u "Execute a custom GAQL query"));
      (u "parameters", VDict [
        (u "query", VStr (u "string (required)"));
        (u "customer_id", VStr (u "string (optional)"))])]].

(** A result is an envelope: a returned dict with a boolean under
    ['success']. *)
Definition is_envelope (r : result value) : Prop :=
  exists d b, r = Ok (VDict d) /\ dict_lookup (u "success") d = Some (VBool b).

(** A client to run examples with: it returns no rows for the query
    [expected] and raises on every other request. *)
Definition refused : exn := Exn (OtherException (u "GoogleAdsException")) (u "refused").

Definition picky_client (expected : str) : GoogleAdsClient :=
  {| list_accessible_customers := Raise refused;
     get_customer_info := fun _ => Raise refused;
     search := fun _ query => if str_eqb query expected then Ok [] else Raise refused |}.

Definition picky_server (expected : str) : server :=
  {| client := picky_client expected; customer_id := Some (u "1234567890") |}.

(** The envelope of a request no rule matches. *)
Definition unrecognized : result value :=
  Ok (VDict [(u "success", VBool false);
             (u "error",
              VStr (u "Could not understand request. Please use one of the available tools."));
             (u "available_tools", get_available_tools)]).

Definition process_natural_language_request (rt : runtime) (self : server) (request : str)
  : result value :=
  let request_lower := lower rt request in
  let has := contains request_lower in
  if existsb has [u "accounts"; u "list accounts"] then list_accounts self
  else if has (u "account summary") || has (u "overview")
  then get_account_summary self (u "LAST_30_DAYS")
  else if has (u "campaigns") && negb (has (u "performance"))
  then get_campaigns self (u "LAST_30_DAYS") None
  else if has (u "keywords") then
    if has (u "low quality") || has (u "quality score")
    then diagnose_low_quality_scores self 100
    else if has (u "negative") then get_negative_keywords self None
    else get_keywords self None (u "LAST_30_DAYS") 0
  else if has (u "search terms") || has (u "search queries")
  then get_search_terms self None (u "LAST_7_DAYS")
  else if has (u "high cost") || has (u "expensive") then diagnose_high_cost_campaigns self
  else if has (u "disapproved") || has (u "rejected") then find_disapproved_ads self
  else if has (u "geographic") || has (u "location")
  then get_geographic_performance self None (u "LAST_30_DAYS")
  else if has (u "device") then get_device_performance self None (u "LAST_30_DAYS")
  else unrecognized.

(** The routing words, other than "campaigns" and "performance". *)
Definition other_routing_words : list str :=
  [u "accounts"; u "account summary"; u "overview"; u "keywords";
   u "search terms"; u "search queries"; u "high cost"; u "expensive";
   u "disapproved"; u "rejected"; u "geographic"; u "location"; u "device"].

(** The calls the router makes, each with the defaults of its signature. *)
Definition routed_calls : list tool_call :=
  [Call_list_accounts;
   Call_get_account_summary (u "LAST_30_DAYS");
   Call_get_campaigns (u "LAST_30_DAYS") None;
   Call_diagnose_low_quality_scores 100;
   Call_get_negative_keywords None;
   Call_get_keywords None (u "LAST_30_DAYS") 0;
   Call_get_search_terms None (u "LAST_7_DAYS");
   Call_diagnose_high_cost_campaigns;
   Call_find_disapproved_ads;
   Call_get_geographic_performance None (u "LAST_30_DAYS");
   Call_get_device_performance None (u "LAST_30_DAYS")].

(** The routing in the words of the specification: a fixed, ordered
    table of rules, each a test on the words of the lower-cased request
    and the one tool call it selects. *)
Definition rule : Type := ((str -> bool) -> bool) * tool_call.

Definition routing_table : list rule :=
  [(fun has => has (u "accounts") || has (u "list accounts"), Call_list_accounts);
   (fun has => has (u "account summary") || has (u "overview"),
    Call_get_account_summary (u "LAST_30_DAYS"));
   (fun has => has (u "campaigns") && negb (has (u "performance")),
    Call_get_campaigns (u "LAST_30_DAYS") None);
   (fun has => has (u "keywords") && (has (u "low quality") || has (u "quality score")),
    Call_diagnose_low_quality_scores 100);
   (fun has => has (u "keywords") && has (u "negative"), Call_get_negative_keywords None);
   (fun has => has (u "keywords"), Call_get_keywords None (u "LAST_30_DAYS") 0);
   (fun has => has (u "search terms") || has (u "search queries"),
    Call_get_search_terms None (u "LAST_7_DAYS"));
   (fun has => has (u "high cost") || has (u "expensive"), Call_diagnose_high_cost_campaigns);
   (fun has => has (u "disapproved") || has (u "rejected"), Call_find_disapproved_ads);
   (fun has => has (u "geographic") || has (u "location"),
    Call_get_geographic_performance None (u "LAST_30_DAYS"));
   (fun has => has (u "device"), Call_get_device_performance None (u "LAST_30_DAYS"))].

(** The first rule of a table whose test holds wins. *)
Fixpoint first_match (has : str -> bool) (table : list rule) : option tool_call :=
  match table with
  | [] => None
  | (test, c) :: rest => if test has then Some c else first_match has rest
  end.

Definition route_by_table (rt : runtime) (self : server) (request : str) : result value :=
  match first_match (contains (lower rt request)) routing_table with
  | Some c => call_tool rt self c
  | None => unrecognized
  end.

(** Every word a rule of the router looks for. *)
Definition routing_words : list str := u "campaigns" :: other_routing_words.

(** On the request of the call [c], the client raises nothing outside
    [Exception]. *)
Definition polite (self : server) (c : tool_call) : Prop :=
  forall e, client_answer self c = Some (Raise e) -> is_exception (exn_cls e) = true.

(** A client that is interrupted from the keyboard on every request. *)
Definition interrupt : exn := Exn (BaseOnly (u "KeyboardInterrupt")) [].

Definition interrupted_server : server :=
  {| client := {| list_accessible_customers := Raise interrupt;
                  get_customer_info := fun _ => Raise interrupt;
                  search := fun _ _ => Raise interrupt |};
     customer_id := Some (u "1234567890") |}.

(** For a tool that returns a list: the key the list is returned under,
    and the client's answer to the request the tool sends. *)
Definition listing (self : server) (c : tool_call) : option (str * result (list dict)) :=
  let q (query : str) := search (client self) (customer_id self) query in
  match c with
  | Call_list_accounts => Some (u "accounts", list_accessible_customers (client self))
  | Call_get_account_info _ => None
  | Call_get_account_summary _ => None
  | Call_get_campaigns dr sf =>
    Some (u "campaigns", q (GoogleAdsQueries.get_campaigns_overview dr sf))
  | Call_get_campaign_performance _ _ => None
  | Call_get_campaign_budget cid =>
    Some (u "budgets", q (GoogleAdsQueries.get_campaign_budget_info cid))
  | Call_get_ad_groups cid dr =>
    Some (u "ad_groups", q (GoogleAdsQueries.get_ad_groups_performance cid dr))
  | Call_get_keywords cid dr mi =>
    Some (u "keywords", q (GoogleAdsQueries.get_keywords_performance cid dr mi))
  | Call_get_search_terms cid dr =>
    Some (u "search_terms", q (GoogleAdsQueries.get_search_terms_report cid dr))
  | Call_get_negative_keywords cid =>
    Some (u "negative_keywords", q (GoogleAdsQueries.get_negative_keywords cid))
  | Call_get_ads cid ag dr =>
    Some (u "ads", q (GoogleAdsQueries.get_ads_performance cid ag dr))
  | Call_get_geographic_performance cid dr =>
    Some (u "geographic_data", q (GoogleAdsQueries.get_geographic_performance cid dr))
  | Call_get_device_performance cid dr =>
    Some (u "device_data", q (GoogleAdsQueries.get_device_performance cid dr))
  | Call_diagnose_low_quality_scores mi =>
    Some (u "low_quality_keywords", q (GoogleAdsQueries.diagnose_low_quality_score mi))
  | Call_diagnose_high_cost_campaigns =>
    Some (u "campaigns", q GoogleAdsQueries.diagnose_high_cost_low_conversion)
  | Call_find_disapproved_ads =>
    Some (u "disapproved_ads", q GoogleAdsQueries.find_disapproved_ads)
  | Call_run_custom_query query cid =>
    Some (u "results", search (client self) (or_else cid (customer_id self)) query)
  end.

(** [str(r.get('campaign', {}).get('id'))] for a row whose campaign
    entry, if it has one, is a dict; [None] for a row where it is not. *)
Definition printed_campaign_id (rt : runtime) (r : dict) : option str :=
  match dict_get (u "campaign") (VDict []) r with
  | VDict c => Some (py_str rt (dict_get (u "id") VNone c))
  | _ => None
  end.

Definition is_campaign (rt : runtime) (campaign_id : str) (r : dict) : bool :=
  match printed_campaign_id rt r with
  | Some printed => str_eqb printed campaign_id
  | None => false
  end.

(** The names under ['name'] in [get_available_tools]. *)
Definition advertised_names : list value :=
  match get_available_tools with
  | VList tools =>
    map (fun tool => match tool with VDict d => dict_get (u "name") VNone d | _ => VNone end)
      tools
  | _ => []
  end.

End GoogleAdsMCPServer.

(* ===================================================================== *)
(** ** google_ads/ads_client.py                                           *)
(* ===================================================================== *)

Module AdsClient.
Import Py.

(** What the Google Ads API hands to the wrapper. A campaign or an ad
    group of a row: its id, its name and, if it has a status, the name
    of the status. *)
Record entity := {
  entity_id : Z;
  entity_name : str;
  entity_status : option str
}.

(** The metrics of a row; [conversions], a float, is kept as its
    literal, and may be missing. *)
Record metrics := {
  impressions : Z;
  clicks : Z;
  cost_micros : Z;
  conversions : option str
}.

Record customer := {
  customer_id : Z;
  descriptive_name : str;
  currency_code : str;
  time_zone : str;
  manager : bool;
  test_account : bool
}.

(** A row of a search response: the attributes the wrapper looks at,
    each of which the row may lack, whatever else the row holds, and the
    name of its class. *)
Record row := {
  row_campaign : option entity;
  row_ad_group : option entity;
  row_metrics : option metrics;
  row_customer : option customer;
  row_other : dict;
  row_class : str
}.

(** A response, as iterating it goes: the rows it yields, and the
    exception that ends the iteration, if one does. *)
Record response := {
  yielded : list row;
  broken : option exn
}.

(** The two services [client.get_service] gives access to:
    [CustomerService.list_accessible_customers().resource_names] and
    [GoogleAdsService.search(customer_id, query)]. *)
Record services := {
  accessible_customers : result (list str);
  ga_search : option str -> str -> result response
}.

(** [s.split(sep)] for a one-character separator; [cur] holds the piece
    being read, reversed. *)
Fixpoint split_on (sep : char) (cur : str) (s : str) : list str :=
  match s with
  | [] => [rev cur]
  | c :: t =>
    if (c =? sep)%N then rev cur :: split_on sep [] t else split_on sep (c :: cur) t
  end.

(** [resource_name.split('/')[-1]] *)
Definition customer_id_of (resource_name : str) : str :=
  last (split_on 47%N [] resource_name) [].

(** [list_accessible_customers]: both handlers log and raise again. *)
Definition list_accessible_customers (api : services) : result (list dict) :=
  bind (accessible_customers api) (fun resource_names =>
  Ok (map (fun resource_name =>
             [(u "id", VStr (customer_id_of resource_name));
              (u "resource_name", VStr resource_name)])
        resource_names)).

(** All the rows of a response, as a [for] loop over it collects them. *)
Definition all_rows (r : response) : result (list row) :=
  match broken r with
  | None => Ok (yielded r)
  | Some e => Raise e
  end.

(** The first step of a [for] loop over a response. *)
Definition first_row (r : response) : result (option row) :=
  match yielded r with
  | first :: _ => Ok (Some first)
  | [] => match broken r with None => Ok None | Some e => Raise e end
  end.

Definition customer_query (customer_id : str) : str :=
  u "
                SELECT
                    customer.id,
                    customer.descriptive_name,
                    customer.currency_code,
                    customer.time_zone,
                    customer.manager,
                    customer.test_account
                FROM customer
                WHERE customer.id = " ++ customer_id ++ u "
            ".

Definition get_customer_info (api : services) (customer_id' : str) : result dict :=
  bind (ga_search api (Some customer_id') (customer_query customer_id')) (fun response =>
  bind (first_row response) (fun first =>
  match first with
  | Some r =>
    match row_customer r with
    | Some c =>
      Ok [(u "id", VInt (customer_id c));
          (u "name", VStr (descriptive_name c));
          (u "currency", VStr (currency_code c));
          (u "time_zone", VStr (time_zone c));
          (u "is_manager", VBool (manager c));
          (u "is_test", VBool (test_account c))]
    | None =>
      Raise (Exn AttributeError
               (u "'" ++ row_class r ++ u "' object has no attribute 'customer'"))
    end
  | None => Ok []
  end)).

Definition entity_dict (e : entity) : value :=
  VDict [(u "id", VInt (entity_id e));
         (u "name", VStr (entity_name e));
         (u "status", match entity_status e with Some name => VStr name | None => VNone end)].

Definition _row_to_dict (r : row) : dict :=
  match row_campaign r with
  | Some c => [(u "campaign", entity_dict c)]
  | None => []
  end
  ++ match row_ad_group r with
     | Some g => [(u "ad_group", entity_dict g)]
     | None => []
     end
  ++ match row_metrics r with
     | Some m =>
       [(u "metrics",
         VDict [(u "impressions", VInt (impressions m));
                (u "clicks", VInt (clicks m));
                (u "cost_micros", VInt (cost_micros m));
                (u "conversions",
                 match conversions m with Some f => VFloat f | None => VInt 0 end)])]
     | None => []
     end.

(** [search]: the handlers log and raise again. *)
Definition search (api : services) (customer_id' : option str) (query : str)
  : result (list dict) :=
  bind (ga_search api customer_id' query) (fun response =>
  bind (all_rows response) (fun rows =>
  Ok (map _row_to_dict rows))).

(** [validate_credentials]: the handler is for [Exception] and answers
    [False]; what else is raised leaves the method. *)
Definition validate_credentials (api : services) : result bool :=
  try_except
    (bind (list_accessible_customers api) (fun customers => Ok (0 <? length customers)))
    (fun _ => Ok false).

(** The wrapper, as the tool server holds it. *)
Definition GoogleAdsClient (api : services) : GoogleAdsMCPServer.GoogleAdsClient :=
  {| GoogleAdsMCPServer.list_accessible_customers := list_accessible_customers api;
     GoogleAdsMCPServer.get_customer_info := get_customer_info api;
     GoogleAdsMCPServer.search := search api |}.



(** An API to run examples with: two accounts, and a keyword report of
    two rows that hold a keyword text the wrapper does not read. *)
Definition keyword_row (id : Z) (keyword : str) : row :=
  {| row_campaign :=
       Some {| entity_id := id; entity_name := u "Spring"; entity_status := Some (u "ENABLED") |};
     row_ad_group := None;
     row_metrics :=
       Some {| impressions := 120; clicks := 7; cost_micros := 3500000;
               conversions := Some (u "1.0") |};
     row_customer := None;
     row_other := [(u "ad_group_criterion.keyword.text", VStr keyword)];
     row_class := u "GoogleAdsRow" |}.

Definition example_api : services :=
  {| accessible_customers := Ok [u "customers/1234567890"; u "customers/42"];
     ga_search := fun _ _ =>
       Ok {| yielded := [keyword_row 41 (u "espresso"); keyword_row 42 (u "latte")];
             broken := None |} |}.

(** Whether a row of the API is of the campaign whose id prints as
    [campaign_id]; a row without campaign prints as ["None"]. *)
Definition row_is_campaign (campaign_id : str) (r : row) : bool :=
  match row_campaign r with
  | Some c => str_eqb (str_of_Z (entity_id c)) campaign_id
  | None => str_eqb (u "None") campaign_id
  end.

End AdsClient.

(* ===================================================================== *)
(** ** fab/fab_methodology.py: statements, prompts, templates             *)
(* ===================================================================== *)

Module FAB.
Import Py.

Definition dq : str := [34%N].

Record FABStatement := {
  feature : str;
  advantage : str;
  benefit : str
}.

Definition to_baf (self : FABStatement) : str :=
  benefit self ++ u ". " ++ advantage self ++ u ". " ++ feature self ++ u ".".

Definition to_dict (self : FABStatement) : dict :=
  [(u "feature", VStr (feature self));
   (u "advantage", VStr (advantage self));
   (u "benefit", VStr (benefit self))].

Definition get_fab_prompt : str :=
  u "
The FAB method (Features, Advantages, Benefits) is a key sales and marketing tool.

**Important principles:**
- People buy NOT features or advantages, they buy the FINAL BENEFIT
- People buy on EMOTIONS, then justify with logic

**FAB Components:**

1. **FEATURE:**
   - This is a special property, aspect, or specification of your product/service
   - " ++ dq ++ u "What you're selling" ++ dq ++ u " or " ++ dq ++ u "bare facts" ++ dq ++ u "
   - Often technical in nature
   - Examples: " ++ dq ++ u "5-module online course" ++ dq ++ u ", " ++ dq ++ u "High-speed printer" ++ dq ++ u ", " ++ dq ++ u "24-megapixel camera" ++ dq ++ u "

2. **ADVANTAGE:**
   - Positive effect or result brought by the feature
   - Explains why the product is convenient and needed
   - Bridge between feature and benefit
   - Examples: " ++ dq ++ u "High print speed ensures more printing volume per day" ++ dq ++ u ", " ++ dq ++ u "24 megapixels mean clearer images" ++ dq ++ u "

3. **BENEFIT:**
   - Personal advantages, improvements, or values for the customer
   - " ++ dq ++ u "What benefit will your customer get" ++ dq ++ u "
   - Answers the question: how does this help the customer, what can it do for them
   - Speaks about what customers really want
   - Solves their problems, brings joy, convenience, or relief
   - Examples: " ++ dq ++ u "Less waiting time, increased productivity" ++ dq ++ u ", " ++ dq ++ u "Your child will be safe" ++ dq ++ u ", " ++ dq ++ u "You drink delicious coffee" ++ dq ++ u "

**BAB Method (Reverse FAB):**
Start with BENEFIT to emotionally attract the customer, then support with advantages and features.

Example: " ++ dq ++ u "Don't miss any moment of your life when there's no light (Benefit). Lens lets in more light (Advantage). F 1.2 aperture (Feature)." ++ dq ++ u "

**Writing rules:**
- Use simple and clear language
- Avoid overly general or complex phrases
- Focus on unique value
- Consider target audience needs
".

(** [v[:2000]]: a string and a list have slices; the other values have
    none, and what slicing a dict raises is taken as given, since it
    differs between versions of the interpreter. *)
Definition slice_to_2000 (dict_slice : exn) (v : value) : result value :=
  match v with
  | VStr s => Ok (VStr (slice_to 2000 s))
  | VList l => Ok (VList (firstn 2000 l))
  | VDict _ => Raise dict_slice
  | other =>
    Raise (Exn TypeError (u "'" ++ type_name other ++ u "' object is not subscriptable"))
  end.

Definition create_fab_analysis_prompt (rt : runtime) (dict_slice : exn)
    (content : dict) : result str :=
  bind (slice_to_2000 dict_slice (dict_get (u "main_content") (VStr []) content))
    (fun main_content =>
  Ok (u "
Analyze the following website content and apply the FAB methodology.

**Website data:**
Title: "
    ++ py_str rt (dict_get (u "title") (VStr (u "Not specified")) content)
    ++ u "
Description: "
    ++ py_str rt (dict_get (u "description") (VStr (u "Not specified")) content)
    ++ u "
Domain: "
    ++ py_str rt (dict_get (u "domain") (VStr (u "Not specified")) content)
    ++ u "

**Headings:**
"
    ++ py_str rt (dict_get (u "headings") (VDict []) content)
    ++ u "

**Main content:**
"
    ++ py_str rt main_content
    ++ u "  

**Task:**
1. Identify the main product or service being offered
2. Extract or determine at least 3-5 FAB statements
3. For each statement determine:
   - Feature - what is specifically offered
   - Advantage - why this is good
   - Benefit - what value the customer will get

4. Formulate each statement in BAB format (starting with benefit)

IMPORTANT: Keep the original language of the website content. If the website is in Ukrainian, respond in Ukrainian. If in English, respond in English. If in Russian, respond in Russian. Only the analysis structure should be consistent.

Return result in JSON format:
{
    " ++ dq ++ u "product_name" ++ dq ++ u ": " ++ dq ++ u "product/service name" ++ dq ++ u ",
    " ++ dq ++ u "target_audience" ++ dq ++ u ": " ++ dq ++ u "target audience description" ++ dq ++ u ",
    " ++ dq ++ u "fab_statements" ++ dq ++ u ": [
        {
            " ++ dq ++ u "feature" ++ dq ++ u ": " ++ dq ++ u "feature" ++ dq ++ u ",
            " ++ dq ++ u "advantage" ++ dq ++ u ": " ++ dq ++ u "advantage" ++ dq ++ u ",
            " ++ dq ++ u "benefit" ++ dq ++ u ": " ++ dq ++ u "benefit" ++ dq ++ u ",
            " ++ dq ++ u "bab_format" ++ dq ++ u ": " ++ dq ++ u "benefit. advantage. feature." ++ dq ++ u "
        }
    ],
    " ++ dq ++ u "unique_value_proposition" ++ dq ++ u ": " ++ dq ++ u "brief unique value proposition" ++ dq ++ u "
}
")).

Definition TEMPLATES : dict :=
  [(u "saas",
    VDict [
       (u "feature_examples",
        VList [VStr (u "Облачное хранилище");
               VStr (u "Автоматизация процессов");
               VStr (u "Интеграция с API")]);
       (u "advantage_examples",
        VList [VStr (u "Доступ из любого места");
               VStr (u "Экономия времени");
               VStr (u "Единая экосистема")]);
       (u "benefit_examples",
        VList [VStr (u "Работайте откуда угодно");
               VStr (u "Сосредоточьтесь на главном");
               VStr (u "Все инструменты под рукой")])]);
   (u "ecommerce",
    VDict [
       (u "feature_examples",
        VList [VStr (u "Быстрая доставка");
               VStr (u "Широкий ассортимент");
               VStr (u "Гарантия возврата")]);
       (u "advantage_examples",
        VList [VStr (u "Получение за 1-2 дня");
               VStr (u "Выбор из 10000+ товаров");
               VStr (u "30 дней на возврат")]);
       (u "benefit_examples",
        VList [VStr (u "Получите заказ уже завтра");
               VStr (u "Найдете именно то, что нужно");
               VStr (u "Покупайте без риска")])]);
   (u "services",
    VDict [
       (u "feature_examples",
        VList [VStr (u "Команда экспертов");
               VStr (u "Индивидуальный подход");
               VStr (u "Гарантия результата")]);
       (u "advantage_examples",
        VList [VStr (u "Опыт более 10 лет");
               VStr (u "Решение под ваши задачи");
               VStr (u "Ответственность за результат")]);
       (u "benefit_examples",
        VList [VStr (u "Доверьтесь профессионалам");
               VStr (u "Получите именно то, что нужно");
               VStr (u "Достигните целей с гарантией")])])].

(** [TEMPLATES.get(industry.lower(), TEMPLATES["services"])] *)
Definition get_template (rt : runtime) (industry : str) : result value :=
  match dict_lookup (u "services") TEMPLATES with
  | Some services => Ok (dict_get (lower rt industry) services TEMPLATES)
  | None => Raise (Exn KeyError (u "'services'"))
  end.

(** A website as two pages of the same site make it: [content] with
    [main_content] as its text. *)
Definition with_main_content (main_content : str) (content : dict) : dict :=
  dict_set (u "main_content") (VStr main_content) content.

End FAB.

(* ===================================================================== *)
(** ** ai/ai_generator.py: the analysis step                              *)
(* ===================================================================== *)

Module Analysis.
Import Py AIGenerator.

Definition analyze_with_fab (rt : runtime) (dict_slice : exn) (self : t)
    (website_data : dict) : result value :=
  let system_prompt := FAB.get_fab_prompt in
  bind (FAB.create_fab_analysis_prompt rt dict_slice website_data) (fun user_prompt =>
  generate_json rt self user_prompt (Some system_prompt)).

End Analysis.

(* ===================================================================== *)
(** ** web_app.py and main.py: the steps around the adapter and the       *)
(** ** tool server                                                        *)
(* ===================================================================== *)

Module WebApp.
Import Py.

(** The fields of [Settings] the authentication reads. *)
Record AuthSettings := {
  auth_enabled : bool;
  auth_username : str;
  auth_password : str
}.

(** [Settings()] with nothing set in the environment. *)
Definition default_auth : AuthSettings :=
  {| auth_enabled := false; auth_username := u "admin"; auth_password := [] |}.

(** [verify_password]: what it returns is [True], the user name, or
    [False]. *)
Definition verify_password (settings : AuthSettings) (username password : str) : value :=
  if negb (auth_enabled settings) then VBool true
  else if str_eqb username (auth_username settings)
          && str_eqb password (auth_password settings)
  then VStr username
  else match auth_password settings with
       | [] => VBool false
       | _ => VBool false
       end.

(** [for x in v]: the items of a list, the characters of a string, the
    keys of a dict; the other values cannot be iterated. *)
Definition iterate (v : value) : result (list value) :=
  match v with
  | VList l => Ok l
  | VStr s => Ok (map (fun c => VStr [c]) s)
  | VDict d => Ok (map (fun kv => VStr (fst kv)) d)
  | other => Raise (Exn TypeError (u "'" ++ type_name other ++ u "' object is not iterable"))
  end.

(** [kw.get('keyword', kw) if isinstance(kw, dict) else kw] *)
Definition keyword_text (kw : value) : value :=
  match kw with
  | VDict d => dict_get (u "keyword") kw d
  | _ => kw
  end.

(** The keyword list both [analyze] commands take from the result of
    [generate_keywords]. *)
Definition keywords_list (keywords_data : value) : result (list value) :=
  match keywords_data with
  | VDict d =>
    match dict_lookup (u "keywords") d with
    | Some keywords => bind (iterate keywords) (fun items => Ok (map keyword_text items))
    | None => Ok []
    end
  | _ => Ok []
  end.

(** [keywords_list[:20]], what [generate_google_ads] is called with. *)
Definition ads_keywords (keywords_data : value) : result (list value) :=
  bind (keywords_list keywords_data) (fun l => Ok (firstn 20 l)).

(** What a view function makes of the request at hand: the answer,
    with its status code, or an exception that leaves it. *)
Definition view : Type := result (value * Z).

(** The function behind [/api/google-ads/nlp], before it is decorated:
    the JSON body of the request and the construction of the tool
    server are given. Its handler is for [Exception]. *)
Definition nlp_body (rt : runtime)
    (request_json : result value) (GoogleAdsMCPServer : result GoogleAdsMCPServer.server)
  : view :=
  try_except
    (bind request_json (fun data =>
     bind (match data with
           | VDict d => Ok (dict_get (u "request") VNone d)
           | other => Raise (no_attribute other (u "get"))
           end) (fun request_text =>
     if negb (truthy rt request_text)
     then Ok (VDict [(u "success", VBool false);
                     (u "error", VStr (u "Request text is required"))], 400%Z)
     else
       bind GoogleAdsMCPServer (fun mcp =>
       bind (match request_text with
             | VStr text => GoogleAdsMCPServer.process_natural_language_request rt mcp text
             | other => Raise (no_attribute other (u "lower"))
             end) (fun result =>
       Ok (result, 200%Z))))))
    (fun e => Ok (VDict [(u "success", VBool false); (u "error", VStr (exn_msg e))], 500%Z)).

(** [require_auth]: the view decorated by [auth.login_required], which
    is the library's and is given, when authentication is on; the view
    itself when it is off. *)
Definition require_auth (settings : AuthSettings) (login_required : view -> view) (f : view)
  : view :=
  if auth_enabled settings then login_required f else f.

(** The endpoint [/api/google-ads/nlp]. *)
Definition google_ads_natural_language (rt : runtime) (settings : AuthSettings)
    (login_required : view -> view)
    (request_json : result value) (GoogleAdsMCPServer : result GoogleAdsMCPServer.server)
  : view :=
  require_auth settings login_required (nlp_body rt request_json GoogleAdsMCPServer).

(** What [auth.login_required] of Flask-HTTPAuth makes of a view on a
    request whose credentials [verify_password] refuses: the view is
    not run, and the answer is the text of the library with status 401.
    And on a request whose credentials are accepted: the view. *)
Definition refusing : view -> view :=
  fun _ => Ok (VStr (u "Unauthorized Access"), 401%Z).

Definition admitting : view -> view := fun f => f.

End WebApp.

(* ===================================================================== *)
(** * Properties                                                          *)
(* ===================================================================== *)

Module PyFacts.
Import Py.

Lemma str_eqb_refl a : str_eqb a a = true.
Proof. induction a as [|c a IH]; simpl; [reflexivity|]. now rewrite N.eqb_refl. Qed.

Lemma str_eqb_eq a b : str_eqb a b = true <-> a = b.
Proof.
  split; [|intros ->; apply str_eqb_refl].
  revert b. induction a as [|c a IH]; intros [|d b]; simpl; try discriminate; auto.
  intros H. apply andb_prop in H as [Hc Hs].
  apply N.eqb_eq in Hc. apply IH in Hs. congruence.
Qed.

Lemma startswith_app (p s : str) : startswith (p ++ s) p = true.
Proof.
  induction p as [|c p IH]; simpl; [reflexivity|].
  now rewrite N.eqb_refl, IH.
Qed.

Lemma endswith_app (s p : str) : endswith (s ++ p) p = true.
Proof. unfold endswith. rewrite rev_app_distr. apply startswith_app. Qed.

Lemma startswith_spec (s p : str) : startswith s p = true <-> exists t, s = p ++ t.
Proof.
  revert s. induction p as [|c p IH]; intros s; simpl.
  - split; [exists s; reflexivity|reflexivity].
  - destruct s as [|d s].
    + split; [discriminate|intros [t H]; discriminate].
    + rewrite andb_true_iff, N.eqb_eq, IH. split.
      * intros [-> [t ->]]. now exists t.
      * intros [t H]. injection H as -> ->. split; [reflexivity|now exists t].
Qed.

Lemma contains_spec (s x : str) :
  contains s x = true <-> exists pre post, s = pre ++ x ++ post.
Proof.
  induction s as [|c s IH].
  - simpl. rewrite orb_false_r, startswith_spec. split.
    + intros [t H]. now exists [], t.
    + intros (pre & post & H). destruct pre; [now exists post|discriminate].
  - cbn [contains]. rewrite orb_true_iff, startswith_spec, IH. split.
    + intros [[t H]|(pre & post & H)].
      * now exists [], t.
      * exists (c :: pre), post. now rewrite H.
    + intros (pre & post & H). destruct pre as [|d pre].
      * left. now exists post.
      * right. injection H as _ H. now exists pre, post.
Qed.

(** A string that lacks [b] lacks every string that ends with [b]. *)
Lemma contains_longer (s a b : str) :
  contains s b = false -> contains s (a ++ b) = false.
Proof.
  intros H. destruct (contains s (a ++ b)) eqn:E; [|reflexivity].
  apply contains_spec in E as (pre & post & E).
  enough (contains s b = true) by congruence.
  apply contains_spec. exists (pre ++ a), post. now rewrite E, <- !app_assoc.
Qed.

End PyFacts.

Module JsonFacts.
Import Py PyFacts Json.

#[local] Arguments is_digit : simpl never.
#[local] Arguments is_ws : simpl never.
#[local] Arguments isspace : simpl never.

(** Decides comparisons of code points met in the goal or a hypothesis,
    dropping the impossible cases as it goes. *)
Ltac split_tests :=
  repeat (match goal with
          | |- context [(?a =? ?b)%N] => destruct (N.eqb_spec a b)
          | |- context [(?a <=? ?b)%N] => destruct (N.leb_spec a b)
          | |- context [(?a <? ?b)%N] => destruct (N.ltb_spec a b)
          | H : context [(?a =? ?b)%N] |- _ => destruct (N.eqb_spec a b)
          | H : context [(?a <=? ?b)%N] |- _ => destruct (N.leb_spec a b)
          | H : context [(?a <? ?b)%N] |- _ => destruct (N.ltb_spec a b)
          end; try lia; cbn [andb orb negb] in *; try discriminate);
  try reflexivity.

(** Closes a goal about lengths of texts. *)
Ltac lengths :=
  repeat (progress (cbn [length app] in *; rewrite ?length_app in *)); lia.

Lemma edge_printable ch :
  (33 <= ch)%N -> (ch <= 126)%N -> ch <> 96%N -> ch <> 106%N -> edge ch = true.
Proof. intros. unfold edge, isspace. split_tests. Qed.

Lemma edge_digit ch : is_digit ch = true -> edge ch = true.
Proof.
  unfold is_digit. intros H. apply edge_printable; split_tests.
Qed.

Lemma ws_is_space ch : is_ws ch = true -> isspace ch = true.
Proof. unfold is_ws, isspace. intros H. split_tests. Qed.

Lemma edge_not_ws ch : edge ch = true -> is_ws ch = false.
Proof.
  intros H. destruct (is_ws ch) eqn:E; [|reflexivity].
  apply ws_is_space in E. unfold edge in H. rewrite E in H. discriminate.
Qed.

Lemma last_app_ne (a b : str) d : b <> [] -> last (a ++ b) d = last b d.
Proof.
  intros Hb. induction a as [|x a IH]; [reflexivity|].
  cbn [app]. destruct (a ++ b) eqn:E.
  - apply app_eq_nil in E as [_ E]. contradiction.
  - exact IH.
Qed.

Lemma last_cons_ne x (b : str) d : b <> [] -> last (x :: b) d = last b d.
Proof. intros Hb. apply (last_app_ne [x] b d Hb). Qed.

(** *** Whitespace *)

Lemma skip_ws_split s :
  exists w, s = w ++ skip_ws s /\ forallb is_ws w = true.
Proof.
  induction s as [|c s (w & E & Hw)]; [now exists []|].
  cbn [skip_ws]. destruct (is_ws c) eqn:Ec.
  - exists (c :: w). cbn. now rewrite Ec, <- E.
  - now exists [].
Qed.

Lemma skip_ws_head s x r : skip_ws s = x :: r -> is_ws x = false.
Proof.
  induction s as [|c s IH]; cbn [skip_ws]; [discriminate|].
  destruct (is_ws c) eqn:Ec; [exact IH|]. now intros [= <- _].
Qed.

Lemma skip_ws_app w x r :
  forallb is_ws w = true -> is_ws x = false -> skip_ws (w ++ x :: r) = x :: r.
Proof.
  intros Hw Hx. induction w as [|c w IH]; cbn.
  - now rewrite Hx.
  - cbn in Hw. apply andb_prop in Hw as [-> Hw]. auto.
Qed.

Lemma skip_ws_all w : forallb is_ws w = true -> skip_ws w = [].
Proof.
  induction w as [|c w IH]; [reflexivity|]. cbn.
  intros H. apply andb_prop in H as [-> H]. auto.
Qed.

Lemma skip_ws_nil_all s : skip_ws s = [] -> forallb is_ws s = true.
Proof.
  induction s as [|c s IH]; [reflexivity|]. cbn.
  destruct (is_ws c); [auto|discriminate].
Qed.

(** [skip_ws s = x :: r]: [s] is whitespace, then [x], then [r]; the
    same whitespace is skipped before [x] whatever follows. *)
Lemma skip_ws_inv s x r :
  skip_ws s = x :: r ->
  exists w, s = w ++ x :: r /\ forallb is_ws w = true /\ is_ws x = false.
Proof.
  intros H. destruct (skip_ws_split s) as (w & E & Hw).
  exists w. rewrite H in E. repeat split; auto. eapply skip_ws_head; eauto.
Qed.

Lemma number_follow_ws w x r :
  forallb is_ws w = true -> is_ws x = false ->
  is_digit x = false -> x <> 46%N -> x <> 101%N -> x <> 69%N ->
  number_follow (w ++ x :: r).
Proof.
  intros Hw Hx. destruct w as [|c w]; cbn; [auto|].
  cbn in Hw. apply andb_prop in Hw as [Hc _]. intros _ _ _ _.
  unfold is_ws, is_digit in *. repeat split; split_tests.
Qed.

(** *** Numbers *)

Lemma frac_follow_no_digit r : frac_follow r -> no_digit r.
Proof. destruct r; cbn; tauto. Qed.

Lemma exp_follow_no_digit r : exp_follow r -> no_digit r.
Proof. destruct r; cbn; tauto. Qed.

Lemma number_follow_exp r : number_follow r -> exp_follow r.
Proof. destruct r; cbn; tauto. Qed.

Lemma number_follow_frac r : number_follow r -> frac_follow r.
Proof. destruct r; cbn; tauto. Qed.

Lemma forallb_last (p : char -> bool) l d :
  forallb p l = true -> l <> [] -> p (last l d) = true.
Proof.
  induction l as [|x l IH]; [congruence|]. intros H _.
  cbn in H. apply andb_prop in H as [Hx Hl].
  destruct l as [|y l]; [exact Hx|]. apply IH; [exact Hl|discriminate].
Qed.

Lemma span_digits_split s ds r :
  span_digits s = (ds, r) -> s = ds ++ r /\ forallb is_digit ds = true.
Proof.
  revert ds r. induction s as [|c s IH]; intros ds r; cbn.
  - now intros [= <- <-].
  - destruct (is_digit c) eqn:Ec.
    + destruct (span_digits s) as [ds' r'] eqn:E. intros [= <- <-].
      destruct (IH ds' r' eq_refl) as [-> H]. cbn. now rewrite Ec.
    + now intros [= <- <-].
Qed.

Lemma span_digits_app ds r :
  forallb is_digit ds = true -> no_digit r -> span_digits (ds ++ r) = (ds, r).
Proof.
  intros Hds Hr. induction ds as [|c ds IH]; cbn.
  - destruct r as [|x r]; [reflexivity|]. cbn in *. now rewrite Hr.
  - cbn in Hds. apply andb_prop in Hds as [-> Hds]. now rewrite IH.
Qed.

Lemma match_integer_stable s lit r :
  match_integer s = Some (lit, r) ->
  s = lit ++ r /\
  (exists h m, lit = h :: m /\ (h = 45%N \/ is_digit h = true)) /\
  is_digit (last lit 0%N) = true /\
  forall r', no_digit r' -> match_integer (lit ++ r') = Some (lit, r').
Proof.
  unfold match_integer. destruct s as [|c t]; [discriminate|].
  destruct (N.eqb_spec c 45) as [->|Hc].
  - destruct t as [|d t]; [discriminate|].
    destruct (N.eqb_spec d 48) as [->|Hd].
    + intros [= <- <-]. repeat split; eauto.
    + destruct (is_digit d) eqn:Ed; [|discriminate].
      destruct (span_digits t) as [ds r0] eqn:E. intros [= <- <-].
      apply span_digits_split in E as [-> Hds].
      split; [reflexivity|]. split; [eauto|]. split.
      * cbn [app]. rewrite last_cons_ne by discriminate.
        apply forallb_last; [cbn; now rewrite Ed|discriminate].
      * intros r' Hr'. cbn. destruct (N.eqb_spec d 48); [contradiction|].
        rewrite Ed, span_digits_app by assumption. reflexivity.
  - destruct (N.eqb_spec c 48) as [->|Hd].
    + intros [= <- <-]. repeat split; eauto.
    + destruct (is_digit c) eqn:Ed; [|discriminate].
      destruct (span_digits t) as [ds r0] eqn:E. intros [= <- <-].
      apply span_digits_split in E as [-> Hds].
      split; [reflexivity|]. split; [eauto|]. split.
      * apply forallb_last; [cbn; now rewrite Ed|discriminate].
      * intros r' Hr'. cbn.
        destruct (N.eqb_spec c 45); [contradiction|].
        destruct (N.eqb_spec c 48); [contradiction|].
        rewrite Ed, span_digits_app by assumption. reflexivity.
Qed.

Lemma match_frac_stable s frac r :
  match_frac s = (frac, r) ->
  s = frac ++ r /\ group (fun h => h = 46%N) frac /\
  forall r', frac_follow r' -> match_frac (frac ++ r') = (frac, r').
Proof.
  unfold match_frac, group.
  assert (forall r', frac_follow r' -> match_frac r' = ([], r')) as Hnone.
  { intros [|x r'] H; [reflexivity|]. cbn in *. destruct H as [_ H].
    destruct (N.eqb_spec x 46); [contradiction|reflexivity]. }
  destruct s as [|c t]; [intros [= <- <-]; auto|].
  destruct (N.eqb_spec c 46) as [->|Hc]; [|intros [= <- <-]; auto].
  destruct (span_digits t) as [[|d ds] r0] eqn:E; [intros [= <- <-]; auto|].
  intros [= <- <-]. apply span_digits_split in E as [-> Hds].
  split; [reflexivity|]. split.
  - right. exists 46%N, (d :: ds). repeat split.
    rewrite last_cons_ne by discriminate. apply forallb_last; [exact Hds|discriminate].
  - intros r' Hr'%frac_follow_no_digit.
    cbn -[span_digits].
    pose proof (span_digits_app (d :: ds) r' Hds Hr') as E. cbn [app] in E.
    rewrite E. reflexivity.
Qed.

Lemma digit_not_sign d : is_digit d = true -> ((d =? 45) || (d =? 43))%N = false.
Proof. unfold is_digit. intros H. split_tests. Qed.

Lemma match_exp_stable s exp r :
  match_exp s = (exp, r) ->
  s = exp ++ r /\ group (fun h => h = 101%N \/ h = 69%N) exp /\
  forall r', exp_follow r' -> match_exp (exp ++ r') = (exp, r').
Proof.
  unfold group.
  assert (forall r', exp_follow r' -> match_exp r' = ([], r')) as Hnone.
  { intros [|x r'] H; [reflexivity|]. cbn in *. destruct H as (_ & H1 & H2).
    destruct (N.eqb_spec x 101); [contradiction|].
    destruct (N.eqb_spec x 69); [contradiction|reflexivity]. }
  unfold match_exp at 1.
  destruct s as [|e t]; [intros [= <- <-]; auto|].
  destruct ((e =? 101) || (e =? 69))%N eqn:Ee; [|intros [= <- <-]; auto].
  assert (e = 101%N \/ e = 69%N) as He.
  { apply orb_prop in Ee as [H|H]; apply N.eqb_eq in H; auto. }
  destruct t as [|c t].
  - cbn. intros [= <- <-]. auto.
  - destruct ((c =? 45) || (c =? 43))%N eqn:Ec.
    + destruct (span_digits t) as [[|d ds] r0] eqn:E; [intros [= <- <-]; auto|].
      intros [= <- <-]. apply span_digits_split in E as [-> Hds].
      split; [reflexivity|]. split.
      * right. exists e, ([c] ++ d :: ds). repeat split; [exact He|].
        cbn [app]. rewrite !last_cons_ne by discriminate.
        apply forallb_last; [exact Hds|discriminate].
      * intros r' Hr'%exp_follow_no_digit. unfold match_exp.
        cbn -[span_digits N.eqb orb]. rewrite Ee, Ec.
        pose proof (span_digits_app (d :: ds) r' Hds Hr') as E. cbn [app] in E.
        rewrite E. reflexivity.
    + destruct (span_digits (c :: t)) as [[|d ds] r0] eqn:E; [intros [= <- <-]; auto|].
      intros [= <- <-]. apply span_digits_split in E as [E Hds].
      cbn [app] in E. injection E as -> ->.
      split; [reflexivity|]. split.
      * right. exists e, (d :: ds). repeat split; [exact He|].
        cbn [app]. rewrite !last_cons_ne by discriminate.
        apply forallb_last; [exact Hds|discriminate].
      * intros r' Hr'%exp_follow_no_digit. unfold match_exp.
        cbn -[span_digits N.eqb orb]. rewrite Ee, Ec.
        pose proof (span_digits_app (d :: ds) r' Hds Hr') as E. cbn [app] in E.
        rewrite E. reflexivity.
Qed.

Lemma group_follow {first} (P : str -> Prop) lit r :
  group first lit ->
  (forall h m, first h -> P (h :: m)) -> P r -> P (lit ++ r).
Proof.
  intros [->|(h & m & -> & Hh & _)] Hfirst Hr; [exact Hr|]. now apply Hfirst.
Qed.

Lemma group_last {first} a lit :
  is_digit (last a 0%N) = true -> group first lit ->
  is_digit (last (a ++ lit) 0%N) = true.
Proof.
  intros Ha [->|(h & m & -> & _ & Hl)]; [now rewrite app_nil_r|].
  now rewrite last_app_ne by discriminate.
Qed.

Lemma match_number_stable s v r :
  match_number s = Some (v, r) ->
  exists c,
    s = c ++ r /\
    (exists h m, c = h :: m /\ (h = 45%N \/ is_digit h = true)) /\
    is_digit (last c 0%N) = true /\
    forall r', number_follow r' -> match_number (c ++ r') = Some (v, r').
Proof.
  unfold match_number at 1.
  destruct (match_integer s) as [[integer r1]|] eqn:Ei; [|discriminate].
  destruct (match_frac r1) as [frac r2] eqn:Ef.
  destruct (match_exp r2) as [exp r3] eqn:Ee.
  apply match_integer_stable in Ei as (-> & (h & m & -> & Hh) & Hlast & Hi).
  apply match_frac_stable in Ef as (-> & Hfrac & Hf).
  apply match_exp_stable in Ee as (-> & Hexp & He).
  intros Hv. exists ((h :: m) ++ frac ++ exp).
  split; [|split; [|split]].
  - destruct frac, exp; injection Hv as <- <-.
    all: now rewrite <- !app_assoc.
  - exists h, (m ++ frac ++ exp). split; [reflexivity|exact Hh].
  - rewrite app_assoc. apply group_last with (2 := Hexp).
    now apply group_last with (2 := Hfrac).
  - intros r' Hr'. unfold match_number. rewrite <- !app_assoc.
    rewrite Hi, Hf, (He r' (number_follow_exp r' Hr')).
    + destruct frac, exp; injection Hv as <- _; reflexivity.
    + apply (group_follow frac_follow exp r' Hexp).
      * intros x y [->| ->]; cbn; split; [reflexivity|discriminate|reflexivity|discriminate].
      * now apply number_follow_frac.
    + apply (group_follow no_digit frac _ Hfrac).
      * intros x y ->. reflexivity.
      * apply (group_follow no_digit exp r' Hexp).
        -- intros x y [->| ->]; reflexivity.
        -- now apply exp_follow_no_digit, number_follow_exp.
Qed.

Lemma literal_stable word v s out r :
  literal word v s = Some (out, r) ->
  s = word ++ r /\ out = v /\ forall r', literal word v (word ++ r') = Some (v, r').
Proof.
  unfold literal. destruct (startswith s word) eqn:E; [|discriminate].
  intros [= <- <-]. apply startswith_spec in E as [t ->].
  rewrite skipn_app, skipn_all, Nat.sub_diag. cbn [skipn app].
  repeat split. intros r'.
  now rewrite startswith_app, skipn_app, skipn_all, Nat.sub_diag.
Qed.

(** *** Strings *)

Lemma decode_uXXXX_inv s uni r :
  decode_uXXXX s = Some (uni, r) ->
  exists a b c d,
    s = a :: b :: c :: d :: r /\
    forall r', decode_uXXXX (a :: b :: c :: d :: r') = Some (uni, r').
Proof.
  destruct s as [|a [|b [|c [|d t]]]]; try discriminate. cbn [decode_uXXXX].
  destruct (hex_value a) eqn:Ea, (hex_value b) eqn:Eb, (hex_value c) eqn:Ec,
    (hex_value d) eqn:Ed; try discriminate.
  intros [= <- <-]. exists a, b, c, d. split; [reflexivity|].
  intros r'. cbn [decode_uXXXX]. now rewrite Ea, Eb, Ec, Ed.
Qed.

Lemma add_char_inv ch o k r :
  add_char ch o = Some (k, r) -> exists k', o = Some (k', r) /\ k = ch :: k'.
Proof.
  destruct o as [[k' r']|]; [|discriminate]. intros [= <- <-]. eauto.
Qed.

Lemma add_char_some ch o k r :
  o = Some (k, r) -> add_char ch o = Some (ch :: k, r).
Proof. now intros ->. Qed.

(** A consumed string body is never a lone backslash, so whether it
    starts with [\u] does not depend on what follows it. *)
Lemma stable_string_head c k r r' :
  stable scanstring anything c k -> c <> [] ->
  startswith (c ++ r) [92; 117]%N = startswith (c ++ r') [92; 117]%N.
Proof.
  intros Hst Hc. destruct c as [|x0 [|x1 c']]; [congruence| |reflexivity].
  cbn [app startswith]. destruct (N.eqb_spec 92 x0) as [<-|]; [|reflexivity].
  specialize (Hst 1 [] (le_n 1) I). discriminate.
Qed.

(** A consumed string body that starts with a [\u] escape holds the
    whole escape. *)
Lemma stable_string_escape c k r a b cc d t :
  stable scanstring anything c k -> c <> [] ->
  c ++ r = 92%N :: 117%N :: a :: b :: cc :: d :: t ->
  exists c', c = 92%N :: 117%N :: a :: b :: cc :: d :: c'.
Proof.
  intros Hst Hc E.
  destruct c as [|x0 [|x1 [|x2 [|x3 [|x4 [|x5 c']]]]]]; [congruence| | | | | |];
    cbn [app] in E;
    try (injection E as -> -> -> -> -> ->; eauto; fail);
    exfalso.
  - injection E as -> _. specialize (Hst 6 [] ltac:(cbn; lia) I). discriminate.
  - injection E as -> -> _. specialize (Hst 6 [] ltac:(cbn; lia) I). discriminate.
  - injection E as -> -> -> _. specialize (Hst 6 [] ltac:(cbn; lia) I). discriminate.
  - injection E as -> -> -> -> _. specialize (Hst 6 [] ltac:(cbn; lia) I). discriminate.
  - injection E as -> -> -> -> -> _. specialize (Hst 6 [] ltac:(cbn; lia) I). discriminate.
Qed.

Lemma scanstring_stable f s k r :
  scanstring f s = Some (k, r) ->
  exists c, s = c ++ r /\ c <> [] /\ last c 0%N = 34%N /\ stable scanstring anything c k.
Proof.
  revert s k r. induction f as [|f IH]; intros s k r; [discriminate|].
  destruct s as [|c t]; [discriminate|]. cbn [scanstring].
  destruct (N.eqb_spec c 34) as [->|Hq].
  { intros [= <- <-]. exists [34%N]. repeat split; [discriminate|].
    intros [|f'] r' Hf' _; [exfalso; lengths|reflexivity]. }
  destruct (N.eqb_spec c 92) as [->|Hb].
  - destruct t as [|esc t1]; [discriminate|].
    destruct (N.eqb_spec esc 117) as [->|Hu].
    + destruct (decode_uXXXX t1) as [[uni t2]|] eqn:Ed; [|discriminate].
      apply decode_uXXXX_inv in Ed as (a & b & cc & d & -> & Hd).
      destruct ((55296 <=? uni) && (uni <=? 56319) && startswith t2 [92; 117])%N eqn:Ehi.
      * apply andb_prop in Ehi as [Ehi Esw].
        apply startswith_spec in Esw as [t2' ->]. cbn [app skipn].
        destruct (decode_uXXXX t2') as [[uni2 t3]|] eqn:Ed2; [|discriminate].
        apply decode_uXXXX_inv in Ed2 as (a' & b' & c' & d' & -> & Hd2).
        destruct ((56320 <=? uni2) && (uni2 <=? 57343))%N eqn:Elo.
        -- intros (k' & Hk & ->)%add_char_inv.
           apply IH in Hk as (c3 & -> & Hc3 & Hl3 & Hs3).
           exists ([92; 117; a; b; cc; d; 92; 117; a'; b'; c'; d']%N ++ c3).
           split; [reflexivity|]. split; [discriminate|].
           split; [now rewrite last_app_ne|].
           intros [|f'] r' Hf' _; [exfalso; lengths|].
           rewrite <- app_assoc. cbn [app scanstring N.eqb Pos.eqb].
           rewrite Hd, Ehi. cbn [startswith N.eqb Pos.eqb andb skipn].
           rewrite Hd2, Elo, Hs3; [reflexivity| |exact I].
           lengths.
        -- intros (k' & Hk & ->)%add_char_inv.
           apply IH in Hk as (c2 & E2 & Hc2 & Hl2 & Hs2).
           destruct (stable_string_escape c2 k' r _ _ _ _ _ Hs2 Hc2 (eq_sym E2))
             as (c2' & ->).
           exists ([92; 117; a; b; cc; d]%N ++ 92%N :: 117%N :: a' :: b' :: c' :: d' :: c2').
           cbn [app] in E2. injection E2 as ->.
           split; [reflexivity|]. split; [discriminate|].
           split; [now rewrite last_app_ne|].
           intros [|f'] r' Hf' _; [exfalso; lengths|].
           rewrite <- app_assoc. cbn [app scanstring N.eqb Pos.eqb].
           rewrite Hd, Ehi. cbn [startswith N.eqb Pos.eqb andb skipn].
           rewrite Hd2, Elo.
           apply add_char_some, (Hs2 f' r'); [lengths|exact I].
      * intros (k' & Hk & ->)%add_char_inv.
        apply IH in Hk as (c2 & -> & Hc2 & Hl2 & Hs2).
        exists ([92; 117; a; b; cc; d]%N ++ c2).
        split; [reflexivity|]. split; [discriminate|].
        split; [now rewrite last_app_ne|].
        intros [|f'] r' Hf' _; [exfalso; lengths|].
        rewrite <- app_assoc. cbn [app scanstring N.eqb Pos.eqb].
        rewrite Hd, <- (stable_string_head c2 k' r r' Hs2 Hc2), Ehi.
        rewrite Hs2; [reflexivity| |exact I].
        lengths.
    + destruct (BACKSLASH esc) as [ch|] eqn:Eb; [|discriminate].
      intros (k' & Hk & ->)%add_char_inv.
      apply IH in Hk as (c1 & -> & Hc1 & Hl1 & Hs1).
      exists ([92%N; esc] ++ c1).
      split; [reflexivity|]. split; [discriminate|].
      split; [now rewrite last_app_ne|].
      intros [|f'] r' Hf' _; [exfalso; lengths|].
      rewrite <- app_assoc. cbn [app scanstring N.eqb Pos.eqb].
      destruct (N.eqb_spec esc 117); [contradiction|].
      rewrite Eb, Hs1; [reflexivity| |exact I].
      lengths.
  - destruct (c <? 32)%N eqn:Ectl; [discriminate|].
    intros (k' & Hk & ->)%add_char_inv.
    apply IH in Hk as (c1 & -> & Hc1 & Hl1 & Hs1).
    exists ([c] ++ c1).
    split; [reflexivity|]. split; [discriminate|].
    split; [now rewrite last_app_ne|].
    intros [|f'] r' Hf' _; [exfalso; lengths|].
    cbn [app scanstring].
    destruct (N.eqb_spec c 34); [contradiction|].
    destruct (N.eqb_spec c 92); [contradiction|].
    rewrite Ectl, Hs1; [reflexivity| |exact I].
    lengths.
Qed.

(** *** Values *)

Lemma value_ok_ne c : value_ok c -> c <> [].
Proof. intros (h & m & -> & _). discriminate. Qed.

Lemma skip_ws_value w c r :
  forallb is_ws w = true -> value_ok c -> skip_ws (w ++ c ++ r) = c ++ r.
Proof.
  intros Hw (h & m & -> & Hh & _). cbn [app].
  apply skip_ws_app; [exact Hw|now apply edge_not_ws].
Qed.

Lemma follow_delimiter w x r :
  forallb is_ws w = true -> x = 93%N \/ x = 44%N \/ x = 125%N ->
  number_follow (w ++ x :: r).
Proof.
  intros Hw Hx. apply number_follow_ws; [exact Hw|..];
    destruct Hx as [->|[->| ->]]; first [reflexivity|discriminate].
Qed.

Lemma skip_ws_delimiter w x r :
  forallb is_ws w = true -> x = 93%N \/ x = 44%N \/ x = 125%N \/ x = 58%N \/ x = 34%N ->
  skip_ws (w ++ x :: r) = x :: r.
Proof.
  intros Hw Hx. apply skip_ws_app; [exact Hw|].
  destruct Hx as [->|[->|[->|[->| ->]]]]; reflexivity.
Qed.

Lemma match_number_letter h t :
  h <> 45%N -> is_digit h = false -> match_number (h :: t) = None.
Proof.
  intros Hm Hd. unfold match_number, match_integer.
  destruct (N.eqb_spec h 45); [contradiction|].
  destruct (N.eqb_spec h 48) as [->|]; [discriminate|]. now rewrite Hd.
Qed.

Lemma literal_other word v h t :
  hd h word <> h -> word <> [] -> literal word v (h :: t) = None.
Proof.
  intros Hh Hw. unfold literal. destruct word as [|w0 word]; [congruence|].
  cbn [startswith hd] in *. destruct (N.eqb_spec w0 h); [contradiction|reflexivity].
Qed.

Lemma first_of_inv {A} (a b : option A) x :
  first_of a b = Some x -> a = Some x \/ (a = None /\ b = Some x).
Proof. destruct a; cbn; intros H; [left|right]; auto. Qed.

Lemma value_ok_concrete h m :
  edge h = true -> edge (last (h :: m) 0%N) = true -> value_ok (h :: m).
Proof. intros. now exists h, m. Qed.

(** The constants [null], [true], [false], [NaN], [Infinity] and
    [-Infinity]: read the same whatever follows. *)
Ltac constant_case :=
  match goal with
  | H : literal ?word _ _ = Some _ |- _ =>
    apply literal_stable in H as (-> & -> & _);
    exists word; split; [reflexivity|]; split;
    [apply value_ok_concrete; reflexivity|];
    intros [|f'] r' Hf' _; [exfalso; lengths|]; vm_compute; reflexivity
  end.

(** Rewrites with what [H] says of the consumed text followed by [r]. *)
Ltac by_stable H f r :=
  let E := fresh "E" in
  pose proof (H f r) as E; cbn [app] in E; rewrite E; [|lengths|try exact I].

Lemma converted_inv rt x y : converted rt x = Parsed y -> y = x.
Proof.
  unfold converted. destruct (fst x); try (intros [= <-]; reflexivity).
  destruct (int_max_str_digits rt) as [limit|]; [|intros [= <-]; reflexivity].
  destruct (limit <? int_digits z); [discriminate|intros [= <-]; reflexivity].
Qed.

Lemma converted_again rt v r r' :
  converted rt (v, r) = Parsed (v, r) -> converted rt (v, r') = Parsed (v, r').
Proof.
  unfold converted. cbn [fst]. destruct v; try reflexivity.
  destruct (int_max_str_digits rt) as [limit|]; [|reflexivity].
  destruct (limit <? int_digits z); [discriminate|reflexivity].
Qed.

Section Values.
Variable rt : runtime.

Lemma scan_step f : items_spec rt f -> members_spec rt f -> scan_spec rt (S f).
Proof.
  intros IHitems IHmembers depth s v r. destruct s as [|c t]; [discriminate|].
  cbn [scan_once].
  destruct (N.eqb_spec c 34) as [->|Hq].
  { (* a string *)
    destruct (scanstring f t) as [[k r0]|] eqn:Es; [|discriminate].
    intros [= <- <-].
    apply scanstring_stable in Es as (c1 & -> & Hc1 & Hl1 & Hs1).
    exists (34%N :: c1). split; [reflexivity|]. split.
    - apply value_ok_concrete; [reflexivity|].
      rewrite last_cons_ne, Hl1 by assumption. reflexivity.
    - intros [|f'] r' Hf' _; [exfalso; lengths|].
      cbn [app scan_once N.eqb Pos.eqb].
      by_stable Hs1 f' r'. reflexivity. }
  destruct (N.eqb_spec c 123) as [->|Ho].
  { (* an object *)
    destruct depth as [|deeper]; [discriminate|].
    destruct (skip_ws t) as [|d t1] eqn:Ew; [discriminate|].
    apply skip_ws_inv in Ew as (w & -> & Hw & Hd).
    destruct (N.eqb_spec d 125) as [->|Hc].
    - intros [= <- <-]. exists (123%N :: w ++ [125%N]).
      split; [now rewrite <- app_comm_cons, <- app_assoc|]. split.
      + apply value_ok_concrete; [reflexivity|].
        rewrite last_cons_ne, last_app_ne; [reflexivity|discriminate|].
        destruct w; discriminate.
      + intros [|f'] r' Hf' _; [exfalso; lengths|].
        rewrite <- app_comm_cons, <- app_assoc. cbn [app scan_once N.eqb Pos.eqb].
        rewrite skip_ws_delimiter by auto. reflexivity.
    - destruct (N.eqb_spec d 34) as [->|]; [|discriminate].
      destruct (object_members rt f deeper t1) as [[pairs r0]| |e] eqn:Em;
        try discriminate.
      intros [= <- <-].
      apply IHmembers in Em as (c1 & -> & Hc1 & Hl1 & Hs1).
      exists (123%N :: w ++ 34%N :: c1).
      split; [now rewrite <- app_comm_cons, <- app_assoc|]. split.
      + apply value_ok_concrete; [reflexivity|].
        rewrite last_cons_ne, last_app_ne, last_cons_ne, Hl1;
          [reflexivity|assumption|discriminate|].
        destruct w; discriminate.
      + intros [|f'] r' Hf' _; [exfalso; lengths|].
        rewrite <- app_comm_cons, <- app_assoc. cbn [app scan_once N.eqb Pos.eqb].
        rewrite skip_ws_delimiter by auto 6. cbn [N.eqb Pos.eqb].
        by_stable Hs1 f' r'. reflexivity. }
  destruct (N.eqb_spec c 91) as [->|Ha].
  { (* an array *)
    destruct depth as [|deeper]; [discriminate|].
    destruct (skip_ws t) as [|d t1] eqn:Ew; [discriminate|].
    apply skip_ws_inv in Ew as (w & -> & Hw & Hd).
    destruct (N.eqb_spec d 93) as [->|Hc].
    - intros [= <- <-]. exists (91%N :: w ++ [93%N]).
      split; [now rewrite <- app_comm_cons, <- app_assoc|]. split.
      + apply value_ok_concrete; [reflexivity|].
        rewrite last_cons_ne, last_app_ne; [reflexivity|discriminate|].
        destruct w; discriminate.
      + intros [|f'] r' Hf' _; [exfalso; lengths|].
        rewrite <- app_comm_cons, <- app_assoc. cbn [app scan_once N.eqb Pos.eqb].
        rewrite skip_ws_delimiter by auto. reflexivity.
    - destruct (array_items rt f deeper (d :: t1)) as [[values r0]| |e] eqn:Ei;
        try discriminate.
      intros [= <- <-].
      apply IHitems in Ei as (c1 & E1 & Hc1 & Hl1 & Hs1).
      destruct c1 as [|d' c1]; [congruence|]. cbn [app] in E1. injection E1 as <- ->.
      exists (91%N :: w ++ d :: c1).
      split; [now rewrite <- app_comm_cons, <- app_assoc|]. split.
      + apply value_ok_concrete; [reflexivity|].
        rewrite last_cons_ne, last_app_ne, Hl1; [reflexivity|discriminate|].
        destruct w; discriminate.
      + intros [|f'] r' Hf' _; [exfalso; lengths|].
        rewrite <- app_comm_cons, <- app_assoc. cbn [app scan_once N.eqb Pos.eqb].
        rewrite skip_ws_app by assumption.
        destruct (N.eqb_spec d 93); [contradiction|].
        by_stable Hs1 f' r'. reflexivity. }
  (* constants and numbers *)
  destruct (first_of (literal (u "null") VNone (c :: t))
              (first_of (literal (u "true") (VBool true) (c :: t))
                        (literal (u "false") (VBool false) (c :: t))))
    as [constant|] eqn:H.
  { intros [= ->].
    apply first_of_inv in H as [H|[_ H]]; [constant_case|].
    apply first_of_inv in H as [H|[_ H]]; constant_case. }
  destruct (match_number (c :: t)) as [number|] eqn:En.
  { destruct number as [v0 r0]. intros Hconv.
    pose proof (converted_inv _ _ _ Hconv) as E0. injection E0 as <- <-.
    apply match_number_stable in En as (c1 & E & (h & m & -> & Hh) & Hl & Hs).
    cbn [app] in E. injection E as -> ->.
    exists (h :: m). split; [reflexivity|]. split.
    - apply value_ok_concrete; [|now apply edge_digit].
      destruct Hh as [->|Hh]; [reflexivity|now apply edge_digit].
    - intros [|f'] r' Hf' Hr'; [exfalso; lengths|].
      cbn [app scan_once].
      destruct (N.eqb_spec h 34); [contradiction|].
      destruct (N.eqb_spec h 123); [contradiction|].
      destruct (N.eqb_spec h 91); [contradiction|].
      rewrite (literal_other (u "null")), (literal_other (u "true")),
        (literal_other (u "false"));
        try discriminate;
        try (cbn [hd]; destruct Hh as [->|Hh]; [discriminate|];
             intros <-; discriminate).
      cbn [first_of]. pose proof (Hs r' Hr') as E. cbn [app] in E. rewrite E.
      now apply converted_again with (r := r). }
  unfold of_option.
  destruct (first_of (literal (u "NaN") (VFloat (u "NaN")) (c :: t))
              (first_of (literal (u "Infinity") (VFloat (u "Infinity")) (c :: t))
                        (literal (u "-Infinity") (VFloat (u "-Infinity")) (c :: t))))
    as [constant|] eqn:H'; [|discriminate].
  intros [= ->].
  apply first_of_inv in H' as [H'|[_ H']]; [constant_case|].
  apply first_of_inv in H' as [H'|[_ H']]; constant_case.
Qed.

(** Brings concatenations to the form [a ++ b ++ x :: c ++ ...]. *)
Ltac reassoc := repeat (progress (rewrite <- ?app_assoc; cbn [app])).

(** Proves that a text with a visible character is not empty. *)
Ltac not_empty := intros E; apply (f_equal (@length N)) in E; lengths.

(** Moves [last] to the final piece of a concatenation. *)
Ltac to_last :=
  repeat first [rewrite last_app_ne by not_empty | rewrite last_cons_ne by not_empty].

Lemma items_step f : scan_spec rt f -> items_spec rt f -> items_spec rt (S f).
Proof.
  intros IHscan IHitems depth s vs r. cbn [array_items].
  destruct (scan_once rt f depth s) as [[v r1]| |e] eqn:Ev; try discriminate.
  apply IHscan in Ev as (c1 & -> & Hok1 & Hs1).
  destruct (skip_ws r1) as [|d r2] eqn:Ew; [discriminate|].
  apply skip_ws_inv in Ew as (w & -> & Hw & Hd).
  destruct (N.eqb_spec d 93) as [->|Hc].
  - intros [= <- <-]. exists (c1 ++ w ++ [93%N]).
    split; [now reassoc|]. split; [not_empty|].
    split; [now to_last|].
    intros [|f'] r' Hf' _; [exfalso; lengths|].
    reassoc. cbn [array_items].
    by_stable Hs1 f' (w ++ 93%N :: r'); [|apply follow_delimiter; auto].
    rewrite skip_ws_delimiter by auto. reflexivity.
  - destruct (N.eqb_spec d 44) as [->|]; [|discriminate].
    destruct (array_items rt f depth (skip_ws r2)) as [[values r3]| |e] eqn:Ei;
      try discriminate.
    intros [= <- <-].
    destruct (skip_ws_split r2) as (w2 & E2 & Hw2).
    apply IHitems in Ei as (c2 & Ec2 & Hc2 & Hl2 & Hs2).
    destruct c2 as [|x c2]; [congruence|].
    pose proof (skip_ws_head r2 x (c2 ++ r3) Ec2) as Hx.
    rewrite Ec2 in E2. subst r2.
    exists (c1 ++ w ++ 44%N :: w2 ++ x :: c2).
    split; [now reassoc|].
    split; [not_empty|]. split; [now to_last|].
    intros [|f'] r' Hf' _; [exfalso; lengths|].
    reassoc. cbn [array_items].
    by_stable Hs1 f' (w ++ 44%N :: w2 ++ x :: c2 ++ r'); [|apply follow_delimiter; auto].
    rewrite skip_ws_delimiter by auto. cbn [N.eqb Pos.eqb].
    rewrite skip_ws_app by assumption.
    by_stable Hs2 f' r'. reflexivity.
Qed.

Lemma members_step f : scan_spec rt f -> members_spec rt f -> members_spec rt (S f).
Proof.
  intros IHscan IHmembers depth s ps r. cbn [object_members].
  destruct (scanstring f s) as [[key r0]|] eqn:Ek; [|discriminate].
  apply scanstring_stable in Ek as (ck & -> & Hck & Hlk & Hsk).
  destruct (skip_ws r0) as [|colon r1] eqn:E0; [discriminate|].
  apply skip_ws_inv in E0 as (w0 & -> & Hw0 & _).
  destruct (N.eqb_spec colon 58) as [->|]; [|discriminate].
  destruct (scan_once rt f depth (skip_ws r1)) as [[v r2]| |e] eqn:Ev; try discriminate.
  destruct (skip_ws_split r1) as (w1 & E1 & Hw1).
  apply IHscan in Ev as (cv & Ecv & Hokv & Hsv).
  rewrite Ecv in E1. subst r1.
  destruct (skip_ws r2) as [|d r3] eqn:E2; [discriminate|].
  apply skip_ws_inv in E2 as (w2 & -> & Hw2 & _).
  destruct (N.eqb_spec d 125) as [->|Hc].
  - intros [= <- <-].
    exists (ck ++ w0 ++ 58%N :: w1 ++ cv ++ w2 ++ [125%N]).
    split; [now reassoc|].
    split; [not_empty|]. split; [now to_last|].
    intros [|f'] r' Hf' _; [exfalso; lengths|].
    reassoc. cbn [object_members].
    by_stable Hsk f' (w0 ++ 58%N :: w1 ++ cv ++ w2 ++ 125%N :: r').
    rewrite skip_ws_delimiter by auto 6. cbn [N.eqb Pos.eqb].
    rewrite skip_ws_value by assumption.
    by_stable Hsv f' (w2 ++ 125%N :: r'); [|apply follow_delimiter; auto].
    rewrite skip_ws_delimiter by auto. reflexivity.
  - destruct (N.eqb_spec d 44) as [->|]; [|discriminate].
    destruct (skip_ws r3) as [|q r4] eqn:E3; [discriminate|].
    apply skip_ws_inv in E3 as (w3 & -> & Hw3 & _).
    destruct (N.eqb_spec q 34) as [->|]; [|discriminate].
    destruct (object_members rt f depth r4) as [[pairs r5]| |e] eqn:Em; try discriminate.
    intros [= <- <-].
    apply IHmembers in Em as (cm & -> & Hcm & Hlm & Hsm).
    destruct cm as [|x cm]; [congruence|].
    exists (ck ++ w0 ++ 58%N :: w1 ++ cv ++ w2 ++ 44%N :: w3 ++ 34%N :: x :: cm).
    split; [now reassoc|].
    split; [not_empty|]. split; [now to_last|].
    intros [|f'] r' Hf' _; [exfalso; lengths|].
    reassoc. cbn [object_members].
    by_stable Hsk f' (w0 ++ 58%N :: w1 ++ cv ++ w2 ++ 44%N :: w3 ++ 34%N :: x :: cm ++ r').
    rewrite skip_ws_delimiter by auto 6. cbn [N.eqb Pos.eqb].
    rewrite skip_ws_value by assumption.
    by_stable Hsv f' (w2 ++ 44%N :: w3 ++ 34%N :: x :: cm ++ r');
      [|apply follow_delimiter; auto].
    rewrite skip_ws_delimiter by auto. cbn [N.eqb Pos.eqb].
    rewrite skip_ws_delimiter by auto 6. cbn [N.eqb Pos.eqb].
    by_stable Hsm f' r'. reflexivity.
Qed.

Lemma scan_all f : scan_spec rt f /\ items_spec rt f /\ members_spec rt f.
Proof.
  induction f as [|f (IHscan & IHitems & IHmembers)].
  - repeat split; intros depth s x r; discriminate.
  - split; [|split].
    + now apply scan_step.
    + now apply items_step.
    + now apply members_step.
Qed.




End Values.

End JsonFacts.

Module ExtractionFacts.
Import Py PyFacts Json JsonFacts AIGenerator.

#[local] Arguments isspace : simpl never.
#[local] Arguments is_ws : simpl never.

(** *** [strip] *)

Lemma lstrip_spaces w s : forallb isspace w = true -> lstrip (w ++ s) = lstrip s.
Proof.
  induction w as [|c w IH]; [reflexivity|]. cbn.
  intros H. apply andb_prop in H as [-> H]. auto.
Qed.

Lemma lstrip_visible h m : isspace h = false -> lstrip (h :: m) = h :: m.
Proof. intros H. cbn. now rewrite H. Qed.

(** Stripping on the left stops at the first visible character. *)
Lemma lstrip_app a h m :
  isspace h = false -> lstrip (a ++ h :: m) = lstrip a ++ h :: m.
Proof.
  intros H. induction a as [|c a IH]; cbn; [now rewrite H|].
  destruct (isspace c); [exact IH|reflexivity].
Qed.

Lemma lstrip_suffix s : exists w, s = w ++ lstrip s.
Proof.
  induction s as [|c s [w E]]; [now exists []|]. cbn.
  destruct (isspace c); [|now exists []].
  exists (c :: w). cbn. now rewrite <- E.
Qed.

Lemma rstrip_prefix s : exists w, s = rstrip s ++ w.
Proof.
  unfold rstrip. destruct (lstrip_suffix (rev s)) as [w E].
  exists (rev w). rewrite <- rev_app_distr, <- E. now rewrite rev_involutive.
Qed.

Lemma forallb_rev (p : N -> bool) l : forallb p (rev l) = forallb p l.
Proof.
  induction l as [|x l IH]; [reflexivity|]. cbn.
  rewrite forallb_app, IH. cbn. rewrite andb_true_r. apply andb_comm.
Qed.

(** Stripping on the right stops at the last visible character. *)
Lemma rstrip_app m h b :
  isspace h = false -> rstrip (m ++ h :: b) = m ++ h :: rstrip b.
Proof.
  intros H. unfold rstrip. rewrite rev_app_distr. cbn [rev].
  rewrite <- app_assoc. cbn [app].
  rewrite lstrip_app by assumption.
  rewrite rev_app_distr. cbn [rev]. rewrite rev_involutive, <- app_assoc. reflexivity.
Qed.

Lemma rstrip_spaces w : forallb isspace w = true -> rstrip w = [].
Proof.
  intros H. unfold rstrip.
  rewrite <- (app_nil_r (rev w)), lstrip_spaces; [reflexivity|].
  now rewrite forallb_rev.
Qed.

(** A text written as [front ++ [x] ++ back] with [x] its last visible
    character. *)
Lemma split_last (c : str) d : c <> [] -> c = removelast c ++ [last c d].
Proof. intros H. now apply app_removelast_last. Qed.

(** [strip] removes the spaces around a text with visible ends. *)
Lemma strip_around w1 c w2 :
  forallb isspace w1 = true -> forallb isspace w2 = true ->
  c <> [] -> isspace (hd 0%N c) = false -> isspace (last c 0%N) = false ->
  strip (w1 ++ c ++ w2) = c.
Proof.
  intros H1 H2 Hc Hh Hl. unfold strip.
  rewrite lstrip_spaces by assumption.
  assert (lstrip (c ++ w2) = c ++ w2) as ->.
  { destruct c as [|h m]; [congruence|]. cbn [hd] in Hh. cbn. now rewrite Hh. }
  rewrite (split_last c 0%N Hc) at 1. rewrite <- app_assoc. cbn [app].
  rewrite rstrip_app, rstrip_spaces by assumption.
  symmetry. now apply split_last.
Qed.

Lemma strip_visible c :
  c <> [] -> isspace (hd 0%N c) = false -> isspace (last c 0%N) = false ->
  strip c = c.
Proof.
  intros Hc Hh Hl.
  pose proof (strip_around [] c [] eq_refl eq_refl Hc Hh Hl) as E.
  cbn [app] in E. now rewrite app_nil_r in E.
Qed.

Lemma edge_visible ch : edge ch = true -> isspace ch = false.
Proof.
  unfold edge. intros H. apply andb_prop in H as [H _]. apply andb_prop in H as [H _].
  now apply negb_true_iff in H.
Qed.

Lemma forallb_ws_space w : forallb is_ws w = true -> forallb isspace w = true.
Proof.
  intros H. apply forallb_forall. intros x Hx.
  apply ws_is_space. revert x Hx. now apply forallb_forall.
Qed.

(** *** What [loads] accepts *)

Lemma loads_inv rt J v :
  loads rt J = Parsed v ->
  exists w1 c w2,
    J = w1 ++ c ++ w2 /\ forallb is_ws w1 = true /\ forallb is_ws w2 = true /\
    value_ok c /\ loads rt c = Parsed v.
Proof.
  unfold loads at 1. destruct (skip_ws_split J) as (w1 & EJ & Hw1).
  destruct (scan_once rt _ _ (skip_ws J)) as [[v' r]| |e] eqn:Es; try discriminate.
  destruct (skip_ws r) eqn:Er; [|discriminate]. intros [= ->].
  apply (proj1 (scan_all rt _)) in Es as (c & Ec & Hok & Hst).
  exists w1, c, r. rewrite Ec in EJ.
  split; [exact EJ|]. split; [exact Hw1|]. split; [now apply skip_ws_nil_all|].
  split; [exact Hok|].
  unfold loads. destruct Hok as (h & m & -> & Hh & _).
  pose proof (skip_ws_app [] h m eq_refl (edge_not_ws h Hh)) as E. cbn [app] in E.
  rewrite E.
  pose proof (Hst (2 * length (h :: m)) [] ltac:(lia) I) as E'. rewrite app_nil_r in E'.
  cbv beta in E'. rewrite E'. reflexivity.
Qed.

(** A valid JSON text, stripped, is the value's own text, and still
    loads to the same value. *)
Lemma loads_strip rt J v :
  loads rt J = Parsed v ->
  loads rt (strip J) = Parsed v /\
  exists h m, strip J = h :: m /\ edge h = true /\ edge (last (strip J) 0%N) = true.
Proof.
  intros (w1 & c & w2 & -> & Hw1 & Hw2 & Hok & Hc)%loads_inv.
  pose proof Hok as (h & m & E & Hh & Hl).
  assert (isspace (hd 0%N c) = false) as Hhead by (subst c; now apply edge_visible).
  rewrite (strip_around w1 c w2 (forallb_ws_space _ Hw1) (forallb_ws_space _ Hw2)
             (value_ok_ne _ Hok) Hhead (edge_visible _ Hl)).
  split; [exact Hc|]. exists h, m. now subst c.
Qed.

(** A valid JSON text starts with whitespace or an edge character. *)
Lemma loads_head rt J v :
  loads rt J = Parsed v ->
  exists h m, J = h :: m /\ h <> 96%N /\ h <> 106%N.
Proof.
  intros (w1 & c & w2 & -> & Hw1 & Hw2 & (h & m & -> & Hh & _) & _)%loads_inv.
  destruct w1 as [|x w1]; cbn [app].
  - exists h, (m ++ w2). split; [reflexivity|].
    unfold edge in Hh. split; intros ->; discriminate.
  - exists x, (w1 ++ (h :: m) ++ w2). split; [reflexivity|].
    cbn in Hw1. apply andb_prop in Hw1 as [Hx _].
    split; intros ->; discriminate.
Qed.

(** *** Fences *)

Lemma firstn_app_exact (a b : str) : firstn (length (a ++ b) - length b) (a ++ b) = a.
Proof.
  rewrite length_app, Nat.add_sub, firstn_app, Nat.sub_diag, firstn_all.
  cbn. apply app_nil_r.
Qed.

Lemma rev_last (c : str) d : c <> [] -> rev c = last c d :: rev (removelast c).
Proof.
  intros H. rewrite (split_last c d H) at 1. now rewrite rev_app_distr.
Qed.

(** A text that does not end with a backtick does not end with a fence. *)
Lemma endswith_fence_no c :
  c <> [] -> last c 0%N <> 96%N -> endswith c (u "```") = false.
Proof.
  intros Hc Hl. unfold endswith. rewrite (rev_last c 0%N Hc). cbn [rev app startswith].
  destruct (N.eqb_spec 96 (last c 0%N)); [congruence|reflexivity].
Qed.

(** A text that does not start with a backtick starts with no fence. *)
Lemma startswith_fence_no h m fence :
  h <> 96%N -> fence = u "```json" \/ fence = u "```" -> startswith (h :: m) fence = false.
Proof.
  intros Hh [->| ->]; cbn [startswith];
    (destruct (N.eqb_spec 96 h); [congruence|reflexivity]).
Qed.

(** The response between a leading [```json] or [```] and a trailing
    [```], with any spaces around, is what [strip_fences] leaves. *)
Lemma strip_fences_fenced fence pre J post :
  fence = u "```json" \/ fence = u "```" ->
  forallb isspace pre = true -> forallb isspace post = true ->
  (exists h m, J = h :: m /\ h <> 96%N /\ h <> 106%N) ->
  strip_fences (pre ++ (fence ++ J ++ u "```") ++ post) = J.
Proof.
  intros Hf Hpre Hpost (h & m & -> & Hq & Hj). unfold strip_fences.
  rewrite strip_around; try assumption.
  - assert (startswith ((h :: m) ++ u "```") (u "```") = false) as Hno
      by now apply startswith_fence_no; auto.
    destruct Hf as [->| ->].
    + rewrite startswith_app. cbn [slice_from skipn app]. cbn [app] in Hno.
      rewrite Hno.
      change (h :: m ++ u "```") with ((h :: m) ++ u "```").
      rewrite endswith_app. unfold slice_drop_last.
      apply (firstn_app_exact (h :: m) (u "```")).
    + assert (startswith (u "```" ++ (h :: m) ++ u "```") (u "```json") = false) as ->.
      { cbn [startswith app]. rewrite !N.eqb_refl. cbn [andb].
        destruct (N.eqb_spec 106 h); [congruence|reflexivity]. }
      rewrite startswith_app. cbn [slice_from skipn app].
      change (h :: m ++ u "```") with ((h :: m) ++ u "```").
      rewrite endswith_app. unfold slice_drop_last.
      apply (firstn_app_exact (h :: m) (u "```")).
  - destruct Hf as [->| ->]; discriminate.
  - destruct Hf as [->| ->]; reflexivity.
  - rewrite app_assoc, last_app_ne by discriminate. reflexivity.
Qed.

(** A text with edge characters at both ends carries no fence. *)
Lemma strip_fences_bare J :
  (exists h m, strip J = h :: m /\ edge h = true /\ edge (last (strip J) 0%N) = true) ->
  strip_fences J = strip J.
Proof.
  intros (h & m & E & Hh & Hl). unfold strip_fences.
  assert (h <> 96%N) as Hq by (unfold edge in Hh; intros ->; discriminate).
  assert (last (strip J) 0%N <> 96%N) as Hq'
    by (unfold edge in Hl; intros Hx; rewrite Hx in Hl; discriminate).
  rewrite E in *.
  rewrite !startswith_fence_no by auto.
  rewrite endswith_fence_no; [reflexivity|discriminate|exact Hq'].
Qed.

Lemma strip_idempotent J :
  (exists h m, strip J = h :: m /\ edge h = true /\ edge (last (strip J) 0%N) = true) ->
  strip (strip J) = strip J.
Proof.
  intros (h & m & E & Hh & Hl). apply strip_visible.
  - rewrite E. discriminate.
  - rewrite E. now apply edge_visible.
  - now apply edge_visible.
Qed.

Lemma extract_json_valid rt J v : loads rt J = Parsed v -> extract_json rt J = Ok v.
Proof.
  intros [Hv Hshape]%loads_strip. unfold extract_json.
  now rewrite strip_fences_bare, strip_idempotent, Hv.
Qed.

Lemma extract_json_fenced rt fence pre J post v :
  fence = u "```json" \/ fence = u "```" ->
  forallb isspace pre = true -> forallb isspace post = true ->
  loads rt J = Parsed v ->
  extract_json rt (pre ++ (fence ++ J ++ u "```") ++ post) = Ok v.
Proof.
  intros Hf Hpre Hpost HJ. unfold extract_json.
  rewrite strip_fences_fenced by eauto using loads_head.
  apply loads_strip in HJ as [-> _]. reflexivity.
Qed.

(** C2. For a valid JSON text [J], the extraction step returns the same
    object from [J] inside a leading [```json] (or plain [```]) fence
    and a trailing [```] fence, with or without spaces around the
    fences, as from [J] itself: the object [J] denotes. *)
Theorem fenced_json_extracts_like_bare rt J v pre post :
  loads rt J = Parsed v ->
  forallb isspace pre = true -> forallb isspace post = true ->
  extract_json rt J = Ok v /\
  extract_json rt (u "```json" ++ J ++ u "```") = extract_json rt J /\
  extract_json rt (u "```" ++ J ++ u "```") = extract_json rt J /\
  extract_json rt (pre ++ (u "```json" ++ J ++ u "```") ++ post) = extract_json rt J /\
  extract_json rt (pre ++ (u "```" ++ J ++ u "```") ++ post) = extract_json rt J.
Proof.
  intros HJ Hpre Hpost. rewrite (extract_json_valid rt J v HJ).
  split; [reflexivity|].
  pose proof (extract_json_fenced rt (u "```json") [] J [] v) as E1.
  pose proof (extract_json_fenced rt (u "```") [] J [] v) as E2.
  cbn [app] in E1, E2. rewrite !app_nil_r in E1, E2.
  repeat split; auto using extract_json_fenced.
Qed.

(** *** Braces *)

Lemma through_last_close_in t p : through_last_close t = Some p -> In 125%N t.
Proof.
  revert p. induction t as [|c t IH]; intros p; cbn; [discriminate|].
  destruct (through_last_close t) as [q|]; [right; eauto|].
  destruct (N.eqb_spec c 125) as [->|]; [now left|discriminate].
Qed.

Lemma through_last_close_none t : ~ In 125%N t -> through_last_close t = None.
Proof.
  intros H. destruct (through_last_close t) eqn:E; [|reflexivity].
  now apply through_last_close_in in E.
Qed.

Lemma through_last_close_some body post :
  ~ In 125%N post ->
  through_last_close (body ++ 125%N :: post) = Some (body ++ [125%N]).
Proof.
  intros H. induction body as [|c body IH]; cbn.
  - now rewrite through_last_close_none.
  - now rewrite IH.
Qed.

Lemma through_last_close_found t : In 125%N t -> through_last_close t <> None.
Proof.
  induction t as [|c t IH]; cbn; [tauto|]. intros [->|H].
  - destruct (through_last_close t); discriminate.
  - destruct (through_last_close t); [discriminate|]. now apply IH in H.
Qed.

(** The pattern matches from the first opening brace to the last
    closing brace. *)
Lemma search_braces_found pre body post :
  ~ In 123%N pre -> ~ In 125%N post ->
  search_braces (pre ++ 123%N :: body ++ 125%N :: post) = Some (123%N :: body ++ [125%N]).
Proof.
  intros Hpre Hpost. induction pre as [|c pre IH]; cbn.
  - now rewrite through_last_close_some.
  - destruct (N.eqb_spec c 123) as [->|]; [cbn in Hpre; tauto|].
    apply IH. cbn in Hpre. tauto.
Qed.


Lemma search_braces_inv s X :
  search_braces s = Some X -> exists pre rest, s = pre ++ 123%N :: rest /\ In 125%N rest.
Proof.
  induction s as [|c s IH]; cbn; [discriminate|].
  destruct (N.eqb_spec c 123) as [->|].
  - destruct (through_last_close s) eqn:E.
    + intros _. exists [], s. split; [reflexivity|].
      now apply through_last_close_in in E.
    + intros (pre & rest & -> & H)%IH. now exists (123%N :: pre), rest.
  - intros (pre & rest & -> & H)%IH. now exists (c :: pre), rest.
Qed.

(** *** What [strip_fences] removes *)















(** C2 at a keyword reply inside a fence, with line breaks around. *)
Lemma fenced_keywords_example :
  extract_json ascii_runtime example_json = Ok example_value /\
  extract_json ascii_runtime (u "```json" ++ example_json ++ u "```")
  = extract_json ascii_runtime example_json /\
  extract_json ascii_runtime (u "```" ++ example_json ++ u "```")
  = extract_json ascii_runtime example_json /\
  extract_json ascii_runtime ([10%N] ++ (u "```json" ++ example_json ++ u "```") ++ [10%N])
  = extract_json ascii_runtime example_json /\
  extract_json ascii_runtime ([10%N] ++ (u "```" ++ example_json ++ u "```") ++ [10%N])
  = extract_json ascii_runtime example_json.
Proof.
  apply (fenced_json_extracts_like_bare ascii_runtime example_json example_value
           [10%N] [10%N]);
    vm_compute; reflexivity.
Defined.





(** A reply of 1200 opening brackets holds no span and does not parse,
    and what [generate_json] raises is the decoder's [RecursionError]. *)
Lemma deep_brackets_raise_a_recursion_error :
  search_braces (repeat 91%N 1200) = None /\
  generate_json ascii_runtime (answering (repeat 91%N 1200)) [] None
  = Raise (recursion_error (u "array")).
Proof. vm_compute. split; reflexivity. Qed.

(** A reply that is one integer of 5000 digits holds no span and does
    not parse either, and what [generate_json] raises is the
    [ValueError] of [int], with its message. *)
Lemma long_integer_raises_the_error_of_int :
  search_braces (repeat 49%N 5000) = None /\
  generate_json ascii_runtime (answering (repeat 49%N 5000)) [] None
  = Raise (digits_error 4300 5000) /\
  exn_cls (digits_error 4300 5000) = ValueError.
Proof. vm_compute. repeat split. Qed.

End ExtractionFacts.

Module ValidatorFacts.
Import Py PyFacts GoogleAdsValidator.

Lemma truncate_to_short n (s : str) : length s <= n -> truncate_to n s = s.
Proof. intros H. unfold truncate_to. now apply Nat.leb_le in H; rewrite H. Qed.

Lemma truncate_to_long n (s : str) :
  3 <= n -> n < length s ->
  length (truncate_to n s) = n /\ endswith (truncate_to n s) (u "...") = true.
Proof.
  intros Hn Hlt. unfold truncate_to.
  destruct (Nat.leb_spec (length s) n) as [Hle|_]; [lia|].
  split; [|apply endswith_app].
  unfold slice_to. rewrite length_app, firstn_length_le by lia.
  change (length (u "...")) with 3. lia.
Qed.

Lemma truncate_to_idem n (s : str) :
  3 <= n -> truncate_to n (truncate_to n s) = truncate_to n s.
Proof.
  intros Hn. destruct (Nat.le_gt_cases (length s) n) as [Hle|Hgt].
  - now rewrite !(truncate_to_short n s Hle).
  - apply truncate_to_short. destruct (truncate_to_long n s Hn Hgt) as [-> _]. lia.
Qed.

(** C6. [truncate_headline] (limit 30) and [truncate_description] (limit
    90) return a string within the limit unchanged; a longer one becomes
    a string no longer than the limit that ends with the marker ["..."];
    hence applying either function twice is the same as applying it once. *)
Theorem truncate_within_limit_and_idempotent (s : str) :
  (length s <= 30 -> truncate_headline s = s) /\
  (30 < length s ->
     length (truncate_headline s) <= 30 /\ endswith (truncate_headline s) (u "...") = true) /\
  truncate_headline (truncate_headline s) = truncate_headline s /\
  (length s <= 90 -> truncate_description s = s) /\
  (90 < length s ->
     length (truncate_description s) <= 90 /\ endswith (truncate_description s) (u "...") = true) /\
  truncate_description (truncate_description s) = truncate_description s.
Proof.
  change truncate_headline with (truncate_to 30).
  change truncate_description with (truncate_to 90).
  repeat split.
  - apply truncate_to_short.
  - destruct (truncate_to_long 30 s) as [-> _]; lia.
  - apply truncate_to_long; [lia|assumption].
  - apply truncate_to_idem; lia.
  - apply truncate_to_short.
  - destruct (truncate_to_long 90 s) as [-> _]; lia.
  - apply truncate_to_long; [lia|assumption].
  - apply truncate_to_idem; lia.
Qed.

Lemma in_report label check e :
  In e (report label check) -> e = label ++ snd check.
Proof.
  unfold report. destruct (fst check); simpl; [tauto|].
  intros [<-|[]]. reflexivity.
Qed.

Ltac other_label :=
  match goal with
  | H : In _ (report _ _) |- _ => apply in_report in H; subst; reflexivity
  end.

(** C10. The empty string is valid as a path and invalid, with a
    non-empty message, as a headline and as a description. So
    [validate_ad] reports nothing under the label of a path that is
    empty, and always reports an empty headline and an empty description. *)
Theorem empty_string_asymmetry (rt : runtime) :
  validate_path rt [] = (true, u "OK") /\
  (exists m, validate_headline [] = (false, m) /\ m <> []) /\
  (exists m, validate_description [] = (false, m) /\ m <> []) /\
  (forall h d p2 e,
     In e (validate_ad rt h d [] p2) -> startswith e (u "Путь 1: ") = false) /\
  (forall h d p1 e,
     In e (validate_ad rt h d p1 []) -> startswith e (u "Путь 2: ") = false) /\
  (forall h d,
     validate_ad rt h d [] [] =
     report (u "Заголовок: ") (validate_headline h)
     ++ report (u "Описание: ") (validate_description d)) /\
  (forall d p1 p2,
     In (u "Заголовок: Заголовок не может быть пустым") (validate_ad rt [] d p1 p2)) /\
  (forall h p1 p2,
     In (u "Описание: Описание не может быть пустым") (validate_ad rt h [] p1 p2)).
Proof.
  split; [reflexivity|].
  split; [eexists; split; [reflexivity|discriminate]|].
  split; [eexists; split; [reflexivity|discriminate]|].
  split; [|split; [|split; [|split]]].
  - intros h d p2 e H. unfold validate_ad in H.
    rewrite !in_app_iff in H. destruct H as [H|[H|[[]|H]]]; try other_label.
    destruct p2; [destruct H|]. other_label.
  - intros h d p1 e H. unfold validate_ad in H.
    rewrite !in_app_iff in H. destruct H as [H|[H|[H|[]]]]; try other_label.
    destruct p1; [destruct H|]. other_label.
  - intros h d. unfold validate_ad. now rewrite !app_nil_r.
  - intros d p1 p2. unfold validate_ad. apply in_or_app. left. left.
    vm_compute. reflexivity.
  - intros h p1 p2. unfold validate_ad. apply in_or_app. right.
    apply in_or_app. left. left. vm_compute. reflexivity.
Qed.

(** C6 at a headline of 42 characters. *)
Lemma long_headline_example :
  length (truncate_headline (u "Professional espresso machines for offices")) <= 30 /\
  endswith (truncate_headline (u "Professional espresso machines for offices")) (u "...")
  = true.
Proof.
  apply (proj1 (proj2 (truncate_within_limit_and_idempotent
                         (u "Professional espresso machines for offices")))).
  vm_compute. lia.
Defined.

(** C10 at an ad with nothing filled in but a second path that is not
    accepted: the one error about a path is not about the first. *)
Lemma empty_first_path_example :
  startswith
    (u "Путь 2: Путь может содержать только буквы, цифры, дефисы и подчеркивания")
    (u "Путь 1: ") = false.
Proof.
  apply (proj1 (proj2 (proj2 (proj2 (empty_string_asymmetry ascii_runtime))))
           [] [] (u "a b")).
  vm_compute. right. right. left. reflexivity.
Defined.

End ValidatorFacts.

Module ServerFacts.
Import Py PyFacts GoogleAdsMCPServer.

Lemma failure_is_envelope e : is_envelope (failure e).
Proof. do 2 eexists. split; reflexivity. Qed.

(** A [try] body that can only return a dict with ['success'] first, or
    raise, yields an envelope once wrapped, unless what it raises is no
    [Exception]: that is raised again. *)
Lemma wrapped_cases (body : result value) :
  (forall v, body = Ok v -> exists b rest, v = VDict ((u "success", VBool b) :: rest)) ->
  is_envelope (try_except body failure) \/
  exists e, body = Raise e /\ is_exception (exn_cls e) = false.
Proof.
  intros H. destruct body as [v|e]; simpl.
  - left. destruct (H v eq_refl) as (b & rest & ->).
    exists ((u "success", VBool b) :: rest), b. split; reflexivity.
  - destruct (is_exception (exn_cls e)) eqn:E.
    + left. apply failure_is_envelope.
    + right. now exists e.
Qed.

Lemma wrapped_raise (body : result value) e :
  body = Raise e ->
  try_except body failure = if is_exception (exn_cls e) then failure e else Raise e.
Proof. now intros ->. Qed.

Ltac returns_success :=
  intros v Hv; cbv zeta in Hv;
  repeat match type of Hv with
  | context [bind ?r _] => destruct r; simpl in Hv; try discriminate
  | context [match ?x with _ => _ end] => destruct x; simpl in Hv; try discriminate
  end;
  injection Hv as <-; do 2 eexists; reflexivity.

Lemma tool_name_registered c : In (tool_name c) _register_tools.
Proof. destruct c; vm_compute; tauto. Qed.

Lemma forgotten_raise {A} (r : result A) e :
  Some (bind r (fun _ => Ok tt)) = Some (Raise e) -> r = Raise e.
Proof. destruct r; simpl; congruence. Qed.

Lemma call_tool_client_raises rt self c e :
  client_answer self c = Some (Raise e) ->
  call_tool rt self c = if is_exception (exn_cls e) then failure e else Raise e.
Proof.
  destruct c; simpl; intros H; apply wrapped_raise; cbv zeta;
    try (destruct (given (or_else _ _)); [|discriminate]);
    apply forgotten_raise in H; rewrite H; reflexivity.
Qed.

(** What [row_has_campaign] raises on a row is an [AttributeError]. *)
Lemma filter_rows_raise rt cid results e :
  filter_rows (row_has_campaign rt cid) results = Raise e ->
  exn_cls e = AttributeError.
Proof.
  induction results as [|r rest IH]; [discriminate|]. cbn [filter_rows].
  unfold row_has_campaign at 1.
  destruct (dict_get (u "campaign") (VDict []) r); cbn [bind];
    try (intros [= <-]; reflexivity);
    destruct (filter_rows _ rest); cbn [bind]; try discriminate;
    intros [= <-]; now apply IH.
Qed.

(** Shows the [try] of the tool at hand. *)
Ltac unfold_tool :=
  unfold list_accounts, get_account_info, get_account_summary, get_campaigns,
    get_campaign_performance, get_campaign_budget, get_ad_groups, get_keywords,
    get_search_terms, get_negative_keywords, get_ads, get_geographic_performance,
    get_device_performance, diagnose_low_quality_scores, diagnose_high_cost_campaigns,
    find_disapproved_ads, run_custom_query.

(** What a tool's [try] body raises outside [Exception] is what the
    client raised on the one request of the call. *)
Lemma call_tool_raise rt self c e :
  call_tool rt self c = Raise e ->
  client_answer self c = Some (Raise e) /\ is_exception (exn_cls e) = false.
Proof.
  destruct c; cbn [call_tool client_answer]; unfold_tool; cbv zeta;
    try (destruct (given (or_else _ _)); [|discriminate]);
    match goal with
    | |- context [bind ?r _] => destruct r as [answer|e'] eqn:E
    end; cbn [bind try_except];
    try discriminate;
    try (destruct (is_exception (exn_cls e')) eqn:Ee; [discriminate|];
         intros [= <-]; split; [reflexivity|assumption]).
  (* get_campaign_performance, on rows *)
  destruct (filter_rows _ answer) as [kept|e'] eqn:Ef; cbn [bind try_except];
    [discriminate|].
  apply filter_rows_raise in Ef. rewrite Ef. discriminate.
Qed.

Lemma call_tool_cases rt self c :
  is_envelope (call_tool rt self c) \/ exists e, call_tool rt self c = Raise e.
Proof.
  destruct c; cbn [call_tool]; unfold_tool;
    match goal with
    | |- is_envelope (try_except ?body failure) \/ _ =>
      let H := fresh "H" in
      assert (forall v, body = Ok v ->
                        exists b rest, v = VDict ((u "success", VBool b) :: rest)) as H
        by returns_success;
      destruct (wrapped_cases body H) as [Henv|(e & Hb & He)];
      [left; exact Henv
      |right; exists e; rewrite (wrapped_raise _ _ Hb), He; reflexivity]
    end.
Qed.

Lemma polite_call_is_envelope rt self c :
  polite self c -> is_envelope (call_tool rt self c).
Proof.
  intros Hpolite. destruct (call_tool_cases rt self c) as [H|[e H]]; [exact H|].
  apply call_tool_raise in H as [Hc He]. apply Hpolite in Hc. congruence.
Qed.

(** C1, as the code has it. Every call of a registered tool is wrapped
    in [try ... except Exception]. When the client raises an exception
    [e] derived from [Exception] on the request the call sends, the call
    returns [{'success': False, 'error': str(e)}]; when the client
    raises anything else (a [KeyboardInterrupt], a [SystemExit]), it
    leaves the call as it is. Nothing else leaves a call: with a client
    that raises only exceptions derived from [Exception], the call
    returns a dict with a boolean under ['success']. *)
Theorem every_tool_call_returns_an_envelope rt self c :
  In (tool_name c) _register_tools /\
  (forall e,
     client_answer self c = Some (Raise e) -> is_exception (exn_cls e) = true ->
     call_tool rt self c =
     Ok (VDict [(u "success", VBool false); (u "error", VStr (exn_msg e))])) /\
  (forall e,
     client_answer self c = Some (Raise e) -> is_exception (exn_cls e) = false ->
     call_tool rt self c = Raise e) /\
  (forall e,
     call_tool rt self c = Raise e ->
     client_answer self c = Some (Raise e) /\ is_exception (exn_cls e) = false) /\
  (polite self c ->
   is_envelope (call_tool rt self c) /\ raises (call_tool rt self c) = false).
Proof.
  split; [apply tool_name_registered|].
  split; [|split; [|split]].
  - intros e H He. rewrite (call_tool_client_raises rt self c e H), He. reflexivity.
  - intros e H He. rewrite (call_tool_client_raises rt self c e H), He. reflexivity.
  - apply call_tool_raise.
  - intros Hpolite.
    destruct (polite_call_is_envelope rt self c Hpolite) as (d & b & E & Hb).
    split; [now exists d, b|]. now rewrite E.
Qed.

(** The router is the table: it answers with the call of the first rule
    whose test holds, and with the unrecognized-request envelope when
    no test holds. *)
Lemma router_follows_the_table rt self request :
  process_natural_language_request rt self request = route_by_table rt self request.
Proof.
  unfold process_natural_language_request, route_by_table. cbv zeta.
  generalize (contains (lower rt request)). intros has.
  cbn [routing_table first_match existsb fst snd].
  repeat match goal with
  | |- context [has ?w] => destruct (has w); cbn [orb andb negb call_tool]; try reflexivity
  end.
Qed.

Lemma first_match_here has before test c after :
  forallb (fun r : rule => negb (fst r has)) before = true -> test has = true ->
  first_match has (before ++ (test, c) :: after) = Some c.
Proof.
  intros Hb Ht. induction before as [|[t' c'] before IH]; cbn.
  - now rewrite Ht.
  - cbn in Hb. apply andb_prop in Hb as [H1 H2]. apply negb_true_iff in H1.
    rewrite H1. auto.
Qed.

Lemma first_match_none has table :
  forallb (fun r : rule => negb (fst r has)) table = true -> first_match has table = None.
Proof.
  induction table as [|[t' c'] table IH]; [reflexivity|]. cbn.
  intros Hb. apply andb_prop in Hb as [H1 H2]. apply negb_true_iff in H1.
  rewrite H1. auto.
Qed.

Lemma no_word_no_rule has :
  forallb (fun w => negb (has w)) routing_words = true ->
  (forall a b, has b = false -> has (a ++ b) = false) ->
  forallb (fun r : rule => negb (fst r has)) routing_table = true.
Proof.
  intros Hnone Hlonger. cbn [forallb routing_words other_routing_words] in Hnone.
  repeat (apply andb_prop in Hnone as [?H Hnone]).
  repeat match goal with
  | H : negb _ = true |- _ => apply negb_true_iff in H
  end.
  cbn [forallb routing_table fst].
  change (u "list accounts") with (u "list " ++ u "accounts").
  rewrite Hlonger by assumption.
  repeat match goal with
  | H : has _ = false |- _ => rewrite H; clear H
  end.
  reflexivity.
Qed.

(** C7. The router reads the lower-cased request through the ordered
    table of eleven rules [routing_table], and the first rule that
    matches answers: for every rule of the table, a request that fails
    the tests of the rules before it and passes its test is answered by
    its tool call; a request that passes no test, and so every request
    without any of the routing words, gets the envelope with
    [success = False] and the list of available tools. The calls of
    the table are, in order, [routed_calls]. In particular, whatever
    else a request says, "accounts" in it selects [list_accounts]; a
    request that passes the three rules before the keyword rules, says
    "keywords" and says "low quality" or "quality score" is answered by
    [diagnose_low_quality_scores] with its default threshold. So
    ["Show me keywords with low quality"] goes to the diagnostic and
    not to the generic [get_keywords] (a client that only accepts the
    diagnostic query tells the two apart); the request ["banana"]
    matches no rule and gets the unrecognized-request envelope. *)
Theorem low_quality_routes_to_diagnostic_and_banana_unrecognized rt self :
  (forall request,
     contains (lower rt request) (u "accounts") = true ->
     process_natural_language_request rt self request = list_accounts self) /\
  (forall request,
     let has := contains (lower rt request) in
     has (u "accounts") = false ->
     has (u "account summary") || has (u "overview") = false ->
     has (u "campaigns") && negb (has (u "performance")) = false ->
     has (u "keywords") = true ->
     has (u "low quality") || has (u "quality score") = true ->
     process_natural_language_request rt self request
     = diagnose_low_quality_scores self 100) /\
  process_natural_language_request rt self (u "Show me keywords with low quality")
  = diagnose_low_quality_scores self 100 /\
  (let picky := picky_server (GoogleAdsQueries.diagnose_low_quality_score 100) in
   process_natural_language_request rt picky (u "Show me keywords with low quality")
   <> get_keywords picky None (u "LAST_30_DAYS") 0) /\
  process_natural_language_request rt self (u "banana")
  = Ok (VDict [(u "success", VBool false);
               (u "error",
                VStr (u "Could not understand request. Please use one of the available tools."));
               (u "available_tools", get_available_tools)]) /\
  (forall request,
     process_natural_language_request rt self request
     = match first_match (contains (lower rt request)) routing_table with
       | Some c => call_tool rt self c
       | None => unrecognized
       end) /\
  (forall request before test c after,
     routing_table = before ++ (test, c) :: after ->
     forallb (fun r : rule => negb (fst r (contains (lower rt request)))) before = true ->
     test (contains (lower rt request)) = true ->
     process_natural_language_request rt self request = call_tool rt self c) /\
  (forall request,
     forallb (fun r : rule => negb (fst r (contains (lower rt request)))) routing_table
     = true ->
     process_natural_language_request rt self request = unrecognized) /\
  (forall request,
     forallb (fun w => negb (contains (lower rt request) w)) routing_words = true ->
     process_natural_language_request rt self request = unrecognized) /\
  map snd routing_table = routed_calls /\
  length routing_table = 11.
Proof.
  split; [|split; [|split; [|split; [|split; [|split; [|split; [|split; [|split; [|split]]]]]]]]].
  - intros request H. unfold process_natural_language_request.
    cbn [existsb]. now rewrite H.
  - intros request has H1 H2 H3 H4 H5. subst has.
    unfold process_natural_language_request. cbn [existsb].
    change (u "list accounts") with (u "list " ++ u "accounts").
    rewrite (contains_longer _ _ _ H1).
    now rewrite H1, H2, H3, H4, H5.
  - vm_compute. reflexivity.
  - vm_compute. discriminate.
  - vm_compute. reflexivity.
  - intros request. apply router_follows_the_table.
  - intros request before test c after E Hb Ht.
    rewrite router_follows_the_table. unfold route_by_table.
    rewrite E, first_match_here by assumption. reflexivity.
  - intros request Hnone.
    rewrite router_follows_the_table. unfold route_by_table.
    now rewrite first_match_none.
  - intros request Hnone.
    rewrite router_follows_the_table. unfold route_by_table.
    rewrite first_match_none; [reflexivity|].
    apply no_word_no_rule; [exact Hnone|].
    intros a b. apply contains_longer.
  - reflexivity.
  - reflexivity.
Qed.

(** C9. A request whose lower-casing contains "campaigns" and
    "performance" and none of the other routing words calls no tool: it
    gets the unrecognized-request envelope, with [success = False]. *)
Theorem campaigns_with_performance_is_unrecognized rt self request :
  contains (lower rt request) (u "campaigns") = true ->
  contains (lower rt request) (u "performance") = true ->
  forallb (fun w => negb (contains (lower rt request) w)) other_routing_words = true ->
  process_natural_language_request rt self request = unrecognized /\
  exists rest,
    process_natural_language_request rt self request
    = Ok (VDict ((u "success", VBool false) :: rest)).
Proof.
  intros Hc Hp Hnone.
  assert (process_natural_language_request rt self request = unrecognized) as E.
  { unfold process_natural_language_request.
    cbn [forallb other_routing_words] in Hnone.
    repeat (apply andb_prop in Hnone as [?H Hnone]).
    repeat match goal with
    | H : negb _ = true |- _ => apply negb_true_iff in H
    end.
    cbn [existsb].
    change (u "list accounts") with (u "list " ++ u "accounts").
    rewrite contains_longer by assumption.
    repeat match goal with
    | H : contains _ _ = false |- _ => rewrite H; clear H
    end.
    now rewrite Hc, Hp. }
  split; [exact E|]. rewrite E. eexists. reflexivity.
Qed.

(** C7 at a request in upper case that names the quality score. *)
Lemma quality_score_example :
  process_natural_language_request ascii_runtime (picky_server [])
    (u "QUALITY SCORE of my KEYWORDS")
  = diagnose_low_quality_scores (picky_server []) 100.
Proof.
  apply (proj1 (proj2 (low_quality_routes_to_diagnostic_and_banana_unrecognized
                         ascii_runtime (picky_server []))));
    vm_compute; reflexivity.
Defined.

(** C9 at the request "campaigns performance". *)
Lemma campaigns_performance_example :
  process_natural_language_request ascii_runtime (picky_server [])
    (u "campaigns performance") = unrecognized /\
  exists rest,
    process_natural_language_request ascii_runtime (picky_server [])
      (u "campaigns performance")
    = Ok (VDict ((u "success", VBool false) :: rest)).
Proof.
  apply campaigns_with_performance_is_unrecognized; vm_compute; reflexivity.
Defined.

(** C1 at a client that refuses every request. *)
Lemma refused_keywords_example :
  call_tool ascii_runtime (picky_server [])
    (Call_get_keywords None (u "LAST_30_DAYS") 0)
  = Ok (VDict [(u "success", VBool false); (u "error", VStr (u "refused"))]).
Proof.
  apply (proj1 (proj2
           (every_tool_call_returns_an_envelope ascii_runtime (picky_server [])
              (Call_get_keywords None (u "LAST_30_DAYS") 0))) refused);
    vm_compute; reflexivity.
Defined.

(** C1 as stated fails with a client that is interrupted: the
    [KeyboardInterrupt] is no [Exception], no tool catches it, and it
    leaves the call. *)
Lemma keyboard_interrupt_leaves_the_call :
  client_answer interrupted_server (Call_get_keywords None (u "LAST_30_DAYS") 0)
  = Some (Raise interrupt) /\
  is_exception (exn_cls interrupt) = false /\
  call_tool ascii_runtime interrupted_server (Call_get_keywords None (u "LAST_30_DAYS") 0)
  = Raise interrupt /\
  raises (call_tool ascii_runtime interrupted_server
            (Call_get_keywords None (u "LAST_30_DAYS") 0)) = true.
Proof. vm_compute. repeat split. Qed.

End ServerFacts.

Module GeneratorFacts.
Import Py PyFacts Config AIGenerator.

Lemma str_eqb_neq (a b : str) : a <> b -> str_eqb a b = false.
Proof.
  intros H. destruct (str_eqb a b) eqn:E; [|reflexivity].
  now apply str_eqb_eq in E.
Qed.

Lemma unknown_provider env settings p model' :
  p <> [] -> (forall tag, p <> provider_name tag) ->
  __init__ env settings (Some p) model'
  = Raise (Exn ValueError (u "Неизвестный провайдер: " ++ p)).
Proof.
  intros Hp Hnot. unfold __init__.
  destruct p as [|c p]; [congruence|]. cbn [given].
  rewrite (str_eqb_neq _ (u "openai") (Hnot openai)),
    (str_eqb_neq _ (u "anthropic") (Hnot anthropic)),
    (str_eqb_neq _ (u "google") (Hnot google)),
    (str_eqb_neq _ (u "ollama") (Hnot ollama)),
    (str_eqb_neq _ (u "groq") (Hnot groq)).
  reflexivity.
Qed.

(** Decides the comparisons of closed strings in the goal. *)
Ltac compare_names :=
  repeat match goal with
  | |- context [str_eqb ?a ?b] =>
    let v := eval vm_compute in (str_eqb a b) in
    change (str_eqb a b) with v; cbv iota
  end.

Lemma accepted_keys_construct env settings tag model' :
  (forall p, importable env p = true) -> accepts_every_key env ->
  raises (__init__ env settings (Some (provider_name tag)) model') = false.
Proof.
  intros Himp Hacc. unfold __init__, importing.
  destruct (Hacc (openai_api_key settings)) as (H1 & _).
  destruct (Hacc (anthropic_api_key settings)) as (_ & H2 & _).
  destruct (Hacc (google_api_key settings)) as (_ & _ & H3 & _).
  destruct (Hacc (groq_api_key settings)) as (_ & _ & _ & H4).
  destruct tag;
    match goal with
    | |- context [given (Some (provider_name ?t))] =>
      change (given (Some (provider_name t))) with (Some (provider_name t))
    end;
    cbv iota beta zeta; compare_names; rewrite Himp.
  - destruct (OpenAI env _); [reflexivity|discriminate].
  - destruct (Anthropic env _); [reflexivity|discriminate].
  - destruct (genai_configure env _); [reflexivity|discriminate].
  - reflexivity.
  - destruct (Groq env _); [reflexivity|discriminate].
Qed.

(** C8, as the code has it. A non-empty provider name outside the five
    known ones makes [__init__] raise [ValueError] and return no
    adapter; an empty name is the same as no name (the configured
    provider is taken); and the constructor checks no credential itself:
    with the packages installed and constructors that accept every key,
    construction succeeds for each of the five providers, whatever the
    configured keys are. *)
Theorem construction_fails_on_unknown_provider_only env settings model' :
  (forall p,
     p <> [] -> (forall tag, p <> provider_name tag) ->
     __init__ env settings (Some p) model'
     = Raise (Exn ValueError (u "Неизвестный провайдер: " ++ p))) /\
  __init__ env settings (Some []) model' = __init__ env settings None model' /\
  ((forall p, importable env p = true) -> accepts_every_key env ->
   forall tag, raises (__init__ env settings (Some (provider_name tag)) model') = false).
Proof.
  split; [intros p; apply unknown_provider|].
  split; [reflexivity|].
  intros Himp Hacc tag. now apply accepted_keys_construct.
Qed.

(** C8 at the name "mistral". *)
Lemma mistral_is_refused :
  __init__ permissive_sdk default_settings (Some (u "mistral")) None
  = Raise (Exn ValueError (u "Неизвестный провайдер: " ++ u "mistral")).
Proof.
  apply (proj1 (construction_fails_on_unknown_provider_only
                  permissive_sdk default_settings None)).
  - vm_compute. discriminate.
  - intros tag. destruct tag; vm_compute; discriminate.
Defined.

(** C8 as stated fails twice. The empty string is none of the five
    names, yet construction with it succeeds; and with the default
    settings the key of the selected provider (google) is empty, yet
    construction succeeds. *)
Lemma empty_provider_and_missing_key_are_accepted :
  existsb (str_eqb []) (map provider_name [openai; anthropic; google; ollama; groq]) = false /\
  raises (__init__ permissive_sdk default_settings (Some []) None) = false /\
  google_api_key default_settings = [] /\
  raises (__init__ permissive_sdk default_settings (Some (u "google")) None) = false.
Proof. vm_compute. repeat split. Qed.

Lemma fallback_on_text rt fab name :
  product_name_of fab = Some name ->
  _generate_fallback_keywords rt fab
  = Ok (VDict [(u "keywords",
                VList (map word_keyword (product_words rt name) ++ generic_keywords))]).
Proof.
  unfold product_name_of, _generate_fallback_keywords, dict_get.
  destruct (dict_lookup (u "product_name") fab) as [[| | | |s| |]|];
    try discriminate; intros [= <-].
  - destruct s; reflexivity.
  - reflexivity.
Qed.

(** C5, as the code has it. [generate_json] raises [e] on the keyword
    prompt. When [e] derives from [Exception], [generate_keywords]
    answers with the fallback, whatever the backend and the exception:
    for an analysis whose product name is text, or missing, the keyword
    list made of one broad-match record for each word longer than 3
    characters of the lower-cased product name, followed by the four
    generic records (buy, price, order, services), a list that is never
    empty; for a product name that is no text and counts as false, the
    four generic records alone; for one that is no text and counts as
    true, no list at all: the fallback raises [AttributeError]. When
    [e] does not derive from [Exception], it leaves [generate_keywords]
    as it is. *)
Theorem keywords_fallback_on_backend_failure rt self fab context e :
  generate_json rt self (keywords_prompt rt fab context) (Some keywords_system_prompt)
  = Raise e ->
  (is_exception (exn_cls e) = false -> generate_keywords rt self fab context = Raise e) /\
  (is_exception (exn_cls e) = true ->
   generate_keywords rt self fab context = _generate_fallback_keywords rt fab /\
   (forall name,
      product_name_of fab = Some name ->
      let keywords := map word_keyword (product_words rt name) ++ generic_keywords in
      generate_keywords rt self fab context = Ok (VDict [(u "keywords", VList keywords)]) /\
      keywords <> [] /\
      length keywords = length (product_words rt name) + 4 /\
      map keyword_of keywords
      = map VStr (product_words rt name ++ [u "buy"; u "price"; u "order"; u "services"]) /\
      (forall w, In w (product_words rt name) <->
                 In w (split (lower rt name)) /\ 3 < length w)) /\
   (forall v,
      dict_lookup (u "product_name") fab = Some v -> (forall name, v <> VStr name) ->
      truthy rt v = false ->
      generate_keywords rt self fab context
      = Ok (VDict [(u "keywords", VList generic_keywords)])) /\
   (forall v,
      dict_lookup (u "product_name") fab = Some v -> (forall name, v <> VStr name) ->
      truthy rt v = true ->
      generate_keywords rt self fab context = Raise (no_attribute v (u "lower")))) /\
  ((exists name, product_name_of fab = Some name) \/
   (exists v, dict_lookup (u "product_name") fab = Some v /\ forall name, v <> VStr name)) /\
  (forall w, match_type_of (word_keyword w) = VStr (u "broad")).
Proof.
  intros Hfail. unfold generate_keywords. cbv zeta. rewrite Hfail. cbn [try_except].
  split; [intros ->; reflexivity|]. split; [|split].
  - intros ->. split; [reflexivity|]. split; [|split].
    + intros name Hname.
      split; [now apply fallback_on_text|]. split; [|split; [|split]].
      * intros H. apply app_eq_nil in H as [_ H]. discriminate.
      * rewrite length_app, length_map. reflexivity.
      * rewrite !map_app, map_map. reflexivity.
      * intros w. unfold product_words. rewrite filter_In, Nat.ltb_lt. reflexivity.
    + intros v Hv Htext Htruthy. unfold _generate_fallback_keywords, dict_get.
      rewrite Hv. cbv zeta. rewrite Htruthy. reflexivity.
    + intros v Hv Htext Htruthy. unfold _generate_fallback_keywords, dict_get.
      rewrite Hv. cbv zeta. rewrite Htruthy.
      destruct v; try reflexivity. now destruct (Htext s).
  - unfold product_name_of.
    destruct (dict_lookup (u "product_name") fab) as [v|]; [|left; now exists []].
    destruct v; try (right; eexists; split; [reflexivity|intros name; discriminate]).
    left. now exists s.
  - intros w. vm_compute. reflexivity.
Qed.

(** C5 at a backend that refuses every call. *)
Lemma coffee_maker_fallback :
  generate_keywords ascii_runtime unreachable
    [(u "product_name", VStr (u "Smart Coffee Maker Pro"))] None
  = Ok (VDict [(u "keywords",
                VList (map word_keyword
                         (product_words ascii_runtime (u "Smart Coffee Maker Pro"))
                       ++ generic_keywords))]).
Proof.
  pose proof (keywords_fallback_on_backend_failure ascii_runtime unreachable
                [(u "product_name", VStr (u "Smart Coffee Maker Pro"))] None
                connection_refused eq_refl) as (_ & H & _).
  destruct (H eq_refl) as (_ & Htext & _).
  exact (proj1 (Htext (u "Smart Coffee Maker Pro") eq_refl)).
Defined.

(** C5 as stated fails on an analysis whose product name is a list: the
    backend fails with an [Exception], and [generate_keywords] returns
    no keyword list but raises the [AttributeError] of the fallback. *)
Lemma list_product_name_breaks_the_fallback :
  generate_json ascii_runtime unreachable
    (keywords_prompt ascii_runtime [(u "product_name", VList [VStr (u "coffee")])] None)
    (Some keywords_system_prompt)
  = Raise connection_refused /\
  is_exception (exn_cls connection_refused) = true /\
  generate_keywords ascii_runtime unreachable
    [(u "product_name", VList [VStr (u "coffee")])] None
  = Raise (no_attribute (VList [VStr (u "coffee")]) (u "lower")) /\
  exn_cls (no_attribute (VList [VStr (u "coffee")]) (u "lower")) = AttributeError.
Proof. vm_compute. repeat split. Qed.

End GeneratorFacts.

(* ===================================================================== *)
(** * Further properties of the validators                                *)
(* ===================================================================== *)

Module ValidatorMore.
Import Py PyFacts GoogleAdsValidator ValidatorFacts.

Lemma validate_headline_ok (h : str) :
  1 <= length h <= 30 -> validate_headline h = (true, u "OK").
Proof.
  intros [H1 H2]. destruct h as [|c h]; [cbn in H1; lia|].
  unfold validate_headline, HEADLINE_MAX_LENGTH.
  destruct (Nat.ltb_spec 30 (length (c :: h))); [lia|reflexivity].
Qed.

Lemma validate_description_ok (d : str) :
  1 <= length d <= 90 -> validate_description d = (true, u "OK").
Proof.
  intros [H1 H2]. destruct d as [|c d]; [cbn in H1; lia|].
  unfold validate_description, DESCRIPTION_MAX_LENGTH.
  destruct (Nat.ltb_spec 90 (length (c :: d))); [lia|reflexivity].
Qed.

Lemma validate_headline_bad (h : str) :
  length h = 0 \/ 30 < length h -> fst (validate_headline h) = false.
Proof.
  intros H. destruct h as [|c h]; [reflexivity|].
  unfold validate_headline, HEADLINE_MAX_LENGTH.
  destruct (Nat.ltb_spec 30 (length (c :: h))); [reflexivity|cbn in *; lia].
Qed.

Lemma validate_description_bad (d : str) :
  length d = 0 \/ 90 < length d -> fst (validate_description d) = false.
Proof.
  intros H. destruct d as [|c d]; [reflexivity|].
  unfold validate_description, DESCRIPTION_MAX_LENGTH.
  destruct (Nat.ltb_spec 90 (length (c :: d))); [reflexivity|cbn in *; lia].
Qed.

(** X1. A headline passes exactly when it has 1 to 30 characters, a
    description exactly when it has 1 to 90; the verdict of a text that
    passes is [(True, "OK")]. *)
Theorem text_is_valid_within_its_length_bounds (h d : str) :
  (validate_headline h = (true, u "OK") <-> 1 <= length h <= 30) /\
  (fst (validate_headline h) = false <-> length h = 0 \/ 30 < length h) /\
  (validate_description d = (true, u "OK") <-> 1 <= length d <= 90) /\
  (fst (validate_description d) = false <-> length d = 0 \/ 90 < length d).
Proof.
  assert (forall n, n = 0 \/ 30 < n \/ 1 <= n <= 30) as C30 by (intros; lia).
  assert (forall n, n = 0 \/ 90 < n \/ 1 <= n <= 90) as C90 by (intros; lia).
  split; [|split; [|split]]; (split; [|first
    [apply validate_headline_ok|apply validate_headline_bad
    |apply validate_description_ok|apply validate_description_bad]]); intros H.
  - destruct (C30 (length h)) as [E|[E|E]]; try exact E;
      rewrite (surjective_pairing (validate_headline h)) in H;
      rewrite validate_headline_bad in H by lia; discriminate.
  - destruct (C30 (length h)) as [E|[E|E]]; auto.
    rewrite validate_headline_ok in H by exact E. discriminate.
  - destruct (C90 (length d)) as [E|[E|E]]; try exact E;
      rewrite (surjective_pairing (validate_description d)) in H;
      rewrite validate_description_bad in H by lia; discriminate.
  - destruct (C90 (length d)) as [E|[E|E]]; auto.
    rewrite validate_description_ok in H by exact E. discriminate.
Qed.

Lemma truncate_to_length n (s : str) :
  3 <= n -> length (truncate_to n s) = Nat.min (length s) n.
Proof.
  intros Hn. destruct (Nat.le_gt_cases (length s) n) as [Hle|Hgt].
  - rewrite truncate_to_short by exact Hle. lia.
  - destruct (truncate_to_long n s Hn Hgt) as [-> _]. lia.
Qed.

Lemma truncate_to_head n (s : str) :
  3 <= n -> firstn (n - 3) (truncate_to n s) = firstn (n - 3) s.
Proof.
  intros Hn. unfold truncate_to, slice_to.
  destruct (Nat.leb_spec (length s) n) as [Hle|Hgt]; [reflexivity|].
  rewrite firstn_app, firstn_firstn, Nat.min_id, length_firstn.
  replace (n - 3 - Nat.min (n - 3) (length s)) with 0 by lia.
  cbn [firstn]. apply app_nil_r.
Qed.

(** X2. Truncation caps the length at the limit and keeps the head: the
    result has [min(len, limit)] characters and its first [limit - 3]
    characters are those of the input. In particular the empty string
    stays empty. *)
Theorem truncation_caps_the_length_and_keeps_the_head (s : str) :
  length (truncate_headline s) = Nat.min (length s) 30 /\
  firstn 27 (truncate_headline s) = firstn 27 s /\
  length (truncate_description s) = Nat.min (length s) 90 /\
  firstn 87 (truncate_description s) = firstn 87 s.
Proof.
  change truncate_headline with (truncate_to 30).
  change truncate_description with (truncate_to 90).
  repeat split.
  - apply truncate_to_length; lia.
  - apply (truncate_to_head 30); lia.
  - apply truncate_to_length; lia.
  - apply (truncate_to_head 90); lia.
Qed.

Lemma report_nil label check : report label check = [] <-> fst check = true.
Proof. unfold report. destruct (fst check); split; congruence. Qed.

Lemma report_length label check :
  length (report label check) = if fst check then 0 else 1.
Proof. unfold report. now destruct (fst check). Qed.

Lemma optional_path_report rt label (path : str) :
  match path with [] => [] | _ => report label (validate_path rt path) end
  = report label (validate_path rt path).
Proof. now destruct path. Qed.

(** X3. [validate_ad] reports the invalid fields one by one, in the order
    headline, description, first path, second path: one error for each
    field that does not pass, and none at all exactly when every field
    passes (an empty path passes). *)
Theorem ad_has_one_error_per_invalid_field rt (h d p1 p2 : str) :
  validate_ad rt h d p1 p2
  = report (u "Заголовок: ") (validate_headline h)
    ++ report (u "Описание: ") (validate_description d)
    ++ report (u "Путь 1: ") (validate_path rt p1)
    ++ report (u "Путь 2: ") (validate_path rt p2) /\
  length (validate_ad rt h d p1 p2)
  = (if fst (validate_headline h) then 0 else 1)
    + (if fst (validate_description d) then 0 else 1)
    + (if fst (validate_path rt p1) then 0 else 1)
    + (if fst (validate_path rt p2) then 0 else 1) /\
  (validate_ad rt h d p1 p2 = [] <->
   fst (validate_headline h) = true /\ fst (validate_description d) = true /\
   fst (validate_path rt p1) = true /\ fst (validate_path rt p2) = true).
Proof.
  assert (validate_ad rt h d p1 p2
          = report (u "Заголовок: ") (validate_headline h)
            ++ report (u "Описание: ") (validate_description d)
            ++ report (u "Путь 1: ") (validate_path rt p1)
            ++ report (u "Путь 2: ") (validate_path rt p2)) as E.
  { unfold validate_ad. now rewrite !optional_path_report. }
  split; [exact E|]. rewrite E. split.
  - rewrite !length_app, !report_length. lia.
  - split.
    + intros H. repeat (apply app_eq_nil in H as [?H H]).
      repeat match goal with
      | H : report _ _ = [] |- _ => apply report_nil in H
      end. auto.
    + intros (H1 & H2 & H3 & H4).
      apply report_nil with (label := u "Заголовок: ") in H1.
      apply report_nil with (label := u "Описание: ") in H2.
      apply report_nil with (label := u "Путь 1: ") in H3.
      apply report_nil with (label := u "Путь 2: ") in H4.
      now rewrite H1, H2, H3, H4.
Qed.

(** X4. What the truncation functions return for a non-empty text passes the
    validator of the same field, so an ad made of a truncated headline
    and a truncated description has no error. *)
Theorem truncated_text_is_valid rt (h d : str) :
  h <> [] -> d <> [] ->
  validate_headline (truncate_headline h) = (true, u "OK") /\
  validate_description (truncate_description d) = (true, u "OK") /\
  validate_ad rt (truncate_headline h) (truncate_description d) [] [] = [].
Proof.
  intros Hh Hd.
  assert (validate_headline (truncate_headline h) = (true, u "OK")) as E1.
  { apply validate_headline_ok. change truncate_headline with (truncate_to 30).
    rewrite truncate_to_length by lia. destruct h; [congruence|cbn [length]; lia]. }
  assert (validate_description (truncate_description d) = (true, u "OK")) as E2.
  { apply validate_description_ok. change truncate_description with (truncate_to 90).
    rewrite truncate_to_length by lia. destruct d; [congruence|cbn [length]; lia]. }
  split; [exact E1|]. split; [exact E2|].
  unfold validate_ad. now rewrite E1, E2.
Qed.

(** The property above at a headline of 42 characters and a description
    of 100. *)
Lemma truncated_espresso_ad_example :
  validate_headline (truncate_headline (u "Professional espresso machines for offices"))
  = (true, u "OK") /\
  validate_description (truncate_description (repeat 120%N 100)) = (true, u "OK") /\
  validate_ad ascii_runtime
    (truncate_headline (u "Professional espresso machines for offices"))
    (truncate_description (repeat 120%N 100)) [] [] = [].
Proof.
  apply (truncated_text_is_valid ascii_runtime
           (u "Professional espresso machines for offices") (repeat 120%N 100));
    vm_compute; discriminate.
Defined.


Lemma isalnum_ascii rt (q : str) :
  forallb is_ascii q = true ->
  isalnum rt q = negb (length q =? 0) && forallb ascii_isalnum q.
Proof.
  intros H. unfold isalnum. destruct q as [|c q]; [reflexivity|].
  cbn [length Nat.eqb negb andb]. revert H. generalize (c :: q). clear.
  induction l as [|x l IH]; [reflexivity|]. cbn [forallb].
  intros H. apply andb_prop in H as [-> H]. now rewrite IH.
Qed.

Lemma remove_separators_ascii (p : str) :
  forallb is_ascii p = true ->
  forallb is_ascii (remove_char 95%N (remove_char 45%N p)) = true.
Proof.
  intros H. unfold remove_char. rewrite forallb_forall in *.
  intros x Hx. apply filter_In in Hx as [Hx _]. apply filter_In in Hx as [Hx _]. auto.
Qed.

Lemma separator_not_alnum c : separator c = true -> ascii_isalnum c = false.
Proof.
  unfold separator, ascii_isalnum. intros H. apply orb_prop in H as [H|H];
    apply N.eqb_eq in H; subst; reflexivity.
Qed.

Lemma remove_separators_spec (p : str) :
  let q := remove_char 95%N (remove_char 45%N p) in
  forallb ascii_isalnum q = forallb path_char p /\
  (forallb path_char p = true -> (length q =? 0) = negb (existsb ascii_isalnum p)).
Proof.
  cbv zeta. unfold remove_char. induction p as [|c p [IH1 IH2]]; [split; reflexivity|].
  cbn [filter forallb existsb]. unfold path_char at 1 3.
  destruct (N.eqb_spec c 45) as [->|H45].
  - cbn [negb]. rewrite IH1. split; [reflexivity|]. cbn. exact IH2.
  - cbn [negb filter]. destruct (N.eqb_spec c 95) as [->|H95].
    + cbn [negb]. rewrite IH1. split; [reflexivity|]. cbn. exact IH2.
    + cbn [negb forallb]. rewrite IH1, !orb_false_r. split; [reflexivity|].
      intros H. apply andb_prop in H as [-> _]. reflexivity.
Qed.

(** X5. A path of ASCII characters passes exactly when it is empty, or has
    at most 15 characters, all of them letters, digits, hyphens or
    underscores, and at least one of them a letter or a digit. *)
Theorem ascii_path_is_valid_by_its_characters rt (p : str) :
  forallb is_ascii p = true ->
  (fst (validate_path rt p) = true <->
   p = [] \/
   (length p <= 15 /\ forallb path_char p = true /\ existsb ascii_isalnum p = true)).
Proof.
  intros Hascii. destruct p as [|c p]; [split; [now left|reflexivity]|].
  unfold validate_path, PATH_MAX_LENGTH.
  rewrite isalnum_ascii by now apply remove_separators_ascii.
  destruct (remove_separators_spec (c :: p)) as [E1 E2]. cbv zeta in E1, E2. rewrite E1.
  destruct (Nat.ltb_spec 15 (length (c :: p))) as [Hlong|Hshort].
  - split; [discriminate|]. intros [H|(H & _)]; [discriminate|lia].
  - destruct (forallb path_char (c :: p)) eqn:Hall.
    + rewrite E2 by reflexivity. rewrite negb_involutive, andb_true_r.
      destruct (existsb ascii_isalnum (c :: p)); cbn [negb fst]; split.
      * intros _. right. auto.
      * reflexivity.
      * discriminate.
      * intros [H|(_ & _ & H)]; discriminate.
    + rewrite andb_false_r. cbn [negb fst]. split; [discriminate|].
      intros [H|(_ & H & _)]; discriminate.
Qed.

(** The property above at a path with a hyphen and an underscore. *)
Lemma coffee_path_example :
  fst (validate_path ascii_runtime (u "coffee-makers_2")) = true.
Proof.
  apply (proj2 (ascii_path_is_valid_by_its_characters ascii_runtime
                  (u "coffee-makers_2") eq_refl)).
  right. split; [cbn; lia|split; reflexivity].
Defined.

(** X6. A path made of hyphens and underscores only is rejected, with the
    message that names hyphens and underscores as allowed: with them
    removed nothing is left, and the empty string is not alphanumeric. *)
Theorem path_of_separators_only_is_rejected rt (p : str) :
  p <> [] -> length p <= 15 -> forallb separator p = true ->
  validate_path rt p
  = (false, u "Путь может содержать только буквы, цифры, дефисы и подчеркивания").
Proof.
  intros Hne Hlen Hsep. destruct p as [|c p]; [congruence|].
  unfold validate_path, PATH_MAX_LENGTH.
  destruct (Nat.ltb_spec 15 (length (c :: p))) as [Hlong|_]; [lia|].
  assert (remove_char 95%N (remove_char 45%N (c :: p)) = []) as ->; [|reflexivity].
  revert Hsep. generalize (c :: p). clear. unfold remove_char, separator.
  induction l as [|x l IH]; [reflexivity|]. cbn [forallb filter].
  intros H. apply andb_prop in H as [Hx H].
  destruct (N.eqb_spec x 45) as [->|H45]; cbn [negb]; [now apply IH|].
  cbn [filter]. cbn [orb] in Hx. rewrite Hx. cbn [negb]. now apply IH.
Qed.

(** The property above at the path ["-_-"]. *)
Lemma dashes_path_example :
  validate_path ascii_runtime (u "-_-")
  = (false, u "Путь может содержать только буквы, цифры, дефисы и подчеркивания").
Proof.
  apply (path_of_separators_only_is_rejected ascii_runtime (u "-_-"));
    [discriminate|cbn; lia|reflexivity].
Defined.


End ValidatorMore.

(* ===================================================================== *)
(** * Further properties of the tool server                               *)
(* ===================================================================== *)

Module ServerMore.
Import Py PyFacts GoogleAdsMCPServer ServerFacts.

Ltac routed_call :=
  match goal with
  | |- exists c, _ /\ list_accounts _ = _ => exists Call_list_accounts
  | |- exists c, _ /\ get_account_summary _ ?dr = _ => exists (Call_get_account_summary dr)
  | |- exists c, _ /\ get_campaigns _ ?dr ?sf = _ => exists (Call_get_campaigns dr sf)
  | |- exists c, _ /\ diagnose_low_quality_scores _ ?mi = _ =>
    exists (Call_diagnose_low_quality_scores mi)
  | |- exists c, _ /\ get_negative_keywords _ ?cid = _ =>
    exists (Call_get_negative_keywords cid)
  | |- exists c, _ /\ get_keywords _ ?cid ?dr ?mi = _ => exists (Call_get_keywords cid dr mi)
  | |- exists c, _ /\ get_search_terms _ ?cid ?dr = _ => exists (Call_get_search_terms cid dr)
  | |- exists c, _ /\ diagnose_high_cost_campaigns _ = _ =>
    exists Call_diagnose_high_cost_campaigns
  | |- exists c, _ /\ find_disapproved_ads _ = _ => exists Call_find_disapproved_ads
  | |- exists c, _ /\ get_geographic_performance _ ?cid ?dr = _ =>
    exists (Call_get_geographic_performance cid dr)
  | |- exists c, _ /\ get_device_performance _ ?cid ?dr = _ =>
    exists (Call_get_device_performance cid dr)
  end.

Lemma router_outcome rt self request :
  process_natural_language_request rt self request = unrecognized \/
  exists c, In c routed_calls /\
            process_natural_language_request rt self request = call_tool rt self c.
Proof.
  unfold process_natural_language_request. cbv zeta.
  repeat match goal with
  | |- context [if ?b then _ else _] => destruct b
  end;
    first [ left; reflexivity
          | right; routed_call; split; [cbn; tauto|reflexivity] ].
Qed.

Lemma router_cases rt self request :
  is_envelope (process_natural_language_request rt self request) \/
  exists e, process_natural_language_request rt self request = Raise e.
Proof.
  destruct (router_outcome rt self request) as [->|(c & _ & ->)].
  - left. do 2 eexists. split; reflexivity.
  - apply call_tool_cases.
Qed.

(** X7. Whatever the request, the router answers with one of eleven calls,
    each with the default arguments of its tool, or with the
    unrecognized-request envelope: the tools that need a campaign, an
    ad group, a customer id or a query are out of its reach. So its
    answer is an envelope whenever the client raises nothing outside
    [Exception] on the requests of these eleven calls, and all that can
    leave the router is what the client raised outside [Exception] on
    the request of one of them. *)
Theorem router_makes_default_calls_only rt self request :
  (process_natural_language_request rt self request = unrecognized \/
   exists c, In c routed_calls /\
             process_natural_language_request rt self request = call_tool rt self c) /\
  ((forall c, In c routed_calls -> polite self c) ->
   is_envelope (process_natural_language_request rt self request) /\
   raises (process_natural_language_request rt self request) = false) /\
  (forall e,
     process_natural_language_request rt self request = Raise e ->
     is_exception (exn_cls e) = false /\
     exists c, In c routed_calls /\ client_answer self c = Some (Raise e)).
Proof.
  split; [apply router_outcome|]. split.
  - intros Hpolite.
    assert (is_envelope (process_natural_language_request rt self request)) as Henv.
    { destruct (router_outcome rt self request) as [->|(c & Hc & ->)].
      - do 2 eexists. split; reflexivity.
      - apply polite_call_is_envelope. now apply Hpolite. }
    split; [exact Henv|]. destruct Henv as (d & b & -> & _). reflexivity.
  - intros e He.
    destruct (router_outcome rt self request) as [E|(c & Hc & E)]; rewrite E in He.
    + discriminate.
    + apply call_tool_raise in He as [Hanswer Hclass].
      split; [exact Hclass|]. now exists c.
Qed.

(** X8. When the client answers a list tool with rows, the tool returns
    them unchanged under its key, with [success = True] and a [count]
    that is the number of rows. *)
Theorem list_tools_count_their_rows rt self c key results :
  listing self c = Some (key, Ok results) ->
  exists d,
    call_tool rt self c = Ok (VDict d) /\
    dict_lookup (u "success") d = Some (VBool true) /\
    dict_lookup (u "count") d = Some (VInt (Z.of_nat (length results))) /\
    dict_lookup key d = Some (VList (map VDict results)).
Proof.
  destruct c; cbn [listing call_tool]; cbv zeta; intros [= <- E];
    eexists;
    (split; [cbv beta iota zeta delta
               [list_accounts get_campaigns get_campaign_budget get_ad_groups get_keywords
                get_search_terms get_negative_keywords get_ads get_geographic_performance
                get_device_performance diagnose_low_quality_scores
                diagnose_high_cost_campaigns find_disapproved_ads run_custom_query];
             rewrite E; reflexivity|]);
    repeat split.
Qed.

(** The property above at a keyword report of two rows. *)
Lemma two_keyword_rows_example :
  exists d,
    call_tool ascii_runtime
      {| client := {| list_accessible_customers := Ok [];
                      get_customer_info := fun _ => Ok [];
                      search := fun _ _ => Ok [[(u "campaign", VDict [(u "id", VInt 7)])]; []] |};
         customer_id := Some (u "1234567890") |}
      (Call_get_keywords None (u "LAST_30_DAYS") 0) = Ok (VDict d) /\
    dict_lookup (u "success") d = Some (VBool true) /\
    dict_lookup (u "count") d = Some (VInt 2) /\
    dict_lookup (u "keywords") d
    = Some (VList [VDict [(u "campaign", VDict [(u "id", VInt 7)])]; VDict []]).
Proof.
  apply (list_tools_count_their_rows ascii_runtime
           {| client := {| list_accessible_customers := Ok [];
                           get_customer_info := fun _ => Ok [];
                           search := fun _ _ =>
                             Ok [[(u "campaign", VDict [(u "id", VInt 7)])]; []] |};
              customer_id := Some (u "1234567890") |}
           (Call_get_keywords None (u "LAST_30_DAYS") 0) (u "keywords")
           [[(u "campaign", VDict [(u "id", VInt 7)])]; []]).
  reflexivity.
Defined.

(** X9. [get_account_info] looks up the id it is given, or else the id of the
    server; with neither (absent or empty) it answers "No customer ID
    provided" without consulting the client. *)
Theorem account_info_resolves_the_customer_id self cid :
  (given cid = None -> given (customer_id self) = None ->
   get_account_info self cid
   = Ok (VDict [(u "success", VBool false);
                (u "error", VStr (u "No customer ID provided"))])) /\
  (forall c info,
     given cid = Some c -> get_customer_info (client self) c = Ok info ->
     get_account_info self cid
     = Ok (VDict [(u "success", VBool true); (u "account", VDict info)])) /\
  (forall c info,
     given cid = None -> given (customer_id self) = Some c ->
     get_customer_info (client self) c = Ok info ->
     get_account_info self cid
     = Ok (VDict [(u "success", VBool true); (u "account", VDict info)])).
Proof.
  unfold get_account_info, or_else. split; [|split].
  - intros -> ->. reflexivity.
  - intros c info Hc Hinfo.
    assert (cid = Some c) as -> by (destruct cid as [[|? ?]|]; cbn in Hc; congruence).
    rewrite Hc. cbv beta iota. rewrite Hc, Hinfo. reflexivity.
  - intros c info -> Hc Hinfo. rewrite Hc, Hinfo. reflexivity.
Qed.

Lemma row_has_campaign_printed rt cid r :
  row_has_campaign rt cid r
  = match printed_campaign_id rt r with
    | Some printed => Ok (str_eqb printed cid)
    | None => Raise (no_attribute (dict_get (u "campaign") (VDict []) r) (u "get"))
    end.
Proof.
  unfold row_has_campaign, printed_campaign_id.
  now destruct (dict_get (u "campaign") (VDict []) r).
Qed.

Lemma filter_rows_well_formed rt cid results :
  Forall (fun r => printed_campaign_id rt r <> None) results ->
  filter_rows (row_has_campaign rt cid) results = Ok (filter (is_campaign rt cid) results).
Proof.
  induction 1 as [|r rest Hr _ IH]; [reflexivity|].
  cbn [filter_rows filter]. rewrite row_has_campaign_printed, IH. unfold is_campaign.
  destruct (printed_campaign_id rt r); [reflexivity|congruence].
Qed.

Lemma filter_rows_ill_formed rt cid results :
  Exists (fun r => printed_campaign_id rt r = None) results ->
  raises (filter_rows (row_has_campaign rt cid) results) = true.
Proof.
  induction 1 as [r rest Hr|r rest _ IH]; cbn [filter_rows].
  - rewrite row_has_campaign_printed, Hr. reflexivity.
  - destruct (row_has_campaign rt cid r); [|reflexivity]. cbn [bind].
    destruct (filter_rows _ rest); [discriminate|reflexivity].
Qed.

Lemma head_of_filter {A} (f : A -> bool) (l : list A) :
  match filter f l with x :: _ => Some x | [] => None end = find f l.
Proof.
  induction l as [|a l IH]; [reflexivity|]. cbn. now destruct (f a).
Qed.

(** X10. [get_campaign_performance] asks for every campaign and returns the
    first row whose campaign id, printed, is the id asked for, or
    [None] when there is none; a row with no campaign entry prints as
    ["None"]. One row whose campaign entry is not a dict is enough to
    turn the whole answer into a failure envelope. *)
Theorem campaign_performance_returns_the_first_match rt self cid dr results :
  search (client self) (customer_id self) (GoogleAdsQueries.get_campaigns_overview dr None)
  = Ok results ->
  (Forall (fun r => printed_campaign_id rt r <> None) results ->
   get_campaign_performance rt self cid dr
   = Ok (VDict [(u "success", VBool true);
                (u "campaign",
                 match find (is_campaign rt cid) results with
                 | Some r => VDict r
                 | None => VNone
                 end);
                (u "date_range", VStr dr)])) /\
  (Exists (fun r => printed_campaign_id rt r = None) results ->
   exists msg,
     get_campaign_performance rt self cid dr
     = Ok (VDict [(u "success", VBool false); (u "error", VStr msg)])) /\
  printed_campaign_id rt [] = Some (u "None").
Proof.
  intros Hsearch. unfold get_campaign_performance. cbv zeta. rewrite Hsearch. cbn [bind].
  split; [|split; [|reflexivity]].
  - intros Hall. rewrite filter_rows_well_formed by exact Hall. cbn [bind try_except].
    rewrite <- head_of_filter. now destruct (filter (is_campaign rt cid) results).
  - intros Hbad. apply filter_rows_ill_formed with (cid := cid) in Hbad.
    destruct (filter_rows _ results) as [|e] eqn:Ef; [discriminate|].
    exists (exn_msg e). cbn [bind try_except].
    apply filter_rows_raise in Ef. rewrite Ef. reflexivity.
Qed.

(** The property above at three rows, the second and third of campaign
    42: the second is returned. *)
Lemma second_row_example :
  get_campaign_performance ascii_runtime
    {| client := {| list_accessible_customers := Ok [];
                    get_customer_info := fun _ => Ok [];
                    search := fun _ _ =>
                      Ok [[(u "campaign", VDict [(u "id", VInt 41)])];
                          [(u "campaign", VDict [(u "id", VInt 42)]); (u "n", VInt 1)];
                          [(u "campaign", VDict [(u "id", VInt 42)]); (u "n", VInt 2)]] |};
       customer_id := None |}
    (u "42") (u "LAST_7_DAYS")
  = Ok (VDict [(u "success", VBool true);
               (u "campaign",
                VDict [(u "campaign", VDict [(u "id", VInt 42)]); (u "n", VInt 1)]);
               (u "date_range", VStr (u "LAST_7_DAYS"))]).
Proof.
  refine (proj1 (campaign_performance_returns_the_first_match ascii_runtime
           {| client := {| list_accessible_customers := Ok [];
                           get_customer_info := fun _ => Ok [];
                           search := fun _ _ =>
                             Ok [[(u "campaign", VDict [(u "id", VInt 41)])];
                                 [(u "campaign", VDict [(u "id", VInt 42)]); (u "n", VInt 1)];
                                 [(u "campaign", VDict [(u "id", VInt 42)]); (u "n", VInt 2)]] |};
              customer_id := None |}
           (u "42") (u "LAST_7_DAYS") _ eq_refl) _).
  repeat constructor; discriminate.
Defined.

(** X11. Every tool that [get_available_tools] advertises is registered, but
    seven registered tools are not advertised, four of which the router
    calls: the requests "negative keywords", "location", "device" and
    "rejected" are answered by [get_negative_keywords],
    [get_geographic_performance], [get_device_performance] and
    [find_disapproved_ads], and the query of the tool reaches the
    client. *)
Theorem advertised_tools_are_registered :
  (forall name, In name advertised_names -> exists n, name = VStr n /\ In n _register_tools) /\
  filter (fun n => negb (existsb (fun a => match a with VStr m => str_eqb m n | _ => false end)
                           advertised_names)) _register_tools
  = [u "get_campaign_budget"; u "get_ad_groups"; u "get_negative_keywords"; u "get_ads";
     u "get_geographic_performance"; u "get_device_performance"; u "find_disapproved_ads"] /\
  (forall n,
     In n [u "get_negative_keywords"; u "get_geographic_performance";
           u "get_device_performance"; u "find_disapproved_ads"] ->
     exists c, In c routed_calls /\ tool_name c = n) /\
  (forall rt self,
     process_natural_language_request rt self (u "negative keywords")
     = get_negative_keywords self None /\
     process_natural_language_request rt self (u "location")
     = get_geographic_performance self None (u "LAST_30_DAYS") /\
     process_natural_language_request rt self (u "device")
     = get_device_performance self None (u "LAST_30_DAYS") /\
     process_natural_language_request rt self (u "rejected")
     = find_disapproved_ads self) /\
  (forall rt,
     (exists rest,
        process_natural_language_request rt
          (picky_server (GoogleAdsQueries.get_negative_keywords None)) (u "negative keywords")
        = Ok (VDict ((u "success", VBool true) :: (u "count", VInt 0)
                     :: (u "negative_keywords", VList []) :: rest))) /\
     (exists rest,
        process_natural_language_request rt
          (picky_server (GoogleAdsQueries.get_geographic_performance None (u "LAST_30_DAYS")))
          (u "location")
        = Ok (VDict ((u "success", VBool true) :: (u "count", VInt 0)
                     :: (u "geographic_data", VList []) :: rest))) /\
     (exists rest,
        process_natural_language_request rt
          (picky_server (GoogleAdsQueries.get_device_performance None (u "LAST_30_DAYS")))
          (u "device")
        = Ok (VDict ((u "success", VBool true) :: (u "count", VInt 0)
                     :: (u "device_data", VList []) :: rest))) /\
     (exists rest,
        process_natural_language_request rt
          (picky_server GoogleAdsQueries.find_disapproved_ads) (u "rejected")
        = Ok (VDict ((u "success", VBool true) :: (u "count", VInt 0)
                     :: (u "disapproved_ads", VList []) :: rest)))).
Proof.
  split; [|split; [|split; [|split]]].
  - intros name H. vm_compute in H.
    repeat (destruct H as [<-|H]; [eexists; split; [reflexivity|vm_compute; tauto]|]).
    destruct H.
  - vm_compute. reflexivity.
  - intros n H. cbn [In] in H.
    destruct H as [<-|[<-|[<-|[<-|[]]]]].
    + exists (Call_get_negative_keywords None). split; [cbn; tauto|reflexivity].
    + exists (Call_get_geographic_performance None (u "LAST_30_DAYS")).
      split; [cbn; tauto|reflexivity].
    + exists (Call_get_device_performance None (u "LAST_30_DAYS")).
      split; [cbn; tauto|reflexivity].
    + exists Call_find_disapproved_ads. split; [cbn; tauto|reflexivity].
  - intros rt self. repeat split; vm_compute; reflexivity.
  - intros rt. repeat split; vm_compute; eexists; reflexivity.
Qed.


End ServerMore.

(* ===================================================================== *)
(** * Further properties of the generation adapter                        *)
(* ===================================================================== *)

Module GeneratorMore.
Import Py PyFacts Config AIGenerator ExtractionFacts GeneratorFacts.

Lemma through_last_close_inv t p :
  through_last_close t = Some p ->
  exists body post, t = body ++ 125%N :: post /\ ~ In 125%N post /\ p = body ++ [125%N].
Proof.
  revert p. induction t as [|c t IH]; intros p; cbn [through_last_close]; [discriminate|].
  destruct (through_last_close t) as [q|] eqn:E.
  - intros [= <-]. destruct (IH q eq_refl) as (body & post & -> & Hpost & ->).
    exists (c :: body), post. auto.
  - destruct (N.eqb_spec c 125) as [->|]; [|discriminate]. intros [= <-].
    exists [], t. repeat split. intros H. now apply through_last_close_found in H.
Qed.

(** X12. The regular expression of the fallback, as it searches: a match
    runs from the first opening brace of the text to its last closing
    brace, and there is one exactly when a closing brace follows an
    opening one. *)
Theorem brace_search_runs_from_first_open_to_last_close (s m : str) :
  search_braces s = Some m <->
  exists pre body post,
    s = pre ++ [123%N] ++ body ++ [125%N] ++ post /\
    ~ In 123%N pre /\ ~ In 125%N post /\ m = [123%N] ++ body ++ [125%N].
Proof.
  split.
  - revert m. induction s as [|c s IH]; intros m; [discriminate|].
    cbn [search_braces match_braces].
    destruct (N.eqb_spec c 123) as [->|Hc].
    + destruct (through_last_close s) as [p|] eqn:E.
      * intros [= <-]. apply through_last_close_inv in E as (body & post & -> & Hpost & ->).
        exists [], body, post. auto.
      * intros H. apply search_braces_inv in H as (pre & rest & -> & Hin).
        exfalso. apply (through_last_close_found (pre ++ 123%N :: rest)); [|exact E].
        apply in_or_app. right. now right.
    + intros H. destruct (IH m H) as (pre & body & post & -> & Hpre & Hpost & ->).
      exists (c :: pre), body, post. repeat split; auto.
      intros [Hx|Hx]; [congruence|auto].
  - intros (pre & body & post & -> & Hpre & Hpost & ->). cbn [app].
    now apply search_braces_found.
Qed.

Lemma lstrip_all_spaces w : forallb isspace w = true -> lstrip w = [].
Proof.
  intros H. rewrite <- (app_nil_r w). now rewrite lstrip_spaces.
Qed.

Lemma rstrip_trailing_spaces x w : forallb isspace w = true -> rstrip (x ++ w) = rstrip x.
Proof.
  intros H. unfold rstrip. rewrite rev_app_distr, lstrip_spaces; [reflexivity|].
  now rewrite forallb_rev.
Qed.

Lemma strip_ignores_outer_spaces w1 s w2 :
  forallb isspace w1 = true -> forallb isspace w2 = true ->
  strip (w1 ++ s ++ w2) = strip s.
Proof.
  intros H1 H2. unfold strip. rewrite lstrip_spaces by exact H1.
  induction s as [|c s IH]; cbn [app lstrip].
  - now rewrite lstrip_all_spaces.
  - destruct (isspace c); [exact IH|].
    change (c :: s ++ w2) with ((c :: s) ++ w2). now apply rstrip_trailing_spaces.
Qed.

(** X13. White space before and after a reply changes nothing to what is
    extracted from it: the same value, or the same error with the same
    message. *)
Theorem extraction_ignores_outer_whitespace rt (pre raw post : str) :
  forallb isspace pre = true -> forallb isspace post = true ->
  extract_json rt (pre ++ raw ++ post) = extract_json rt raw.
Proof.
  intros Hpre Hpost.
  assert (strip_fences (pre ++ raw ++ post) = strip_fences raw) as E.
  { unfold strip_fences. now rewrite strip_ignores_outer_spaces. }
  unfold extract_json. now rewrite E.
Qed.

(** The property above at a reply that is no JSON, between line breaks. *)
Lemma padded_apology_example :
  extract_json ascii_runtime ([10%N; 32%N] ++ u "Sorry, no idea" ++ [13%N; 10%N])
  = extract_json ascii_runtime (u "Sorry, no idea").
Proof.
  apply (extraction_ignores_outer_whitespace ascii_runtime
           [10%N; 32%N] (u "Sorry, no idea") [13%N; 10%N]);
    reflexivity.
Defined.

(** For every backend an empty system prompt is the same as none, in
    [generate] and so in [generate_json]. *)
Theorem empty_system_prompt_is_no_system_prompt rt self prompt temperature json_mode :
  generate rt self prompt (Some []) temperature json_mode
  = generate rt self prompt None temperature json_mode /\
  generate_json rt self prompt (Some []) = generate_json rt self prompt None.
Proof.
  assert (forall p t j, generate rt self p (Some []) t j = generate rt self p None t j) as E
      by (intros p t j; unfold generate; destruct (client self); reflexivity).
  split; [apply E|].
  unfold generate_json, json_reply. cbv zeta. now rewrite !E.
Qed.

Lemma _generate_google_parts rt G model prompt sp temperature json_mode :
  _generate_google rt G model prompt sp temperature json_mode
  = bind (G (gemini_model_name rt model)) (fun gm =>
    try_except
      (bind (gm (gemini_full_prompt prompt sp json_mode) (Some (gemini_config temperature)))
         (fun response =>
          bind (text response) (fun text =>
            match text with
            | _ :: _ => Ok text
            | [] =>
              match candidates response with
              | Some parts :: _ => Ok (match parts with p :: _ => p | [] => [] end)
              | _ => Ok no_response
              end
            end)))
      (fun e =>
         try_except
           (bind (G (u "gemini-1.5-pro")) (fun gm' =>
            bind (gm' (gemini_full_prompt prompt sp json_mode) None) (fun response =>
            bind (text response) (fun text =>
              Ok (match text with _ :: _ => text | [] => no_response end)))))
           (fun _ =>
              Raise (Exn (OtherException (u "Exception"))
                       (u "Google Gemini API error: " ++ exn_msg e))))).
Proof. reflexivity. Qed.

Lemma gemini_model_name_known rt model : In (gemini_model_name rt model) gemini_models.
Proof.
  unfold gemini_model_name, gemini_models.
  destruct (contains _ (u "flash")); [now left|].
  destruct (contains _ (u "pro")); [right; now left|now left].
Qed.

(** X14. Whatever model the adapter is configured with, the Gemini backend
    asks for one of three models only: two modules that agree on these
    three give the same result. *)
Theorem gemini_asks_for_three_models_only rt G1 G2 model prompt sp temperature json_mode :
  (forall name, In name gemini_models -> G1 name = G2 name) ->
  In (gemini_model_name rt model) gemini_models /\
  _generate_google rt G1 model prompt sp temperature json_mode
  = _generate_google rt G2 model prompt sp temperature json_mode.
Proof.
  intros H. split; [apply gemini_model_name_known|].
  rewrite !_generate_google_parts.
  rewrite (H _ (gemini_model_name_known rt model)).
  rewrite (H (u "gemini-1.5-pro")) by (cbn; tauto). reflexivity.
Qed.

(** The property above at a configured model that is none of the three. *)
Lemma flash_lite_example :
  In (gemini_model_name ascii_runtime (u "Gemini-2.0-Flash-Lite")) gemini_models /\
  _generate_google ascii_runtime (strict_genai (u "{}")) (u "Gemini-2.0-Flash-Lite")
    (u "hello") None (u "0.7") true
  = _generate_google ascii_runtime (lenient_genai (u "{}")) (u "Gemini-2.0-Flash-Lite")
      (u "hello") None (u "0.7") true.
Proof.
  apply (gemini_asks_for_three_models_only ascii_runtime
           (strict_genai (u "{}")) (lenient_genai (u "{}"))).
  intros name H. cbn [In gemini_models] in H.
  destruct H as [<-|[<-|[<-|[]]]]; reflexivity.
Defined.

(** X15. When the first Gemini attempt fails with [e], an [Exception], the
    second attempt (model gemini-1.5-pro, no generation configuration)
    decides: its text is returned, ["No response generated"] standing
    for an empty one; when it fails too, what is raised is a plain
    [Exception] whose message carries the message of [e], the first
    error, and nothing of the second. An error that is no [Exception]
    is not handled: the first one ends the call without a second
    attempt, and the second one leaves the call as it is. *)
Theorem gemini_failure_keeps_the_first_message
    rt G model prompt sp temperature json_mode gm e :
  G (gemini_model_name rt model) = Ok gm ->
  gm (gemini_full_prompt prompt sp json_mode) (Some (gemini_config temperature)) = Raise e ->
  let retry :=
    bind (G (u "gemini-1.5-pro"))
      (fun gm' => bind (gm' (gemini_full_prompt prompt sp json_mode) None) text) in
  (is_exception (exn_cls e) = true ->
   (fails retry = true ->
    _generate_google rt G model prompt sp temperature json_mode
    = Raise (Exn (OtherException (u "Exception"))
               (u "Google Gemini API error: " ++ exn_msg e))) /\
   (forall reply,
      retry = Ok reply ->
      _generate_google rt G model prompt sp temperature json_mode
      = Ok (match reply with [] => no_response | _ => reply end)) /\
   (forall e',
      retry = Raise e' -> is_exception (exn_cls e') = false ->
      _generate_google rt G model prompt sp temperature json_mode = Raise e')) /\
  (is_exception (exn_cls e) = false ->
   _generate_google rt G model prompt sp temperature json_mode = Raise e).
Proof.
  intros HG Hgm retry. subst retry.
  rewrite _generate_google_parts, HG. cbn [bind]. rewrite Hgm. cbn [bind try_except].
  split; [|intros ->; reflexivity].
  intros ->.
  destruct (G (u "gemini-1.5-pro")) as [gm'|e1]; cbn [bind].
  - destruct (gm' _ None) as [response|e2]; cbn [bind].
    + destruct (text response) as [[|c reply]|e3]; cbn [bind try_except fails];
        (split; [|split]);
        try discriminate; try reflexivity;
        try (intros reply' [= <-]; reflexivity);
        try (intros ->; reflexivity);
        intros e' [= <-] ->; reflexivity.
    + cbn [try_except fails]. split; [|split].
      * intros ->. reflexivity.
      * discriminate.
      * intros e' [= <-] ->. reflexivity.
  - cbn [try_except fails]. split; [|split].
    + intros ->. reflexivity.
    + discriminate.
    + intros e' [= <-] ->. reflexivity.
Qed.

(** The property above at a module whose models fail with two different
    errors. *)
Lemma quota_then_timeout_example :
  _generate_google ascii_runtime
    (failing_genai (Exn (OtherException (u "ResourceExhausted")) (u "quota"))
                   (Exn (OtherException (u "Timeout")) (u "timeout")))
    (u "gemini-2.0-flash") (u "hello") None (u "0.7") false
  = Raise (Exn (OtherException (u "Exception")) (u "Google Gemini API error: " ++ u "quota")).
Proof.
  refine (proj1 (proj1 (gemini_failure_keeps_the_first_message ascii_runtime
           (failing_genai (Exn (OtherException (u "ResourceExhausted")) (u "quota"))
                          (Exn (OtherException (u "Timeout")) (u "timeout")))
           (u "gemini-2.0-flash") (u "hello") None (u "0.7") false
           _ (Exn (OtherException (u "ResourceExhausted")) (u "quota"))
           eq_refl eq_refl) eq_refl) eq_refl).
Defined.

(** X16. A generator that [__init__] returns is consistent: its provider is
    one of the five names, it is the name asked for (the configured one
    when none or an empty one is given), its client is the client of
    that provider, whose package imports, and its model is the model
    asked for, or else the configured one. *)
Theorem constructed_generator_is_consistent env settings provider' model' self :
  __init__ env settings provider' model' = Ok self ->
  provider self
  = match given provider' with
    | Some name => name
    | None => provider_name (ai_provider settings)
    end /\
  model self = match given model' with Some m => m | None => ai_model settings end /\
  provider self = provider_name (client_kind (client self)) /\
  importable env (client_kind (client self)) = true.
Proof.
  unfold __init__. cbv zeta.
  set (name := match given provider' with
               | Some p => p
               | None => provider_name (ai_provider settings)
               end).
  set (m := match given model' with Some m => m | None => ai_model settings end).
  unfold importing.
  repeat match goal with
  | |- context [if str_eqb name ?lit then _ else _] =>
    let E := fresh "E" in destruct (str_eqb name lit) eqn:E; [apply str_eqb_eq in E|]
  end; try discriminate;
  match goal with
  | |- context [importable env ?tag] => destruct (importable env tag) eqn:Himp
  end; try discriminate;
  repeat match goal with
  | |- context [OpenAI env ?k] => destruct (OpenAI env k) as [?|?e]
  | |- context [Anthropic env ?k] => destruct (Anthropic env k) as [?|?e]
  | |- context [genai_configure env ?k] => destruct (genai_configure env k) as [?|?e]
  | |- context [Groq env ?k] => destruct (Groq env k) as [?|?e]
  end; cbn;
  repeat match goal with
  | |- context [is_import_error ?c] => destruct (is_import_error c)
  end; cbn; try discriminate; intros [= <-]; cbn; auto.
Qed.

(** The property above at the default settings with no argument. *)
Lemma default_generator_example :
  exists self,
    __init__ permissive_sdk default_settings None None = Ok self /\
    provider self = u "google" /\ model self = u "gemini-2.0-flash" /\
    client_kind (client self) = google.
Proof.
  eexists. split; [reflexivity|].
  destruct (constructed_generator_is_consistent permissive_sdk default_settings None None
              _ eq_refl) as (H1 & H2 & _ & _).
  split; [exact H1|]. split; [exact H2|reflexivity].
Defined.

(** X17. How construction fails for a known provider: when its package does
    not import, with [ImportError] and the hint to install it; when the
    client constructor raises an [ImportError] or an exception of one
    of its subclasses (a [ModuleNotFoundError]), with [ImportError] and
    the same hint; when it raises anything else, with that very
    exception. *)
Theorem construction_errors_of_a_known_provider env settings model' tag :
  (importable env tag = false ->
   exists hint,
     __init__ env settings (Some (provider_name tag)) model' = Raise (Exn ImportError hint) /\
     contains hint (u "pip install ") = true) /\
  (forall e,
     importable env tag = true ->
     match tag with
     | openai => OpenAI env (openai_api_key settings) = Raise e
     | anthropic => Anthropic env (anthropic_api_key settings) = Raise e
     | google => genai_configure env (google_api_key settings) = Raise e
     | ollama => False
     | groq => Groq env (groq_api_key settings) = Raise e
     end ->
     (is_import_error (exn_cls e) = false ->
      __init__ env settings (Some (provider_name tag)) model' = Raise e) /\
     (is_import_error (exn_cls e) = true ->
      exists hint,
        __init__ env settings (Some (provider_name tag)) model'
        = Raise (Exn ImportError hint) /\
        contains hint (u "pip install ") = true)) /\
  is_import_error ImportError = true /\
  is_import_error ModuleNotFoundError = true /\
  (forall name parent, is_import_error (Subclass name parent) = is_import_error parent) /\
  is_import_error ValueError = false /\
  (forall name, is_import_error (OtherException name) = false) /\
  (forall name, is_import_error (BaseOnly name) = false).
Proof.
  split; [|split; [|repeat split]].
  - intros Himp. unfold __init__, importing.
    destruct tag; cbn [given provider_name]; compare_names; rewrite Himp;
      eexists; (split; [reflexivity|vm_compute; reflexivity]).
  - intros e Himp H. unfold __init__, importing.
    destruct tag; cbn [given provider_name]; compare_names; rewrite ?Himp;
      try contradiction; rewrite H; cbn [bind];
      (split; intros ->; cbn [bind];
       [reflexivity|eexists; split; [reflexivity|vm_compute; reflexivity]]).
Qed.

(** The property above at a Groq client whose constructor misses a
    module. *)
Lemma missing_module_example :
  exists hint,
    __init__ broken_groq_sdk default_settings (Some (u "groq")) None
    = Raise (Exn ImportError hint) /\
    contains hint (u "pip install ") = true.
Proof.
  refine (proj2 (proj1 (proj2 (construction_errors_of_a_known_provider broken_groq_sdk
                                  default_settings None groq))
                   missing_module eq_refl eq_refl) eq_refl).
Defined.


Lemma split_go_words cur s w :
  forallb (fun c => negb (isspace c)) cur = true ->
  In w (split_go cur s) ->
  w <> [] /\ forallb (fun c => negb (isspace c)) w = true /\
  (forall c, In c w -> In c cur \/ In c s).
Proof.
  revert cur. induction s as [|x s IH]; intros cur Hcur; cbn [split_go].
  - destruct cur as [|c cur]; [intros []|]. intros [<-|[]]. split; [|split].
    + intros H. apply (f_equal (@length N)) in H. rewrite length_rev in H. discriminate.
    + now rewrite forallb_rev.
    + intros y Hy. left. now apply in_rev.
  - destruct (isspace x) eqn:Hx.
    + assert (In w (split_go [] s) ->
              w <> [] /\ forallb (fun c => negb (isspace c)) w = true /\
              (forall c, In c w -> In c cur \/ In c (x :: s))) as Hrest.
      { intros H. destruct (IH [] eq_refl H) as (H1 & H2 & H3).
        split; [exact H1|]. split; [exact H2|].
        intros y Hy. destruct (H3 y Hy) as [[]|]. right. now right. }
      destruct cur as [|c cur]; [exact Hrest|]. intros [<-|H]; [|now apply Hrest].
      split; [|split].
      * intros H. apply (f_equal (@length N)) in H. rewrite length_rev in H. discriminate.
      * now rewrite forallb_rev.
      * intros y Hy. left. now apply in_rev.
    + intros H. destruct (IH (x :: cur)) with (2 := H) as (H1 & H2 & H3).
      { cbn [forallb]. now rewrite Hx, Hcur. }
      split; [exact H1|]. split; [exact H2|].
      intros y Hy. destruct (H3 y Hy) as [[<-|Hc]|Hs]; [right; now left|now left|].
      right. now right.
Qed.

(** X18. The words the fallback makes keywords of have at least four
    characters and no white space in them; for a product name written
    in ASCII they have no capital letter either. *)
Theorem fallback_words_are_clean rt (name w : str) :
  In w (product_words rt name) ->
  4 <= length w /\
  forallb (fun c => negb (isspace c)) w = true /\
  (forallb is_ascii name = true ->
   forallb (fun c => negb ((65 <=? c) && (c <=? 90))%N) w = true).
Proof.
  unfold product_words. intros H. apply filter_In in H as [Hw Hlen].
  apply Nat.ltb_lt in Hlen.
  destruct (split_go_words [] (lower rt name) w eq_refl Hw) as (_ & Hclean & Hsub).
  split; [lia|]. split; [exact Hclean|].
  intros Hascii. apply forallb_forall. intros c Hc.
  destruct (Hsub c Hc) as [[]|Hin]. unfold lower in Hin. rewrite Hascii in Hin.
  apply in_map_iff in Hin as (d & <- & _). unfold ascii_lower.
  destruct (N.leb_spec 65 d), (N.leb_spec d 90); cbn [andb];
    repeat match goal with
    | |- context [(?a <=? ?b)%N] => destruct (N.leb_spec a b)
    end; cbn; try reflexivity; lia.
Qed.

(** The property above at a word of a product name. *)
Lemma coffee_word_example :
  4 <= length (u "coffee") /\
  forallb (fun c => negb (isspace c)) (u "coffee") = true /\
  (forallb is_ascii (u "Smart Coffee Maker Pro") = true ->
   forallb (fun c => negb ((65 <=? c) && (c <=? 90))%N) (u "coffee") = true).
Proof.
  apply (fallback_words_are_clean ascii_runtime (u "Smart Coffee Maker Pro") (u "coffee")).
  vm_compute. tauto.
Defined.

(** X19. The fallback reads the product name as text. When the backend fails
    with an [Exception] and the analysis holds something else under ['product_name'], a
    value that counts as false (None, 0, an empty list) is treated like
    a missing name, and one that counts as true makes
    [generate_keywords] raise [AttributeError]: no keyword is returned. *)
Theorem fallback_needs_a_text_product_name rt self fab context v :
  dict_lookup (u "product_name") fab = Some v ->
  (forall name, v <> VStr name) ->
  fails (generate_json rt self (keywords_prompt rt fab context)
           (Some keywords_system_prompt)) = true ->
  (truthy rt v = true ->
   generate_keywords rt self fab context = Raise (no_attribute v (u "lower"))) /\
  (truthy rt v = false ->
   generate_keywords rt self fab context
   = Ok (VDict [(u "keywords", VList generic_keywords)])).
Proof.
  intros Hv Htext Hfail. unfold generate_keywords. cbv zeta.
  destruct (generate_json _ _ _ _) as [|e]; [discriminate|]. cbn [try_except fails] in *.
  rewrite Hfail.
  unfold _generate_fallback_keywords, dict_get. rewrite Hv. cbv zeta.
  split; intros ->; [|reflexivity].
  destruct v; try reflexivity. now destruct (Htext s).
Qed.

(** The property above at an analysis whose product name is a number. *)
Lemma numeric_product_name_example :
  generate_keywords ascii_runtime unreachable [(u "product_name", VInt 42)] None
  = Raise (no_attribute (VInt 42) (u "lower")).
Proof.
  refine (proj1 (fallback_needs_a_text_product_name ascii_runtime unreachable
                   [(u "product_name", VInt 42)] None (VInt 42) eq_refl _ eq_refl) eq_refl).
  intros name. discriminate.
Defined.

Lemma no_response_is_unparsable rt :
  extract_json rt no_response = Raise (unparsable no_response).
Proof. vm_compute. reflexivity. Qed.

(** X20. A Gemini reply without text and without candidate reaches no caller
    as an empty string: [generate] returns ["No response generated"],
    [generate_json] raises [ValueError] on it, and [generate_keywords]
    answers with the fallback keywords. *)
Theorem silent_gemini_reply_ends_in_the_fallback
    rt self G fab context name gm response :
  client self = GenaiModule G ->
  product_name_of fab = Some name ->
  let prompt := keywords_prompt rt fab context in
  G (gemini_model_name rt (model self)) = Ok gm ->
  gm (gemini_full_prompt (prompt ++ json_instruction) (Some keywords_system_prompt) true)
     (Some (gemini_config (u "0.7"))) = Ok response ->
  text response = Ok [] -> candidates response = [] ->
  generate rt self (prompt ++ json_instruction) (Some keywords_system_prompt) (u "0.7") true
  = Ok no_response /\
  generate_json rt self prompt (Some keywords_system_prompt)
  = Raise (Exn ValueError (u "Не удалось распарсить JSON из ответа: " ++ no_response)) /\
  generate_keywords rt self fab context
  = Ok (VDict [(u "keywords",
                VList (map word_keyword (product_words rt name) ++ generic_keywords))]).
Proof.
  intros Hclient Hname prompt HG Hgm Htext Hcand.
  assert (generate rt self (prompt ++ json_instruction) (Some keywords_system_prompt)
            (u "0.7") true = Ok no_response) as E1.
  { unfold generate. rewrite Hclient, _generate_google_parts, HG. cbn [bind].
    rewrite Hgm. cbn [bind]. rewrite Htext. cbn [bind]. rewrite Hcand. reflexivity. }
  assert (generate_json rt self prompt (Some keywords_system_prompt)
          = Raise (unparsable no_response)) as E2.
  { unfold generate_json, json_reply. cbv zeta. rewrite E1. cbn [try_except bind].
    apply no_response_is_unparsable. }
  split; [exact E1|]. split; [exact E2|].
  unfold generate_keywords. cbv zeta. fold prompt. rewrite E2. cbn [try_except].
  now apply fallback_on_text.
Qed.

(** The property above at a module whose models answer with nothing. *)
Lemma silent_gemini_example :
  generate_keywords ascii_runtime silent_gemini
    [(u "product_name", VStr (u "Smart Coffee Maker Pro"))] None
  = Ok (VDict [(u "keywords",
                VList (map word_keyword
                         (product_words ascii_runtime (u "Smart Coffee Maker Pro"))
                       ++ generic_keywords))]).
Proof.
  refine (proj2 (proj2 (silent_gemini_reply_ends_in_the_fallback ascii_runtime silent_gemini
           (lenient_genai []) [(u "product_name", VStr (u "Smart Coffee Maker Pro"))] None
           (u "Smart Coffee Maker Pro") (gemini_answering [])
           {| text := Ok []; candidates := [] |}
           eq_refl eq_refl eq_refl eq_refl eq_refl eq_refl))).
Defined.


End GeneratorMore.

(* ===================================================================== *)
(** * Properties of the Google Ads client wrapper                         *)
(* ===================================================================== *)

Module AdsClientFacts.
Import Py PyFacts AdsClient.

Lemma split_on_not_nil sep cur s : split_on sep cur s <> [].
Proof.
  revert cur. induction s as [|c s IH]; intros cur; cbn [split_on]; [discriminate|].
  destruct (c =? sep)%N; [discriminate|apply IH].
Qed.

Lemma last_cons_not_nil {A} (a : A) l d : l <> [] -> last (a :: l) d = last l d.
Proof. destruct l; [congruence|reflexivity]. Qed.

Lemma split_on_last sep cur s :
  (~ In sep s /\ last (split_on sep cur s) [] = rev cur ++ s) \/
  (exists front piece,
     s = front ++ sep :: piece /\ ~ In sep piece /\ last (split_on sep cur s) [] = piece).
Proof.
  revert cur. induction s as [|c s IH]; intros cur; cbn [split_on].
  - left. split; [intros []|]. cbn [last]. now rewrite app_nil_r.
  - destruct (N.eqb_spec c sep) as [->|Hc].
    + right. rewrite last_cons_not_nil by apply split_on_not_nil.
      destruct (IH []) as [[Hno E]|(front & piece & -> & Hno & E)].
      * exists [], s. cbn [rev app] in E. auto.
      * exists (sep :: front), piece. auto.
    + destruct (IH (c :: cur)) as [[Hno E]|(front & piece & -> & Hno & E)].
      * left. split; [intros [H|H]; [congruence|auto]|].
        rewrite E. cbn [rev]. now rewrite <- app_assoc.
      * right. exists (c :: front), piece. auto.
Qed.

Lemma customer_id_of_spec name :
  ~ In 47%N (customer_id_of name) /\
  (name = customer_id_of name \/ exists front, name = front ++ 47%N :: customer_id_of name).
Proof.
  unfold customer_id_of.
  destruct (split_on_last 47%N [] name) as [[Hno E]|(front & piece & E & Hno & ->)].
  - rewrite E. cbn [rev app]. auto.
  - split; [exact Hno|]. right. now exists front.
Qed.

(** X21. [list_accessible_customers] returns one record for each resource
    name the API lists, in the same order; its id is what follows the
    last slash of the name (the whole name when it has no slash) and so
    holds no slash itself. Through the tool server, [list_accounts]
    counts these records. *)
Theorem customers_are_named_by_the_last_segment api names own_id :
  accessible_customers api = Ok names ->
  exists customers,
    list_accessible_customers api = Ok customers /\
    length customers = length names /\
    Forall2
      (fun name c =>
         c = [(u "id", VStr (customer_id_of name)); (u "resource_name", VStr name)] /\
         ~ In 47%N (customer_id_of name) /\
         (name = customer_id_of name \/
          exists front, name = front ++ 47%N :: customer_id_of name))
      names customers /\
    GoogleAdsMCPServer.list_accounts
      {| GoogleAdsMCPServer.client := GoogleAdsClient api;
         GoogleAdsMCPServer.customer_id := own_id |}
    = Ok (VDict [(u "success", VBool true);
                 (u "count", VInt (Z.of_nat (length names)));
                 (u "accounts", VList (map VDict customers))]).
Proof.
  intros H. eexists. unfold GoogleAdsMCPServer.list_accounts. cbn.
  unfold list_accessible_customers. rewrite H. cbn [bind try_except].
  split; [reflexivity|]. split; [apply length_map|]. split.
  - clear H. induction names as [|name names IH]; cbn [map]; constructor; [|exact IH].
    split; [reflexivity|apply customer_id_of_spec].
  - unfold GoogleAdsMCPServer.vlen, GoogleAdsMCPServer.rows. now rewrite length_map.
Qed.

(** The property above at two accounts. *)
Lemma two_accounts_example :
  GoogleAdsMCPServer.list_accounts
    {| GoogleAdsMCPServer.client := GoogleAdsClient example_api;
       GoogleAdsMCPServer.customer_id := None |}
  = Ok (VDict [(u "success", VBool true);
               (u "count", VInt 2);
               (u "accounts",
                VList [VDict [(u "id", VStr (u "1234567890"));
                              (u "resource_name", VStr (u "customers/1234567890"))];
                       VDict [(u "id", VStr (u "42"));
                              (u "resource_name", VStr (u "customers/42"))]])]).
Proof.
  destruct (customers_are_named_by_the_last_segment example_api
              [u "customers/1234567890"; u "customers/42"] None eq_refl)
    as (customers & E & _ & _ & H).
  injection E as <-. exact H.
Defined.




(** X23. [validate_credentials] answers [True] exactly when the API lists at
    least one accessible customer; it answers [False] exactly when the
    API lists none or raises an exception derived from [Exception]; and
    what the API raises outside [Exception] (a [KeyboardInterrupt], a
    [SystemExit]) leaves it unchanged. *)
Theorem credentials_are_valid_with_one_customer api :
  (validate_credentials api = Ok true <->
   exists name rest, accessible_customers api = Ok (name :: rest)) /\
  (validate_credentials api = Ok false <->
   accessible_customers api = Ok [] \/
   exists e, accessible_customers api = Raise e /\ is_exception (exn_cls e) = true) /\
  (forall e,
     validate_credentials api = Raise e <->
     accessible_customers api = Raise e /\ is_exception (exn_cls e) = false).
Proof.
  unfold validate_credentials, list_accessible_customers.
  destruct (accessible_customers api) as [[|name rest]|e]; cbn [bind try_except map length].
  - split; [|split].
    + split; [discriminate|intros (? & ? & ?); discriminate].
    + split; [now left|reflexivity].
    + intros e. split; [discriminate|intros [? _]; discriminate].
  - split; [|split].
    + split; [eauto|reflexivity].
    + split; [discriminate|intros [?|(? & ? & _)]; discriminate].
    + intros e. split; [discriminate|intros [? _]; discriminate].
  - destruct (is_exception (exn_cls e)) eqn:He; (split; [|split]).
    + split; [discriminate|intros (? & ? & ?); discriminate].
    + split; [intros _; right; now exists e|reflexivity].
    + intros e'. split; [discriminate|intros [[= <-] H]; congruence].
    + split; [discriminate|intros (? & ? & ?); discriminate].
    + split; [discriminate|intros [?|(e' & [= <-] & H)]; [discriminate|congruence]].
    + intros e'. split; [intros [= <-]; now split|intros [[= <-] _]; reflexivity].
Qed.

(** X24. An id the API has no row for is no error: [get_customer_info]
    returns an empty dict, and the tool server answers
    [get_account_info] with [success = True] and an empty account. *)
Theorem unknown_customer_is_an_empty_account api own_id c :
  c <> [] ->
  ga_search api (Some c) (customer_query c) = Ok {| yielded := []; broken := None |} ->
  get_customer_info api c = Ok [] /\
  GoogleAdsMCPServer.get_account_info
    {| GoogleAdsMCPServer.client := GoogleAdsClient api;
       GoogleAdsMCPServer.customer_id := own_id |} (Some c)
  = Ok (VDict [(u "success", VBool true); (u "account", VDict [])]).
Proof.
  intros Hc H.
  assert (get_customer_info api c = Ok []) as E
      by (unfold get_customer_info; rewrite H; reflexivity).
  split; [exact E|].
  unfold GoogleAdsMCPServer.get_account_info, GoogleAdsMCPServer.or_else.
  destruct c as [|x c]; [congruence|]. cbn. rewrite E. reflexivity.
Qed.

(** The property above at an API that finds nothing. *)
Lemma no_such_customer_example :
  get_customer_info
    {| accessible_customers := Ok [];
       ga_search := fun _ _ => Ok {| yielded := []; broken := None |} |} (u "999") = Ok [].
Proof.
  refine (proj1 (unknown_customer_is_an_empty_account
                   {| accessible_customers := Ok [];
                      ga_search := fun _ _ => Ok {| yielded := []; broken := None |} |}
                   None (u "999") _ eq_refl)).
  discriminate.
Defined.

Lemma printed_id_of_row rt r :
  GoogleAdsMCPServer.printed_campaign_id rt (_row_to_dict r)
  = Some match row_campaign r with
         | Some c => str_of_Z (entity_id c)
         | None => u "None"
         end.
Proof.
  unfold GoogleAdsMCPServer.printed_campaign_id, _row_to_dict.
  destruct (row_campaign r), (row_ad_group r), (row_metrics r); reflexivity.
Qed.

Lemma is_campaign_of_row rt cid r :
  GoogleAdsMCPServer.is_campaign rt cid (_row_to_dict r) = row_is_campaign cid r.
Proof.
  unfold GoogleAdsMCPServer.is_campaign, row_is_campaign. rewrite printed_id_of_row.
  now destruct (row_campaign r).
Qed.

Lemma find_map {A B} (f : B -> bool) (g : A -> B) (l : list A) :
  find f (map g l) = option_map g (find (fun a => f (g a)) l).
Proof.
  induction l as [|a l IH]; [reflexivity|]. cbn. now destruct (f (g a)).
Qed.

(** X25. Over the wrapper, [get_campaign_performance] never fails on the
    rows themselves: it returns the reduced form of the first row of
    the API whose campaign id, an integer, prints as the id asked for,
    or [None] when no row does. *)
Theorem campaign_performance_over_the_wrapper rt api own_id cid dr response :
  ga_search api own_id (GoogleAdsQueries.get_campaigns_overview dr None) = Ok response ->
  broken response = None ->
  GoogleAdsMCPServer.get_campaign_performance rt
    {| GoogleAdsMCPServer.client := GoogleAdsClient api;
       GoogleAdsMCPServer.customer_id := own_id |} cid dr
  = Ok (VDict [(u "success", VBool true);
               (u "campaign",
                match find (row_is_campaign cid) (yielded response) with
                | Some r => VDict (_row_to_dict r)
                | None => VNone
                end);
               (u "date_range", VStr dr)]).
Proof.
  intros H Hwhole. unfold GoogleAdsMCPServer.get_campaign_performance. cbv zeta.
  cbn [GoogleAdsMCPServer.client GoogleAdsMCPServer.customer_id GoogleAdsClient
       GoogleAdsMCPServer.search].
  unfold search, all_rows. rewrite H. cbn [bind]. rewrite Hwhole. cbn [bind].
  rewrite (ServerMore.filter_rows_well_formed rt cid).
  - cbn [bind try_except]. rewrite <- (ServerMore.head_of_filter (row_is_campaign cid)).
    f_equal. f_equal. f_equal. f_equal. f_equal.
    induction (yielded response) as [|r rows IH]; [reflexivity|].
    cbn [map filter]. rewrite is_campaign_of_row.
    destruct (row_is_campaign cid r); [reflexivity|exact IH].
  - apply Forall_forall. intros d Hd. apply in_map_iff in Hd as (r & <- & _).
    rewrite printed_id_of_row. discriminate.
Qed.

(** The property above at a report of two campaigns. *)
Lemma campaign_42_example :
  GoogleAdsMCPServer.get_campaign_performance ascii_runtime
    {| GoogleAdsMCPServer.client := GoogleAdsClient example_api;
       GoogleAdsMCPServer.customer_id := None |} (u "42") (u "LAST_30_DAYS")
  = Ok (VDict [(u "success", VBool true);
               (u "campaign", VDict (_row_to_dict (keyword_row 42 (u "latte"))));
               (u "date_range", VStr (u "LAST_30_DAYS"))]).
Proof.
  refine (campaign_performance_over_the_wrapper ascii_runtime example_api None (u "42")
            (u "LAST_30_DAYS") _ eq_refl eq_refl).
Defined.


End AdsClientFacts.

(* ===================================================================== *)
(** * Properties of the analysis step, the templates and the web layer    *)
(* ===================================================================== *)

Module PipelineFacts.
Import Py PyFacts AIGenerator FAB Analysis WebApp.

Lemma dict_lookup_set_same k v d : dict_lookup k (dict_set k v d) = Some v.
Proof.
  induction d as [|[k' v'] d IH]; cbn [dict_set dict_lookup].
  - now rewrite str_eqb_refl.
  - destruct (str_eqb k k') eqn:E; cbn [dict_lookup].
    + now rewrite str_eqb_refl.
    + now rewrite E.
Qed.

Lemma dict_lookup_set_other k k' v d :
  str_eqb k' k = false -> dict_lookup k' (dict_set k v d) = dict_lookup k' d.
Proof.
  intros H. induction d as [|[k0 v0] d IH]; cbn [dict_set dict_lookup].
  - now rewrite H.
  - destruct (str_eqb k k0) eqn:E; cbn [dict_lookup].
    + apply str_eqb_eq in E. subst k0. now rewrite H.
    + now rewrite IH.
Qed.

Lemma dict_get_set_other k k' v default d :
  str_eqb k' k = false -> dict_get k' default (dict_set k v d) = dict_get k' default d.
Proof. intros H. unfold dict_get. now rewrite dict_lookup_set_other. Qed.

Lemma analysis_prompt_shape rt dict_slice content :
  exists head tail,
    forall text : str,
      create_fab_analysis_prompt rt dict_slice (with_main_content text content)
      = Ok (head ++ slice_to 2000 text ++ tail).
Proof.
  do 2 eexists. intros text. etransitivity.
  - unfold create_fab_analysis_prompt, with_main_content.
    rewrite !(dict_get_set_other (u "main_content") (u "title")) by reflexivity.
    rewrite !(dict_get_set_other (u "main_content") (u "description")) by reflexivity.
    rewrite !(dict_get_set_other (u "main_content") (u "domain")) by reflexivity.
    rewrite !(dict_get_set_other (u "main_content") (u "headings")) by reflexivity.
    unfold dict_get at 1. rewrite dict_lookup_set_same.
    cbn [slice_to_2000 bind py_str].
    match goal with
    | |- context [slice_to 2000 text ++ ?rest] => set (tail := rest)
    end.
    rewrite !app_assoc. rewrite <- (app_assoc _ (slice_to 2000 text) tail).
    subst tail. reflexivity.
  - reflexivity.
Qed.

(** X26. The analysis prompt holds the first 2000 characters of the main
    content, between a text before and a text after that do not depend
    on it, and nothing of the rest: two pages that differ only past
    that point get the same prompt, and so the same analysis from the
    same backend. *)
Theorem analysis_reads_2000_characters_of_content
    rt dict_slice self content (text1 text2 : str) :
  slice_to 2000 text1 = slice_to 2000 text2 ->
  create_fab_analysis_prompt rt dict_slice (with_main_content text1 content)
  = create_fab_analysis_prompt rt dict_slice (with_main_content text2 content) /\
  raises (create_fab_analysis_prompt rt dict_slice (with_main_content text1 content)) = false /\
  analyze_with_fab rt dict_slice self (with_main_content text1 content)
  = analyze_with_fab rt dict_slice self (with_main_content text2 content) /\
  (exists head tail,
     (forall text : str,
        create_fab_analysis_prompt rt dict_slice (with_main_content text content)
        = Ok (head ++ slice_to 2000 text ++ tail)) /\
     (forall text : str,
        analyze_with_fab rt dict_slice self (with_main_content text content)
        = generate_json rt self (head ++ slice_to 2000 text ++ tail) (Some get_fab_prompt))) /\
  (forall text : str,
     length text <= 2000 ->
     exists head tail,
       create_fab_analysis_prompt rt dict_slice (with_main_content text content)
       = Ok (head ++ text ++ tail)).
Proof.
  intros H.
  destruct (analysis_prompt_shape rt dict_slice content) as (head & tail & Hshape).
  assert (create_fab_analysis_prompt rt dict_slice (with_main_content text1 content)
          = create_fab_analysis_prompt rt dict_slice (with_main_content text2 content)) as E
      by now rewrite !Hshape, H.
  split; [exact E|]. split; [now rewrite Hshape|]. split; [|split].
  - unfold analyze_with_fab. cbv zeta. now rewrite E.
  - exists head, tail. split; [exact Hshape|].
    intros text. unfold analyze_with_fab. cbv zeta. now rewrite Hshape.
  - intros text Hlen. exists head, tail. rewrite Hshape. unfold slice_to.
    now rewrite firstn_all2.
Qed.

(** The property above at two pages of 2000 and 2500 characters, with a
    backend that answers. *)
Lemma long_page_example :
  analyze_with_fab ascii_runtime connection_refused (answering example_json)
    (with_main_content (repeat 120%N 2500) [(u "title", VStr (u "Shop"))])
  = analyze_with_fab ascii_runtime connection_refused (answering example_json)
      (with_main_content (repeat 120%N 2000) [(u "title", VStr (u "Shop"))]) /\
  analyze_with_fab ascii_runtime connection_refused (answering example_json)
    (with_main_content (repeat 120%N 2000) [(u "title", VStr (u "Shop"))])
  = Ok example_value.
Proof.
  split; [|vm_compute; reflexivity].
  refine (proj1 (proj2 (proj2 (analysis_reads_2000_characters_of_content ascii_runtime
                          connection_refused (answering example_json)
                          [(u "title", VStr (u "Shop"))]
                          (repeat 120%N 2500) (repeat 120%N 2000) _)))).
  vm_compute. reflexivity.
Defined.

(** [get_template] never fails: it answers with the template filed
    under the lower-cased name of the industry, and with the template
    of "services" for every name that is none of the three. So the
    lookup ignores the case of ASCII letters. *)
Theorem template_lookup_falls_back_on_services rt (industry : str) :
  (exists template,
     get_template rt industry = Ok template /\
     dict_lookup (if str_eqb (lower rt industry) (u "saas") then u "saas"
                  else if str_eqb (lower rt industry) (u "ecommerce") then u "ecommerce"
                  else u "services") TEMPLATES = Some template) /\
  (forall other,
     forallb is_ascii industry = true -> forallb is_ascii other = true ->
     map ascii_lower industry = map ascii_lower other ->
     get_template rt industry = get_template rt other).
Proof.
  split.
  - unfold get_template.
    change (dict_lookup (u "services") TEMPLATES)
      with (Some (dict_get (u "services") VNone TEMPLATES)).
    eexists. split; [reflexivity|].
    unfold dict_get, TEMPLATES. cbn [dict_lookup].
    destruct (str_eqb (lower rt industry) (u "saas")); [reflexivity|].
    destruct (str_eqb (lower rt industry) (u "ecommerce")); [reflexivity|].
    destruct (str_eqb (lower rt industry) (u "services")); reflexivity.
  - intros other H1 H2 E. unfold get_template, lower. now rewrite H1, H2, E.
Qed.

(** The property above at a name in capitals and at an unknown name. *)
Lemma saas_in_capitals_example :
  get_template ascii_runtime (u "SaaS") = get_template ascii_runtime (u "saas").
Proof.
  apply (proj2 (template_lookup_falls_back_on_services ascii_runtime (u "SaaS")) (u "saas"));
    reflexivity.
Defined.

(** X27. With authentication switched off [verify_password] lets everyone
    in. With it switched on, it returns the user name when the name and
    the password are the configured ones, and [False] otherwise; the
    check for a password that was never configured comes after this
    comparison, so the configured name with an empty password is let in
    when no password is set. *)
Theorem verify_password_compares_with_the_settings settings (username password : str) :
  (auth_enabled settings = false ->
   verify_password settings username password = VBool true) /\
  (auth_enabled settings = true ->
   username = auth_username settings -> password = auth_password settings ->
   verify_password settings username password = VStr username) /\
  (auth_enabled settings = true ->
   username <> auth_username settings \/ password <> auth_password settings ->
   verify_password settings username password = VBool false) /\
  (auth_enabled settings = true -> auth_password settings = [] ->
   verify_password settings (auth_username settings) [] = VStr (auth_username settings)).
Proof.
  unfold verify_password. repeat split.
  - intros ->. reflexivity.
  - intros -> -> ->. now rewrite !str_eqb_refl.
  - intros -> H.
    assert (str_eqb username (auth_username settings)
            && str_eqb password (auth_password settings) = false) as ->.
    { apply andb_false_iff. destruct H as [H|H]; [left|right];
        (destruct (str_eqb _ _) eqn:E; [apply str_eqb_eq in E; congruence|reflexivity]). }
    cbn. now destruct (auth_password settings).
  - intros -> ->. now rewrite str_eqb_refl.
Qed.

(** The property above with the default user name and no password set. *)
Lemma unset_password_example :
  verify_password {| auth_enabled := true; auth_username := u "admin"; auth_password := [] |}
    (u "admin") []
  = VStr (u "admin").
Proof.
  apply (proj2 (proj2 (proj2 (verify_password_compares_with_the_settings
           {| auth_enabled := true; auth_username := u "admin"; auth_password := [] |}
           [] []))));
    reflexivity.
Defined.

(** X28. The keyword list the ad generation gets after a backend failure
    with an [Exception]:
    the words of the fallback and the four generic keywords, as plain
    texts, in this order, cut to twenty. *)
Theorem fallback_keywords_reach_the_ad_generation rt self fab context name :
  product_name_of fab = Some name ->
  fails (generate_json rt self (keywords_prompt rt fab context)
           (Some keywords_system_prompt)) = true ->
  let texts := product_words rt name ++ [u "buy"; u "price"; u "order"; u "services"] in
  bind (generate_keywords rt self fab context) keywords_list = Ok (map VStr texts) /\
  bind (generate_keywords rt self fab context) ads_keywords
  = Ok (map VStr (firstn 20 texts)).
Proof.
  intros Hname Hfail texts. subst texts.
  assert (generate_keywords rt self fab context
          = Ok (VDict [(u "keywords",
                        VList (map word_keyword (product_words rt name) ++ generic_keywords))]))
    as ->.
  { unfold generate_keywords. cbv zeta.
    destruct (generate_json _ _ _ _) as [|e]; [discriminate|].
    cbn [try_except fails] in *. rewrite Hfail.
    now apply GeneratorFacts.fallback_on_text. }
  assert (keywords_list
            (VDict [(u "keywords",
                     VList (map word_keyword (product_words rt name) ++ generic_keywords))])
          = Ok (map VStr (product_words rt name
                          ++ [u "buy"; u "price"; u "order"; u "services"]))) as E.
  { unfold keywords_list. cbn [dict_lookup]. change (str_eqb (u "keywords") (u "keywords"))
      with true. cbv iota. cbn [iterate bind].
    rewrite !map_app, !map_map. reflexivity. }
  cbn [bind]. split; [exact E|].
  unfold ads_keywords. rewrite E. cbn [bind]. now rewrite firstn_map.
Qed.

(** The property above at a backend that refuses every call. *)
Lemma coffee_maker_ads_keywords_example :
  bind (generate_keywords ascii_runtime unreachable
          [(u "product_name", VStr (u "Smart Coffee Maker Pro"))] None) keywords_list
  = Ok (map VStr [u "smart"; u "coffee"; u "maker";
                  u "buy"; u "price"; u "order"; u "services"]).
Proof.
  refine (proj1 (fallback_keywords_reach_the_ad_generation ascii_runtime unreachable
                   [(u "product_name", VStr (u "Smart Coffee Maker Pro"))] None
                   (u "Smart Coffee Maker Pro") eq_refl eq_refl)).
Defined.

Lemma nlp_body_cases rt request_json make_server :
  (exists d b status,
     nlp_body rt request_json make_server = Ok (VDict d, status) /\
     dict_lookup (u "success") d = Some (VBool b) /\
     In status [200%Z; 400%Z; 500%Z]) \/
  (exists e,
     nlp_body rt request_json make_server = Raise e /\
     is_exception (exn_cls e) = false /\
     (request_json = Raise e \/ make_server = Raise e \/
      exists mcp text,
        make_server = Ok mcp /\
        GoogleAdsMCPServer.process_natural_language_request rt mcp text = Raise e)).
Proof.
  assert (forall e : exn,
            is_exception (exn_cls e) = true ->
            exists d b status,
              Ok (VDict [(u "success", VBool false); (u "error", VStr (exn_msg e))], 500%Z)
              = Ok (VDict d, status) /\
              dict_lookup (u "success") d = Some (VBool b) /\
              In status [200%Z; 400%Z; 500%Z]) as Hfail
      by (intros e _; do 3 eexists; split; [reflexivity|split; [reflexivity|cbn; auto]]).
  assert (forall (body : result (value * Z)) e,
            body = Raise e ->
            try_except body
              (fun e => Ok (VDict [(u "success", VBool false);
                                   (u "error", VStr (exn_msg e))], 500%Z))
            = if is_exception (exn_cls e)
              then Ok (VDict [(u "success", VBool false);
                              (u "error", VStr (exn_msg e))], 500%Z)
              else Raise e) as Hraise by (intros body e ->; reflexivity).
  unfold nlp_body.
  destruct request_json as [data|e]; cbn [bind].
  { destruct data; cbn [bind try_except no_attribute exn_cls is_exception];
      try (left; apply (Hfail (no_attribute _ (u "get"))); reflexivity).
    destruct (truthy rt (dict_get (u "request") VNone d)); cbn [negb bind try_except];
      [|left; do 3 eexists; split; [reflexivity|split; [reflexivity|cbn; auto]]].
    destruct make_server as [mcp|e]; cbn [bind try_except].
    - destruct (dict_get (u "request") VNone d);
        cbn [bind try_except no_attribute exn_cls is_exception];
        try (left; apply (Hfail (no_attribute _ (u "lower"))); reflexivity).
      destruct (ServerMore.router_cases rt mcp s) as [(d' & b & E & Hb)|[e E]];
        rewrite E; cbn [bind try_except].
      + left. exists d', b, 200%Z. split; [reflexivity|]. split; [exact Hb|cbn; auto].
      + destruct (is_exception (exn_cls e)) eqn:He; [left; now apply Hfail|].
        right. exists e. split; [reflexivity|]. split; [exact He|].
        right. right. now exists mcp, s.
    - destruct (is_exception (exn_cls e)) eqn:He; [left; now apply Hfail|].
      right. exists e. auto. }
  cbn [try_except].
  destruct (is_exception (exn_cls e)) eqn:He; [left; now apply Hfail|].
  right. exists e. auto.
Qed.

(** X29. The natural-language endpoint is its function when authentication
    is off, and what the library's [login_required] makes of that
    function when authentication is on: then a request whose
    credentials are refused is answered with status 401 and no JSON
    object. The function itself answers with a JSON object that holds a
    boolean under ['success'] and with status 200, 400 or 500, unless
    the request body, the construction of the server or the router
    raises outside [Exception]: that leaves the function. A non-empty
    text sent to a server that could be built, when the router returns,
    is answered with status 200 and the envelope of the router; a body
    without request text gets 400; a body that cannot be read and a
    server that cannot be built (for an [Exception]) get 500. *)
Theorem nlp_endpoint_answers_with_an_envelope
    rt settings login_required request_json make_server :
  let body := nlp_body rt request_json make_server in
  (auth_enabled settings = false ->
   google_ads_natural_language rt settings login_required request_json make_server = body) /\
  (auth_enabled settings = true ->
   google_ads_natural_language rt settings login_required request_json make_server
   = login_required body) /\
  google_ads_natural_language rt
    {| auth_enabled := true; auth_username := auth_username settings;
       auth_password := auth_password settings |} refusing request_json make_server
  = Ok (VStr (u "Unauthorized Access"), 401%Z) /\
  ((exists d b status,
      body = Ok (VDict d, status) /\
      dict_lookup (u "success") d = Some (VBool b) /\
      In status [200%Z; 400%Z; 500%Z]) \/
   (exists e,
      body = Raise e /\ is_exception (exn_cls e) = false /\
      (request_json = Raise e \/ make_server = Raise e \/
       exists mcp text,
         make_server = Ok mcp /\
         GoogleAdsMCPServer.process_natural_language_request rt mcp text = Raise e))) /\
  (forall d text mcp envelope,
     request_json = Ok (VDict d) -> dict_lookup (u "request") d = Some (VStr text) ->
     text <> [] -> make_server = Ok mcp ->
     GoogleAdsMCPServer.process_natural_language_request rt mcp text = Ok envelope ->
     body = Ok (envelope, 200%Z)) /\
  (forall d,
     request_json = Ok (VDict d) -> truthy rt (dict_get (u "request") VNone d) = false ->
     body = Ok (VDict [(u "success", VBool false);
                       (u "error", VStr (u "Request text is required"))], 400%Z)) /\
  (forall e,
     is_exception (exn_cls e) = true ->
     request_json = Raise e \/
     (exists d, request_json = Ok (VDict d) /\
                truthy rt (dict_get (u "request") VNone d) = true /\ make_server = Raise e) ->
     body = Ok (VDict [(u "success", VBool false); (u "error", VStr (exn_msg e))], 500%Z)).
Proof.
  intros body. subst body.
  unfold google_ads_natural_language, require_auth.
  split; [intros ->; reflexivity|]. split; [intros ->; reflexivity|].
  split; [reflexivity|]. split; [apply nlp_body_cases|].
  unfold nlp_body. split; [|split].
  - intros d text mcp envelope -> Hd Htext -> Hrouter. cbn [bind]. unfold dict_get.
    rewrite Hd. destruct text as [|c text]; [congruence|]. cbn [truthy negb bind].
    rewrite Hrouter. reflexivity.
  - intros d -> H. cbn [bind]. rewrite H. reflexivity.
  - intros e He [->|(d & -> & H & ->)]; cbn [bind try_except]; [now rewrite He|].
    rewrite H. cbn [negb bind try_except]. now rewrite He.
Qed.

(** The property above at an unrecognized request: status 200 when
    authentication is off. *)
Lemma banana_over_http_example :
  google_ads_natural_language ascii_runtime default_auth refusing
    (Ok (VDict [(u "request", VStr (u "banana"))]))
    (Ok (GoogleAdsMCPServer.picky_server []))
  = nlp_body ascii_runtime
      (Ok (VDict [(u "request", VStr (u "banana"))]))
      (Ok (GoogleAdsMCPServer.picky_server [])) /\
  exists envelope,
    GoogleAdsMCPServer.unrecognized = Ok envelope /\
    nlp_body ascii_runtime
      (Ok (VDict [(u "request", VStr (u "banana"))]))
      (Ok (GoogleAdsMCPServer.picky_server []))
    = Ok (envelope, 200%Z).
Proof.
  pose proof (nlp_endpoint_answers_with_an_envelope ascii_runtime default_auth refusing
                (Ok (VDict [(u "request", VStr (u "banana"))]))
                (Ok (GoogleAdsMCPServer.picky_server []))) as (Hoff & _ & _ & _ & Hok & _).
  split; [exact (Hoff eq_refl)|].
  eexists. split; [reflexivity|].
  refine (Hok [(u "request", VStr (u "banana"))] (u "banana")
            (GoogleAdsMCPServer.picky_server []) _ eq_refl eq_refl _ eq_refl eq_refl).
  discriminate.
Defined.


End PipelineFacts.

(* ===================================================================== *)
(** * Properties of the query templates                                   *)
(* ===================================================================== *)

Module QueryFacts.
Import Py GoogleAdsQueries.








End QueryFacts.
